(** * Aggregation of a Twitter/X archive: a model of
      [twitter/extract_twitter_archive.py] and the properties of its report.

    The Python functions [load_twitter_js] and [process_tweets] are embedded
    as pure functions.  Exceptions become the [Err] case of [result];
    insertion-ordered dictionaries and [Counter]s become association lists
    that keep the order in which keys were first inserted; the interpreter's
    library ([datetime.strptime], [str.lower], [urlparse], [json.loads]) is
    an interface, [PyRuntime], over which every theorem is stated. *)

From Stdlib Require Import String Ascii List ZArith Lia Bool Permutation Sorted.
From Stdlib Require Import SpecFloat DecimalString.
Import ListNotations.

Open Scope string_scope.
Open Scope Z_scope.

Set Implicit Arguments.

(** ** Exceptions and the error monad *)

Inductive exn : Type :=
| KeyError | TypeError | AttributeError | ValueError | IndexError
| OverflowError | OSError.

Inductive result (A : Type) : Type :=
| Ok (a : A)
| Err (e : exn).
Arguments Ok {A} a.
Arguments Err {A} e.

Definition bind {A B : Type} (r : result A) (k : A -> result B) : result B :=
  match r with
  | Ok a => k a
  | Err e => Err e
  end.

Notation "x <- e ;; k" := (bind e (fun x => k))
  (at level 61, e at next level, right associativity).
Notation "' p <- e ;; k" := (bind e (fun p => k))
  (at level 61, p pattern, e at next level, right associativity).

(** [for x in l: acc = f(x, acc)], stopping at the first exception. *)
Fixpoint foldM {A S : Type} (f : A -> S -> result S) (l : list A) (s : S)
  : result S :=
  match l with
  | [] => Ok s
  | x :: l' => s' <- f x s ;; foldM f l' s'
  end.

(** A list comprehension [[f(x) for x in l]] whose body may raise. *)
Fixpoint mapM {A B : Type} (f : A -> result B) (l : list A) : result (list B) :=
  match l with
  | [] => Ok []
  | x :: l' => y <- f x ;; ys <- mapM f l' ;; Ok (y :: ys)
  end.

(** ** Strings

    A Python [str] is modelled by [string]; one [ascii] stands for one
    character. *)

Definition str_startswith (p s : string) : bool := String.prefix p s.

(** [sub in s]. *)
Fixpoint str_contains (sub s : string) : bool :=
  match s with
  | EmptyString => String.eqb sub EmptyString
  | String _ s' => String.prefix sub s || str_contains sub s'
  end.

(** [s[:n]]. *)
Fixpoint str_take (n : nat) (s : string) : string :=
  match n, s with
  | S n', String c s' => String c (str_take n' s')
  | _, _ => EmptyString
  end.

(** [s[n:]]. *)
Fixpoint str_drop (n : nat) (s : string) : string :=
  match n, s with
  | S n', String _ s' => str_drop n' s'
  | _, _ => s
  end.

(** [s.replace(old, new)] for a non-empty [old]: occurrences are replaced
    from the left and do not overlap.  [skip] counts the characters of an
    occurrence already replaced that are still to be passed over. *)
Fixpoint str_replace_from (skip : nat) (old new s : string) : string :=
  match s with
  | EmptyString => EmptyString
  | String c s' =>
      match skip with
      | S k => str_replace_from k old new s'
      | O =>
          if String.prefix old s
          then new ++ str_replace_from (pred (String.length old)) old new s'
          else String c (str_replace_from O old new s')
      end
  end.

Definition str_replace (old new s : string) : string :=
  str_replace_from O old new s.

(** [s.find(c)] for a single character: the first position of [c]. *)
Fixpoint str_find_char (c : ascii) (s : string) : option nat :=
  match s with
  | EmptyString => None
  | String d s' =>
      if Ascii.eqb d c then Some O
      else option_map S (str_find_char c s')
  end.

(** Every character of [s] satisfies [p]. *)
Fixpoint all_chars (p : ascii -> bool) (s : string) : bool :=
  match s with
  | EmptyString => true
  | String c s' => p c && all_chars p s'
  end.

(** [str(n)] for an integer. *)
Definition str_of_int (n : Z) : string := NilZero.string_of_int (Z.to_int n).

(** [os.path.join(a, b)] on a POSIX system. *)
Definition os_path_join (a b : string) : string :=
  if str_startswith "/" b then b
  else if String.eqb a "" then b
  else if String.eqb (str_drop (pred (String.length a)) a) "/" then a ++ b
  else a ++ "/" ++ b.

(** ** JSON values, as [json.loads] builds them *)

#[warnings="-register-all"]
Inductive json : Type :=
| JNull
| JBool (b : bool)
| JInt (n : Z)
| JFloat (f : spec_float)
| JStr (s : string)
| JArr (items : list json)
| JObj (fields : list (string * json)).

(** Lookup in an association list, by a boolean equality on keys. *)
Fixpoint assoc {K V : Type} (eqb : K -> K -> bool) (k : K) (d : list (K * V))
  : option V :=
  match d with
  | [] => None
  | (k', v) :: d' => if eqb k' k then Some v else assoc eqb k d'
  end.

(** [o[k]] for a string key [k]. *)
Definition py_getitem (o : json) (k : string) : result json :=
  match o with
  | JObj fields =>
      match assoc String.eqb k fields with
      | Some v => Ok v
      | None => Err KeyError
      end
  | _ => Err TypeError
  end.

(** [o.get(k, default)]: only a dict has the method. *)
Definition py_get (o : json) (k : string) (default : json) : result json :=
  match o with
  | JObj fields =>
      match assoc String.eqb k fields with
      | Some v => Ok v
      | None => Ok default
      end
  | _ => Err AttributeError
  end.

(** [len(o)]. *)
Definition py_len (o : json) : result Z :=
  match o with
  | JStr s => Ok (Z.of_nat (String.length s))
  | JArr l => Ok (Z.of_nat (List.length l))
  | JObj d => Ok (Z.of_nat (List.length d))
  | _ => Err TypeError
  end.

(** [for x in o]: a list yields its items, a string its characters, a dict
    its keys. *)
Definition py_iter (o : json) : result (list json) :=
  match o with
  | JArr l => Ok l
  | JStr s => Ok (map (fun c => JStr (String c "")) (list_ascii_of_string s))
  | JObj d => Ok (map (fun kv => JStr (fst kv)) d)
  | _ => Err TypeError
  end.

(** The value of a float when it is an integer. *)
Definition float_integral (f : spec_float) : option Z :=
  match f with
  | S754_zero _ => Some 0
  | S754_finite s m e =>
      let mag :=
        if 0 <=? e then Some (Z.pos m * 2 ^ e)
        else if Z.pos m mod 2 ^ (- e) =? 0 then Some (Z.pos m / 2 ^ (- e))
        else None in
      option_map (fun v => if s then - v else v) mag
  | _ => None
  end.

(** The number a [bool] or [int] denotes. *)
Definition exact_int (o : json) : option Z :=
  match o with
  | JBool b => Some (if b then 1 else 0)
  | JInt n => Some n
  | _ => None
  end.

Definition float_eqb (f g : spec_float) : bool :=
  match f, g with
  | S754_zero _, S754_zero _ => true
  | S754_infinity s, S754_infinity t => Bool.eqb s t
  | S754_nan, S754_nan => true
  | S754_finite s m e, S754_finite t n d =>
      Bool.eqb s t &&
      (if e <=? d then Z.pos m =? Z.pos n * 2 ^ (d - e)
       else Z.pos n =? Z.pos m * 2 ^ (e - d))
  | _, _ => false
  end.

(** Equality of dictionary keys: [==] on hashable values, where [True == 1
    == 1.0]; the one NaN object of the [json] module is found by identity. *)
Definition py_key_eqb (a b : json) : bool :=
  match a, b with
  | JNull, JNull => true
  | JStr s, JStr t => String.eqb s t
  | JFloat f, JFloat g => float_eqb f g
  | JFloat f, (JBool _ | JInt _) =>
      match float_integral f, exact_int b with
      | Some x, Some y => x =? y
      | _, _ => false
      end
  | (JBool _ | JInt _), JFloat g =>
      match exact_int a, float_integral g with
      | Some x, Some y => x =? y
      | _, _ => false
      end
  | (JBool _ | JInt _), (JBool _ | JInt _) =>
      match exact_int a, exact_int b with
      | Some x, Some y => x =? y
      | _, _ => false
      end
  | _, _ => false
  end.

Definition py_hashable (o : json) : bool :=
  match o with
  | JArr _ | JObj _ => false
  | _ => true
  end.

(** Truth value of [if o:]. *)
Definition py_truthy (o : json) : bool :=
  match o with
  | JNull => false
  | JBool b => b
  | JInt n => negb (n =? 0)
  | JFloat (S754_zero _) => false
  | JFloat _ => true
  | JStr s => negb (String.eqb s "")
  | JArr l => match l with [] => false | _ => true end
  | JObj d => match d with [] => false | _ => true end
  end.

(** [k in o] for a string [k]. *)
Definition py_in (k : string) (o : json) : result bool :=
  match o with
  | JObj d => Ok (existsb (fun kv => String.eqb (fst kv) k) d)
  | JArr l => Ok (existsb (fun x => py_key_eqb x (JStr k)) l)
  | JStr s => Ok (str_contains k s)
  | _ => Err TypeError
  end.

(** ** [int(o)] *)

Definition is_digit (c : ascii) : bool :=
  let n := nat_of_ascii c in (48 <=? n)%nat && (n <=? 57)%nat.

Definition digit_val (c : ascii) : Z := Z.of_nat (nat_of_ascii c) - 48.

(** White space [int] skips around a literal: the ASCII blanks, and the
    Latin-1 blanks NEL and NBSP that it first rewrites to a space. *)
Definition is_int_space (c : ascii) : bool :=
  let n := nat_of_ascii c in
  ((9 <=? n)%nat && (n <=? 13)%nat) || (n =? 32)%nat
  || (n =? 133)%nat || (n =? 160)%nat.

Fixpoint all_int_space (s : string) : bool :=
  match s with
  | EmptyString => true
  | String c s' => is_int_space c && all_int_space s'
  end.

(** Digits with single underscores between them, then trailing blanks.
    [after_digit] tells whether the previous character was a digit. *)
Fixpoint int_digits (acc : Z) (after_digit : bool) (s : string) : option Z :=
  match s with
  | EmptyString => if after_digit then Some acc else None
  | String c s' =>
      if is_digit c then int_digits (10 * acc + digit_val c) true s'
      else if Ascii.eqb c "_" then
        if after_digit then int_digits acc false s' else None
      else if after_digit && all_int_space s then Some acc
      else None
  end.

Definition int_signed (s : string) : option Z :=
  match s with
  | String "+" s' => int_digits 0 false s'
  | String "-" s' => option_map Z.opp (int_digits 0 false s')
  | _ => int_digits 0 false s
  end.

Fixpoint int_of_str (s : string) : option Z :=
  match s with
  | String c s' => if is_int_space c then int_of_str s' else int_signed s
  | EmptyString => None
  end.

(** The number of digits in [s]. *)
Fixpoint count_digits (s : string) : Z :=
  match s with
  | EmptyString => 0
  | String c s' => (if is_digit c then 1 else 0) + count_digits s'
  end.

(** The most digits of a string that [int] converts: the interpreter's
    limit on integer string conversion, at its default, which the program
    leaves as it is.  A string with more digits is a [ValueError]. *)
Definition int_max_str_digits : Z := 4300.

(** [int(o)] with the language's unbounded integers: a [bool] or [int] is
    its value, a float is truncated towards zero, a string is read as a
    decimal literal of at most [int_max_str_digits] digits (an ill-formed
    literal and one with more digits are both a [ValueError]); [None],
    lists and dicts are a [TypeError]. *)
Definition py_int (o : json) : result Z :=
  match o with
  | JBool b => Ok (if b then 1 else 0)
  | JInt n => Ok n
  | JFloat (S754_zero _) => Ok 0
  | JFloat (S754_infinity _) => Err OverflowError
  | JFloat S754_nan => Err ValueError
  | JFloat (S754_finite s m e) =>
      let mag := if 0 <=? e then Z.pos m * 2 ^ e else Z.pos m / 2 ^ (- e) in
      Ok (if s then - mag else mag)
  | JStr s =>
      if count_digits s <=? int_max_str_digits then
        match int_of_str s with
        | Some n => Ok n
        | None => Err ValueError
        end
      else Err ValueError
  | JNull | JArr _ | JObj _ => Err TypeError
  end.

(** ** Insertion-ordered dictionaries and counters *)

Section Dict.
Context {K V : Type}.
Variable eqb : K -> K -> bool.

(** [d[k] = v]: an existing key keeps its place, a new key goes last. *)
Fixpoint dict_set (k : K) (v : V) (d : list (K * V)) : list (K * V) :=
  match d with
  | [] => [(k, v)]
  | (k', v') :: d' =>
      if eqb k' k then (k', v) :: d' else (k', v') :: dict_set k v d'
  end.

(** [d.setdefault(k, v)], for the dictionary it leaves behind. *)
Definition dict_setdefault (k : K) (v : V) (d : list (K * V))
  : list (K * V) :=
  match assoc eqb k d with
  | Some _ => d
  | None => dict_set k v d
  end.

(** In-place update of the object stored at [k]. *)
Fixpoint dict_modify (k : K) (f : V -> V) (d : list (K * V))
  : list (K * V) :=
  match d with
  | [] => []
  | (k', v') :: d' =>
      if eqb k' k then (k', f v') :: d' else (k', v') :: dict_modify k f d'
  end.

Definition dict_keys (d : list (K * V)) : list K := map fst d.
End Dict.

(** A [Counter]: a missing key counts 0. *)
Definition Counter (K : Type) : Type := list (K * Z).

Definition counter_get {K} (eqb : K -> K -> bool) (k : K) (c : Counter K) : Z :=
  match assoc eqb k c with
  | Some n => n
  | None => 0
  end.

(** [c[k] += 1]. *)
Definition counter_incr {K} (eqb : K -> K -> bool) (k : K) (c : Counter K)
  : Counter K :=
  dict_set eqb k (counter_get eqb k c + 1) c.

(** [d.setdefault(y, Counter())[k] += 1]. *)
Definition by_year_incr {K} (eqb : K -> K -> bool) (y : string) (k : K)
  (d : list (string * Counter K)) : list (string * Counter K) :=
  dict_modify String.eqb y (counter_incr eqb k)
    (dict_setdefault String.eqb y [] d).

(** ** Sorting and rankings *)

Section Ranking.
Context {A : Type}.
Variable key : A -> Z.

(** Largest key first. *)
Definition key_ge (x y : A) : Prop := key y <= key x.

(** Insertion in front of the first element whose key is not larger:
    [x] stays ahead of the elements of equal key that followed it. *)
Fixpoint insert_desc (x : A) (l : list A) : list A :=
  match l with
  | [] => [x]
  | y :: l' => if key x <? key y then y :: insert_desc x l' else x :: l
  end.

(** [sorted(l, key=key, reverse=True)]: stable, largest key first. *)
Fixpoint sorted_desc (l : list A) : list A :=
  match l with
  | [] => []
  | x :: l' => insert_desc x (sorted_desc l')
  end.
End Ranking.

(** [c.most_common(n)]: the first [n] items by count, largest first, items
    of equal count in insertion order. *)
Definition most_common {K} (n : nat) (c : Counter K) : list (K * Z) :=
  firstn n (sorted_desc snd c).

Definition sorted_asc {A} (key : A -> Z) (l : list A) : list A :=
  sorted_desc (fun x => - key x) l.

(** ** Dates *)

(** An aware [datetime] as [strptime] returns it for a format with [%z];
    the offset from UTC is in microseconds. *)
Record datetime : Type := mkDatetime {
  dt_year : Z;
  dt_month : Z;
  dt_day : Z;
  dt_hour : Z;
  dt_minute : Z;
  dt_second : Z;
  dt_utcoffset : Z
}.

Definition is_leap (y : Z) : bool :=
  (y mod 4 =? 0) && (negb (y mod 100 =? 0) || (y mod 400 =? 0)).

Definition days_before_year (y : Z) : Z :=
  (y - 1) * 365 + (y - 1) / 4 - (y - 1) / 100 + (y - 1) / 400.

Definition days_before_month (y m : Z) : Z :=
  nth (Z.to_nat m) [0; 0; 31; 59; 90; 120; 151; 181; 212; 243; 273; 304; 334] 0
  + (if (2 <? m) && is_leap y then 1 else 0).

(** The instant a [datetime] denotes, in microseconds of UTC: the order in
    which aware datetimes compare. *)
Definition dt_instant (d : datetime) : Z :=
  let days := days_before_year (dt_year d)
              + days_before_month (dt_year d) (dt_month d) + dt_day d in
  (days * 86400 + dt_hour d * 3600 + dt_minute d * 60 + dt_second d) * 1000000
  - dt_utcoffset d.

(** ** The interpreter's library

    [None] stands for the exception the call raises: [ValueError] for
    [strptime], [urlparse] and [json.loads]. *)
Class PyRuntime : Type := {
  strptime : string -> string -> option datetime;
  strftime : datetime -> string -> string;
  str_lower : string -> string;
  urlparse_netloc : string -> option string;
  json_loads : string -> option json
}.

(** The files of the archive: the text of each readable path. *)
Definition filesystem : Type := string -> option string.

(** ** Accumulators and the report *)

Module Month.
Record t : Type := mk { total : Z; original : Z; retweet : Z }.
End Month.

Module Year.
Record t : Type := mk {
  total : Z; original : Z; retweet : Z;
  with_media : Z; favorites : Z; retweet_count : Z
}.
End Year.

Module Rec.
Record t : Type := mk {
  date : string; text : string; favorites : Z; retweets : Z;
  is_retweet : bool; has_media : bool; url_count : Z
}.
End Rec.

Module Acc.
Record t : Type := mk {
  all_hashtags : Counter string;
  all_mentions : Counter json;
  all_domains : Counter string;
  lang_counts : Counter json;
  monthly_volume : list (string * Month.t);
  yearly_volume : list (string * Year.t);
  hashtags_by_year : list (string * Counter string);
  mentions_by_year : list (string * Counter json);
  domains_by_year : list (string * Counter string);
  records : list Rec.t
}.

Definition empty : t := mk [] [] [] [] [] [] [] [] [] [].
End Acc.

Module Top.
(** An entry of [top_tweets_by_favorites] and [top_tweets_by_retweets]. *)
Record t : Type := mk {
  date : string; text : string; favorites : Z; retweets : Z
}.
End Top.

Module Out.
Record t : Type := mk {
  total_tweets : Z;
  original_tweets : Z;
  retweets : Z;
  with_media : Z;
  with_urls : Z;
  unique_hashtags : Z;
  unique_mentions : Z;
  date_range : string * string;
  top_hashtags : list (string * Z);
  top_mentions : list (json * Z);
  top_domains : list (string * Z);
  languages : list (json * Z);
  monthly_volume : list (string * Month.t);
  yearly_volume : list (string * Year.t);
  hashtags_by_year : list (string * list (string * Z));
  mentions_by_year : list (string * list (json * Z));
  domains_by_year : list (string * list (string * Z));
  top_tweets_by_favorites : list Top.t;
  top_tweets_by_retweets : list Top.t
}.
End Out.

(** ** The program *)

Section Program.
Context {rt : PyRuntime}.

(** [load_twitter_js], on the text read from the file: the text from the
    first bracket on is handed to [json.loads]; [str.index] raises
    [ValueError] when there is no bracket. *)
Definition load_twitter_js_text (content : string) : result json :=
  match str_find_char "[" content with
  | None => Err ValueError
  | Some json_start =>
      match json_loads (str_drop json_start content) with
      | Some v => Ok v
      | None => Err ValueError
      end
  end.

Definition load_twitter_js (fs : filesystem) (filepath : string)
  : result json :=
  match fs filepath with
  | None => Err OSError
  | Some content => load_twitter_js_text content
  end.

Definition created_at_format : string := "%a %b %d %H:%M:%S %z %Y".

(** [datetime.strptime(tw["created_at"], ...)]. *)
Definition created_at (tw : json) : result datetime :=
  c <- py_getitem tw "created_at" ;;
  match c with
  | JStr s =>
      match strptime s created_at_format with
      | Some dt => Ok dt
      | None => Err ValueError
      end
  | _ => Err TypeError
  end.

(** [tw["full_text"]], which must have the methods of a string. *)
Definition full_text (tw : json) : result string :=
  ft <- py_getitem tw "full_text" ;;
  match ft with
  | JStr s => Ok s
  | _ => Err AttributeError
  end.

(** [tw.get("entities", {}).get(k, [])]. *)
Definition entities_get (tw : json) (k : string) : result json :=
  ents <- py_get tw "entities" (JObj []) ;;
  py_get ents k (JArr []).

Definition has_media_of (tw : json) : result bool :=
  ext <- py_in "extended_entities" tw ;;
  if ext : bool then Ok true
  else
    media <- entities_get tw "media" ;;
    n <- py_len media ;;
    Ok (0 <? n).

(** [[h["text"].lower() for h in ...]]. *)
Definition hashtags_of (tw : json) : result (list string) :=
  tags <- entities_get tw "hashtags" ;;
  items <- py_iter tags ;;
  mapM (fun h =>
          t <- py_getitem h "text" ;;
          match t with
          | JStr s => Ok (str_lower s)
          | _ => Err AttributeError
          end) items.

(** [[m["screen_name"] for m in ...]]. *)
Definition mentions_of (tw : json) : result (list json) :=
  ms <- entities_get tw "user_mentions" ;;
  items <- py_iter ms ;;
  mapM (fun m => py_getitem m "screen_name") items.

Definition count_hashtag (year h : string) (a : Acc.t) : Acc.t :=
  Acc.mk (counter_incr String.eqb h (Acc.all_hashtags a))
    (Acc.all_mentions a) (Acc.all_domains a) (Acc.lang_counts a)
    (Acc.monthly_volume a) (Acc.yearly_volume a)
    (by_year_incr String.eqb year h (Acc.hashtags_by_year a))
    (Acc.mentions_by_year a) (Acc.domains_by_year a) (Acc.records a).

(** A key that is a list or a dict cannot be hashed. *)
Definition count_mention (year : string) (m : json) (a : Acc.t)
  : result Acc.t :=
  if py_hashable m then
    Ok (Acc.mk (Acc.all_hashtags a)
          (counter_incr py_key_eqb m (Acc.all_mentions a))
          (Acc.all_domains a) (Acc.lang_counts a)
          (Acc.monthly_volume a) (Acc.yearly_volume a)
          (Acc.hashtags_by_year a)
          (by_year_incr py_key_eqb year m (Acc.mentions_by_year a))
          (Acc.domains_by_year a) (Acc.records a))
  else Err TypeError.

(** The body of the [try]: [urlparse(expanded).netloc.replace("www.", "")];
    [None] when it raises, which a value that is not a string does. *)
Definition url_domain (expanded : json) : option string :=
  match expanded with
  | JStr s =>
      match urlparse_netloc s with
      | Some netloc => Some (str_replace "www." "" netloc)
      | None => None
      end
  | _ => None
  end.

(** [domain and "twitter.com" not in domain and "t.co" not in domain]. *)
Definition domain_kept (domain : string) : bool :=
  negb (String.eqb domain "")
  && negb (str_contains "twitter.com" domain)
  && negb (str_contains "t.co" domain).

Definition count_domain (year domain : string) (a : Acc.t) : Acc.t :=
  Acc.mk (Acc.all_hashtags a) (Acc.all_mentions a)
    (counter_incr String.eqb domain (Acc.all_domains a))
    (Acc.lang_counts a) (Acc.monthly_volume a) (Acc.yearly_volume a)
    (Acc.hashtags_by_year a) (Acc.mentions_by_year a)
    (by_year_incr String.eqb year domain (Acc.domains_by_year a))
    (Acc.records a).

(** One turn of [for u in urls], on the accumulators and [url_count]. *)
Definition count_url (year : string) (u : json) (st : Acc.t * Z)
  : result (Acc.t * Z) :=
  fallback <- py_get u "url" (JStr "") ;;
  expanded <- py_get u "expanded_url" fallback ;;
  if py_truthy expanded then
    match url_domain expanded with
    | Some domain =>
        if domain_kept domain
        then Ok (count_domain year domain (fst st), snd st + 1)
        else Ok st
    | None => Ok st
    end
  else Ok st.

Definition count_lang (lang : json) (a : Acc.t) : result Acc.t :=
  if py_hashable lang then
    Ok (Acc.mk (Acc.all_hashtags a) (Acc.all_mentions a) (Acc.all_domains a)
          (counter_incr py_key_eqb lang (Acc.lang_counts a))
          (Acc.monthly_volume a) (Acc.yearly_volume a)
          (Acc.hashtags_by_year a) (Acc.mentions_by_year a)
          (Acc.domains_by_year a) (Acc.records a))
  else Err TypeError.

Definition month_bump (is_rt : bool) (v : Month.t) : Month.t :=
  Month.mk (Month.total v + 1)
    (if is_rt then Month.original v else Month.original v + 1)
    (if is_rt then Month.retweet v + 1 else Month.retweet v).

Definition year_bump (is_rt has_media : bool) (fav rtc : Z) (v : Year.t)
  : Year.t :=
  Year.mk (Year.total v + 1)
    (if is_rt then Year.original v else Year.original v + 1)
    (if is_rt then Year.retweet v + 1 else Year.retweet v)
    (if has_media then Year.with_media v + 1 else Year.with_media v)
    (Year.favorites v + fav)
    (Year.retweet_count v + rtc).

Definition count_monthly (year_month : string) (is_rt : bool) (a : Acc.t)
  : Acc.t :=
  Acc.mk (Acc.all_hashtags a) (Acc.all_mentions a) (Acc.all_domains a)
    (Acc.lang_counts a)
    (dict_modify String.eqb year_month (month_bump is_rt)
       (dict_setdefault String.eqb year_month (Month.mk 0 0 0)
          (Acc.monthly_volume a)))
    (Acc.yearly_volume a)
    (Acc.hashtags_by_year a) (Acc.mentions_by_year a)
    (Acc.domains_by_year a) (Acc.records a).

Definition count_yearly (year : string) (is_rt has_media : bool)
  (fav rtc : Z) (a : Acc.t) : Acc.t :=
  Acc.mk (Acc.all_hashtags a) (Acc.all_mentions a) (Acc.all_domains a)
    (Acc.lang_counts a) (Acc.monthly_volume a)
    (dict_modify String.eqb year (year_bump is_rt has_media fav rtc)
       (dict_setdefault String.eqb year (Year.mk 0 0 0 0 0 0)
          (Acc.yearly_volume a)))
    (Acc.hashtags_by_year a) (Acc.mentions_by_year a)
    (Acc.domains_by_year a) (Acc.records a).

(** [records.append(r)]. *)
Definition append_record (r : Rec.t) (a : Acc.t) : Acc.t :=
  Acc.mk (Acc.all_hashtags a) (Acc.all_mentions a) (Acc.all_domains a)
    (Acc.lang_counts a) (Acc.monthly_volume a) (Acc.yearly_volume a)
    (Acc.hashtags_by_year a) (Acc.mentions_by_year a)
    (Acc.domains_by_year a) (Acc.records a ++ [r]).

(** [int(tw.get(k, 0))]. *)
Definition int_field (tw : json) (k : string) : result Z :=
  v <- py_get tw k (JInt 0) ;;
  py_int v.

(** The body of [for t in tweets]. *)
Definition tweet_step (t : json) (a : Acc.t) : result Acc.t :=
  tw <- py_getitem t "tweet" ;;
  dt <- created_at tw ;;
  let year := str_of_int (dt_year dt) in
  let year_month := strftime dt "%Y-%m" in
  text <- full_text tw ;;
  let is_rt := str_startswith "RT @" text in
  has_media <- has_media_of tw ;;
  hashtags <- hashtags_of tw ;;
  let a := fold_left (fun a h => count_hashtag year h a) hashtags a in
  mentions <- mentions_of tw ;;
  a <- foldM (count_mention year) mentions a ;;
  urls <- entities_get tw "urls" ;;
  us <- py_iter urls ;;
  '(a, url_count) <- foldM (count_url year) us (a, 0) ;;
  lang <- py_get tw "lang" (JStr "und") ;;
  a <- count_lang lang a ;;
  let a := count_monthly year_month is_rt a in
  year_fav <- int_field tw "favorite_count" ;;
  year_rtc <- int_field tw "retweet_count" ;;
  let a := count_yearly year is_rt has_media year_fav year_rtc a in
  fav <- int_field tw "favorite_count" ;;
  rtc <- int_field tw "retweet_count" ;;
  Ok (append_record
        (Rec.mk (strftime dt "%Y-%m-%d") (str_take 200 text) fav rtc
           is_rt has_media url_count) a).

Definition aggregate (tweets : list json) : result Acc.t :=
  foldM tweet_step tweets Acc.empty.

(** [sum(1 for r in records if p(r))]. *)
Definition count_if {A} (p : A -> bool) (l : list A) : Z :=
  Z.of_nat (List.length (filter p l)).

Definition top_entry (r : Rec.t) : Top.t :=
  Top.mk (Rec.date r) (Rec.text r) (Rec.favorites r) (Rec.retweets r).

(** [{y: counter.most_common(20) for y, counter in d.items()}]. *)
Definition by_year_top {K} (d : list (string * Counter K))
  : list (string * list (K * Z)) :=
  map (fun yc => (fst yc, most_common 20 (snd yc))) d.

(** The creation dates of all tweets, parsed once more and sorted. *)
Definition sorted_dates (tweets : list json) : result (list datetime) :=
  dates <- mapM (fun t => tw <- py_getitem t "tweet" ;; created_at tw)
             tweets ;;
  Ok (sorted_asc dt_instant dates).

(** [dates[0]] and [dates[-1]]: an [IndexError] on an empty list. *)
Definition date_range_of (dates : list datetime) : result (string * string) :=
  match dates with
  | [] => Err IndexError
  | first :: _ =>
      Ok (strftime first "%Y-%m-%d", strftime (last dates first) "%Y-%m-%d")
  end.

(** The part of [process_tweets] after the loop. *)
Definition build_output (tweets : list json) (a : Acc.t) : result Out.t :=
  let records := Acc.records a in
  let total := Z.of_nat (List.length records) in
  let originals := count_if (fun r => negb (Rec.is_retweet r)) records in
  let with_media := count_if Rec.has_media records in
  let with_urls := count_if (fun r => 0 <? Rec.url_count r) records in
  let top_by_fav := firstn 20 (sorted_desc Rec.favorites records) in
  let top_by_rt := firstn 20 (sorted_desc Rec.retweets records) in
  dates <- sorted_dates tweets ;;
  range <- date_range_of dates ;;
  Ok (Out.mk total originals (total - originals) with_media with_urls
        (Z.of_nat (List.length (Acc.all_hashtags a)))
        (Z.of_nat (List.length (Acc.all_mentions a)))
        range
        (most_common 50 (Acc.all_hashtags a))
        (most_common 50 (Acc.all_mentions a))
        (most_common 50 (Acc.all_domains a))
        (most_common 20 (Acc.lang_counts a))
        (Acc.monthly_volume a)
        (Acc.yearly_volume a)
        (by_year_top (Acc.hashtags_by_year a))
        (by_year_top (Acc.mentions_by_year a))
        (by_year_top (Acc.domains_by_year a))
        (map top_entry top_by_fav)
        (map top_entry top_by_rt)).

(** [process_tweets] on the parsed list of records. *)
Definition process_records (tweets : list json) : result Out.t :=
  a <- aggregate tweets ;;
  build_output tweets a.

Definition process_tweets (fs : filesystem) (data_dir : string)
  : result Out.t :=
  loaded <- load_twitter_js fs (os_path_join data_dir "tweets.js") ;;
  tweets <- py_iter loaded ;;
  process_records tweets.

End Program.

(** ** Locating the records file in an extracted archive *)

(** A directory: its files, each with its text, and its subdirectories by
    name, both in the order in which the directory lists them. *)
#[warnings="-register-all"]
Inductive dirtree : Type :=
| Dir (files : list (string * string)) (subdirs : list (string * dirtree)).

(** [os.walk(top)]: every directory under [top] as (path, names of its
    subdirectories, names of its files), a directory before the
    directories below it, the subdirectories in their listed order. *)
Fixpoint walk (top : string) (t : dirtree)
  : list (string * list string * list string) :=
  match t with
  | Dir files subdirs =>
      (top, map fst subdirs, map fst files)
      :: (fix walk_all (ds : list (string * dirtree)) :=
            match ds with
            | [] => []
            | (name, d) :: ds' =>
                (walk (os_path_join top name) d ++ walk_all ds')%list
            end) subdirs
  end.

(** ["tweets.js" in files]. *)
Definition has_tweets_js (entry : string * list string * list string) : bool :=
  existsb (String.eqb "tweets.js") (snd entry).

(** What [extract_archive] ends with: the directory it returns, or the
    exception of [zipfile], or its own [FileNotFoundError]. *)
Inductive located : Type :=
| Located (root : string)
| ZipFailed
| NoTweetsJs.

(** [extract_archive].  [unzip zip_path extract_dir] is the directory found
    at [extract_dir] once [extractall] has returned, [None] when the
    archive cannot be opened or extracted. *)
Definition extract_archive (unzip : string -> string -> option dirtree)
  (zip_path extract_dir : string) : located :=
  match unzip zip_path extract_dir with
  | None => ZipFailed
  | Some tree =>
      match find has_tweets_js (walk extract_dir tree) with
      | Some (root, _, _) => Located root
      | None => NoTweetsJs
      end
  end.

(** The files under [top], each by its path, with its text. *)
Fixpoint extracted_files (top : string) (t : dirtree) : list (string * string) :=
  match t with
  | Dir files subdirs =>
      (map (fun f => (os_path_join top (fst f), snd f)) files
       ++ (fix files_all (ds : list (string * dirtree)) :=
             match ds with
             | [] => []
             | (name, d) :: ds' =>
                 (extracted_files (os_path_join top name) d ++ files_all ds')%list
             end) subdirs)%list
  end.

(** The file system that holds the extracted files and nothing else. *)
Definition extracted_fs (top : string) (t : dirtree) : filesystem :=
  fun path => assoc String.eqb path (extracted_files top t).

(** No name of a subdirectory starts with a slash. *)
Fixpoint plain_names (t : dirtree) : Prop :=
  match t with
  | Dir _ subdirs =>
      (fix plain_all (ds : list (string * dirtree)) : Prop :=
         match ds with
         | [] => True
         | (name, d) :: ds' =>
             str_startswith "/" name = false /\ plain_names d /\ plain_all ds'
         end) subdirs
  end.

(** ** A runtime to compute with

    Executable models of the library calls on one-byte characters.  Each
    accepts a subset of what CPython accepts and agrees with it there:
    [strptime] reads the fixed-width English form the archive writes
    (["Wed Oct 10 20:19:24 +0000 2018"]), [urlparse] follows [urlsplit] but
    refuses hosts in brackets, [json.loads] reads JSON without floats and
    without [\u] escapes (and, unlike CPython, to any nesting depth). *)

Module Sample.

Definition two_digits (s : string) : option Z :=
  match s with
  | String a (String b EmptyString) =>
      if is_digit a && is_digit b
      then Some (10 * digit_val a + digit_val b) else None
  | _ => None
  end.

Definition four_digits (s : string) : option Z :=
  match two_digits (str_take 2 s), two_digits (str_drop 2 s) with
  | Some hi, Some lo => Some (100 * hi + lo)
  | _, _ => None
  end.

Fixpoint index_of (s : string) (l : list string) : option Z :=
  match l with
  | [] => None
  | x :: l' =>
      if String.eqb x s then Some 0 else option_map Z.succ (index_of s l')
  end.

Definition weekdays : list string :=
  ["Mon"; "Tue"; "Wed"; "Thu"; "Fri"; "Sat"; "Sun"].

Definition months : list string :=
  ["Jan"; "Feb"; "Mar"; "Apr"; "May"; "Jun";
   "Jul"; "Aug"; "Sep"; "Oct"; "Nov"; "Dec"].

Definition days_in_month (y m : Z) : Z :=
  if (m =? 2) && is_leap y then 29
  else nth (Z.to_nat m) [0; 31; 28; 31; 30; 31; 30; 31; 31; 30; 31; 30; 31] 0.

Definition slice (i n : nat) (s : string) : string :=
  str_take n (str_drop i s).

Definition opt_bind {A B} (o : option A) (k : A -> option B) : option B :=
  match o with
  | Some a => k a
  | None => None
  end.

Definition strptime (s fmt : string) : option datetime :=
  if negb (String.eqb fmt "%a %b %d %H:%M:%S %z %Y") then None
  else if negb (Nat.eqb (String.length s) 30) then None
  else if negb (String.eqb (slice 3 1 s) " " && String.eqb (slice 7 1 s) " "
                && String.eqb (slice 10 1 s) " "
                && String.eqb (slice 13 1 s) ":"
                && String.eqb (slice 16 1 s) ":"
                && String.eqb (slice 19 1 s) " "
                && String.eqb (slice 25 1 s) " ") then None
  else
    opt_bind (index_of (slice 0 3 s) weekdays) (fun _ =>
    opt_bind (index_of (slice 4 3 s) months) (fun m0 =>
    opt_bind (two_digits (slice 8 2 s)) (fun d =>
    opt_bind (two_digits (slice 11 2 s)) (fun hh =>
    opt_bind (two_digits (slice 14 2 s)) (fun mi =>
    opt_bind (two_digits (slice 17 2 s)) (fun ss =>
    opt_bind (two_digits (slice 21 2 s)) (fun zh =>
    opt_bind (two_digits (slice 23 2 s)) (fun zm =>
    opt_bind (four_digits (slice 26 4 s)) (fun y =>
    let sign := slice 20 1 s in
    let m := m0 + 1 in
    if (1000 <=? y) && (1 <=? d) && (d <=? days_in_month y m)
       && (hh <=? 23) && (mi <=? 59) && (ss <=? 59)
       && (zh <=? 23) && (zm <=? 59)
       && (String.eqb sign "+" || String.eqb sign "-")
    then
      let off := (zh * 3600 + zm * 60) * 1000000 in
      Some (mkDatetime y m d hh mi ss
              (if String.eqb sign "-" then - off else off))
    else None))))))))).

Definition pad2 (n : Z) : string :=
  if n <? 10 then "0" ++ str_of_int n else str_of_int n.

Definition strftime (dt : datetime) (fmt : string) : string :=
  if String.eqb fmt "%Y-%m" then
    str_of_int (dt_year dt) ++ "-" ++ pad2 (dt_month dt)
  else if String.eqb fmt "%Y-%m-%d" then
    str_of_int (dt_year dt) ++ "-" ++ pad2 (dt_month dt)
    ++ "-" ++ pad2 (dt_day dt)
  else fmt.

(** Lower case in Latin-1: the ASCII capitals and the accented capitals
    0xC0-0xDE other than the multiplication sign. *)
Definition lower_char (c : ascii) : ascii :=
  let n := nat_of_ascii c in
  if ((65 <=? n)%nat && (n <=? 90)%nat)
     || ((192 <=? n)%nat && (n <=? 222)%nat && negb (n =? 215)%nat)
  then ascii_of_nat (n + 32) else c.

Fixpoint str_lower (s : string) : string :=
  match s with
  | EmptyString => EmptyString
  | String c s' => String (lower_char c) (str_lower s')
  end.

(** [urlsplit]: leading control characters and blanks are stripped, tabs
    and line breaks removed, a scheme is cut off, and the network
    location is what follows ["//"] up to the first of [/ ? #]. *)
Fixpoint lstrip_c0 (s : string) : string :=
  match s with
  | String c s' => if (nat_of_ascii c <=? 32)%nat then lstrip_c0 s' else s
  | EmptyString => s
  end.

Fixpoint remove_unsafe (s : string) : string :=
  match s with
  | EmptyString => EmptyString
  | String c s' =>
      let n := nat_of_ascii c in
      if (n =? 9)%nat || (n =? 10)%nat || (n =? 13)%nat
      then remove_unsafe s' else String c (remove_unsafe s')
  end.

Definition is_alpha (c : ascii) : bool :=
  let n := nat_of_ascii c in
  ((65 <=? n)%nat && (n <=? 90)%nat) || ((97 <=? n)%nat && (n <=? 122)%nat).

Definition is_scheme_char (c : ascii) : bool :=
  is_alpha c || is_digit c
  || Ascii.eqb c "+" || Ascii.eqb c "-" || Ascii.eqb c ".".

Definition strip_scheme (url : string) : string :=
  match url, str_find_char ":" url with
  | String c _, Some (S i) =>
      if is_alpha c && all_chars is_scheme_char (str_take (S i) url)
      then str_drop (S (S i)) url else url
  | _, _ => url
  end.

Fixpoint until_delim (s : string) : string :=
  match s with
  | EmptyString => EmptyString
  | String c s' =>
      if Ascii.eqb c "/" || Ascii.eqb c "?" || Ascii.eqb c "#"
      then EmptyString else String c (until_delim s')
  end.

Definition urlparse_netloc (url : string) : option string :=
  let url := strip_scheme (remove_unsafe (lstrip_c0 url)) in
  if str_startswith "//" url then
    let netloc := until_delim (str_drop 2 url) in
    if str_contains "[" netloc || str_contains "]" netloc then None
    else Some netloc
  else Some "".

(** [json.loads]: the decoder of the [json] module, in its default
    strict mode. *)
Definition is_json_ws (c : ascii) : bool :=
  let n := nat_of_ascii c in
  (n =? 32)%nat || (n =? 9)%nat || (n =? 10)%nat || (n =? 13)%nat.

Fixpoint skip_ws (s : string) : string :=
  match s with
  | String c s' => if is_json_ws c then skip_ws s' else s
  | EmptyString => s
  end.

Definition quote : ascii := "034".
Definition backslash : ascii := "092".

Definition unescape (c : ascii) : option ascii :=
  if Ascii.eqb c quote then Some quote
  else if Ascii.eqb c backslash then Some backslash
  else if Ascii.eqb c "/" then Some "/"%char
  else if Ascii.eqb c "b" then Some "008"%char
  else if Ascii.eqb c "f" then Some "012"%char
  else if Ascii.eqb c "n" then Some "010"%char
  else if Ascii.eqb c "r" then Some "013"%char
  else if Ascii.eqb c "t" then Some "009"%char
  else None.

Definition cons_char (c : ascii) (r : option (string * string))
  : option (string * string) :=
  match r with
  | Some (s, rest) => Some (String c s, rest)
  | None => None
  end.

(** The body of a string literal, after its opening quote. *)
Fixpoint scan_string (s : string) : option (string * string) :=
  match s with
  | EmptyString => None
  | String c r =>
      if Ascii.eqb c quote then Some (EmptyString, r)
      else if Ascii.eqb c backslash then
        match r with
        | String e r' =>
            match unescape e with
            | Some ch => cons_char ch (scan_string r')
            | None => None
            end
        | EmptyString => None
        end
      else if (nat_of_ascii c <? 32)%nat then None
      else cons_char c (scan_string r)
  end.

Fixpoint scan_digits (acc : Z) (s : string) : Z * string :=
  match s with
  | String c s' =>
      if is_digit c then scan_digits (10 * acc + digit_val c) s'
      else (acc, s)
  | EmptyString => (acc, s)
  end.

(** An integer literal [0] or [[1-9][0-9]*]; a fraction or an exponent
    after it would make a float.  The decoder converts the literal with
    [int], which refuses more than [int_max_str_digits] digits. *)
Definition scan_int (s : string) : option (Z * string) :=
  match s with
  | String c s' =>
      if is_digit c then
        let '(n, rest) :=
          if Ascii.eqb c "0" then (0, s') else scan_digits 0 s in
        if int_max_str_digits
           <? Z.of_nat (String.length s - String.length rest)
        then None
        else
          match rest with
          | String d _ =>
              if Ascii.eqb d "." || Ascii.eqb d "e" || Ascii.eqb d "E"
              then None else Some (n, rest)
          | EmptyString => Some (n, rest)
          end
      else None
  | EmptyString => None
  end.

Definition literal (word : string) (v : json) (s : string)
  : option (json * string) :=
  if str_startswith word s
  then Some (v, str_drop (String.length word) s) else None.

Fixpoint scan_value (fuel : nat) (s : string) : option (json * string) :=
  match fuel with
  | O => None
  | S fuel' =>
      match s with
      | EmptyString => None
      | String c r =>
          if Ascii.eqb c quote then
            match scan_string r with
            | Some (str, rest) => Some (JStr str, rest)
            | None => None
            end
          else if Ascii.eqb c "[" then
            match skip_ws r with
            | String "]" rest => Some (JArr [], rest)
            | r' => scan_items fuel' r' []
            end
          else if Ascii.eqb c "{" then
            match skip_ws r with
            | String "}" rest => Some (JObj [], rest)
            | r' => scan_members fuel' r' []
            end
          else if Ascii.eqb c "n" then literal "null" JNull s
          else if Ascii.eqb c "t" then literal "true" (JBool true) s
          else if Ascii.eqb c "f" then literal "false" (JBool false) s
          else if Ascii.eqb c "N" then literal "NaN" (JFloat S754_nan) s
          else if Ascii.eqb c "I" then
            literal "Infinity" (JFloat (S754_infinity false)) s
          else if Ascii.eqb c "-" then
            match scan_int r with
            | Some (n, rest) => Some (JInt (- n), rest)
            | None => literal "-Infinity" (JFloat (S754_infinity true)) s
            end
          else
            match scan_int s with
            | Some (n, rest) => Some (JInt n, rest)
            | None => None
            end
      end
  end
with scan_items (fuel : nat) (s : string) (seen : list json)
  : option (json * string) :=
  match fuel with
  | O => None
  | S fuel' =>
      match scan_value fuel' s with
      | Some (v, rest) =>
          match skip_ws rest with
          | String "]" rest' => Some (JArr (rev (v :: seen)), rest')
          | String "," rest' => scan_items fuel' (skip_ws rest') (v :: seen)
          | _ => None
          end
      | None => None
      end
  end
with scan_members (fuel : nat) (s : string) (seen : list (string * json))
  : option (json * string) :=
  match fuel with
  | O => None
  | S fuel' =>
      match s with
      | String c r =>
          if Ascii.eqb c quote then
            match scan_string r with
            | Some (k, rest) =>
                match skip_ws rest with
                | String ":" rest' =>
                    match scan_value fuel' (skip_ws rest') with
                    | Some (v, rest'') =>
                        let seen' := dict_set String.eqb k v seen in
                        match skip_ws rest'' with
                        | String "}" done => Some (JObj seen', done)
                        | String "," more =>
                            scan_members fuel' (skip_ws more) seen'
                        | _ => None
                        end
                    | None => None
                    end
                | _ => None
                end
            | None => None
            end
          else None
      | EmptyString => None
      end
  end.

Definition json_loads (s : string) : option json :=
  match scan_value (2 * String.length s + 2) (skip_ws s) with
  | Some (v, rest) =>
      match skip_ws rest with
      | EmptyString => Some v
      | _ => None
      end
  | None => None
  end.

Definition runtime : PyRuntime :=
  Build_PyRuntime strptime strftime str_lower urlparse_netloc json_loads.

End Sample.

(** ** Vocabulary of the properties

    These definitions are not part of the program: they say, in the words
    of the specification, what its report is compared with. *)

(** The distinct elements of [l], in the order in which they first occur. *)
Definition first_seen (l : list string) : list string :=
  rev (nodup string_dec (rev l)).

Definition occurrences (x : string) (l : list string) : Z :=
  Z.of_nat (count_occ string_dec l x).

(** The full counter of a stream of observations: one entry per distinct
    key, in first-seen order, with the number of times it was observed. *)
Definition tally (l : list string) : list (string * Z) :=
  map (fun x => (x, occurrences x l)) (first_seen l).

(** The first entry of highest count, and the other entries in order. *)
Fixpoint select_max {K} (c : list (K * Z)) : option ((K * Z) * list (K * Z)) :=
  match c with
  | [] => None
  | x :: c' =>
      match select_max c' with
      | None => Some (x, [])
      | Some (m, rest) =>
          if snd x <? snd m then Some (m, x :: rest) else Some (x, c')
      end
  end.

(** The [n] highest-count entries, ties broken by first-seen order: the
    first entry of highest count is taken out, [n] times. *)
Fixpoint top_n_spec {K} (n : nat) (c : list (K * Z)) : list (K * Z) :=
  match n with
  | O => []
  | S n' =>
      match select_max c with
      | None => []
      | Some (m, rest) => m :: top_n_spec n' rest
      end
  end.

(** No character of [s] is an opening bracket. *)
Definition no_bracket (s : string) : Prop :=
  ~ In "["%char (list_ascii_of_string s).

(** A non-empty string of the digits 0-9, and the integer it writes. *)
Definition decimal_digits (s : string) : bool :=
  negb (String.eqb s "") && all_chars is_digit s.

Definition digits_value (s : string) : Z :=
  fold_left (fun acc c => 10 * acc + digit_val c) (list_ascii_of_string s) 0.

(** A string of digits short enough for [int]: at most
    [int_max_str_digits] of them. *)
Definition digits_within_limit (s : string) : bool :=
  decimal_digits s && (Z.of_nat (String.length s) <=? int_max_str_digits).

(** The value with a string of digits within the limit replaced by the
    integer it writes. *)
Definition digits_to_int (v : json) : json :=
  match v with
  | JStr s => if digits_within_limit s then JInt (digits_value s) else v
  | _ => v
  end.

(** The count a field value writes: an integer, or a string of digits
    within the limit; nothing for any other value. *)
Definition count_written (v : json) : option Z :=
  match v with
  | JInt n => Some n
  | JStr s => if digits_within_limit s then Some (digits_value s) else None
  | _ => None
  end.

(** The count written in the field [k] of the tweet [tw]; an absent field
    writes 0. *)
Definition field_written (tw : json) (k : string) : option Z :=
  match py_get tw k (JInt 0) with
  | Ok v => count_written v
  | Err _ => None
  end.

(** The count written in the field [k] of the tweet of the record [t]. *)
Definition written_count (k : string) (t : json) : Z :=
  match py_getitem t "tweet" with
  | Ok tw =>
      match field_written tw k with
      | Some n => n
      | None => 0
      end
  | Err _ => 0
  end.

(** Both engagement counters of the record [t] are written counts. *)
Definition counts_written (t : json) : bool :=
  match py_getitem t "tweet" with
  | Ok tw =>
      match field_written tw "favorite_count",
            field_written tw "retweet_count" with
      | Some _, Some _ => true
      | _, _ => false
      end
  | Err _ => false
  end.

(** The bucket of the year [y] in a yearly table; the bucket
    [setdefault] would start from when the year is not there yet. *)
Definition bucket_of_year (y : string) (d : list (string * Year.t)) : Year.t :=
  match assoc String.eqb y d with
  | Some v => v
  | None => Year.mk 0 0 0 0 0 0
  end.

(** [n] copies of the character [c]. *)
Fixpoint str_repeat (n : nat) (c : ascii) : string :=
  match n with
  | O => EmptyString
  | S n' => String c (str_repeat n' c)
  end.

Definition is_count_field (k : string) : bool :=
  String.eqb k "favorite_count" || String.eqb k "retweet_count".

(** The values of the fields selected by [p] rewritten by [f]. *)
Definition map_fields (p : string -> bool) (f : json -> json) (o : json)
  : json :=
  match o with
  | JObj fields =>
      JObj (map (fun kv => if p (fst kv) then (fst kv, f (snd kv)) else kv)
              fields)
  | _ => o
  end.

(** The tweet [tw] with its engagement counters given as integers where
    they were strings of digits within the limit. *)
Definition as_ints (tw : json) : json :=
  map_fields is_count_field digits_to_int tw.

(** The record [t] with the counters of its tweet given as integers. *)
Definition with_int_counts (t : json) : json :=
  map_fields (String.eqb "tweet") as_ints t.

Section Observations.
Context {rt : PyRuntime}.

(** The hashtag strings of one record: the lowercased text of each of its
    hashtag entities; none when the record cannot be read. *)
Definition record_hashtags (t : json) : list string :=
  match tw <- py_getitem t "tweet" ;; hashtags_of tw with
  | Ok hs => hs
  | Err _ => []
  end.

(** Every hashtag string observed, in the order of the records. *)
Definition observed_hashtags (tweets : list json) : list string :=
  flat_map record_hashtags tweets.

(** The year of a record, as the key of the yearly tables. *)
Definition record_year (t : json) : result string :=
  tw <- py_getitem t "tweet" ;;
  dt <- created_at tw ;;
  Ok (str_of_int (dt_year dt)).

(** Sum of [total] over the years of a yearly table. *)
Definition sum_year_totals (d : list (string * Year.t)) : Z :=
  fold_right (fun kv s => Year.total (snd kv) + s) 0 d.

(** A bucket whose originals and retweets add up to its total. *)
Definition year_balanced (v : Year.t) : Prop :=
  Year.original v + Year.retweet v = Year.total v.

Definition month_balanced (v : Month.t) : Prop :=
  Month.original v + Month.retweet v = Month.total v.

(** What the loop maintains about the two volume tables. *)
Definition volume_inv (a : Acc.t) : Prop :=
  Forall (fun kv => year_balanced (snd kv)) (Acc.yearly_volume a)
  /\ Forall (fun kv => month_balanced (snd kv)) (Acc.monthly_volume a)
  /\ NoDup (dict_keys (Acc.yearly_volume a))
  /\ NoDup (dict_keys (Acc.monthly_volume a))
  /\ sum_year_totals (Acc.yearly_volume a)
     = Z.of_nat (length (Acc.records a)).

(** The year [y] is a key of one of the per-year breakdowns. *)
Definition in_breakdown (y : string) (a : Acc.t) : Prop :=
  In y (dict_keys (Acc.hashtags_by_year a))
  \/ In y (dict_keys (Acc.mentions_by_year a))
  \/ In y (dict_keys (Acc.domains_by_year a)).

(** Years enter the breakdowns only with a record of that year, and the
    year of every record processed is in [yearly_volume]. *)
Definition years_inv (ts : list json) (a : Acc.t) : Prop :=
  (forall y, in_breakdown y a ->
             exists t, In t ts /\ record_year t = Ok y)
  /\ (forall t, In t ts ->
                exists y, record_year t = Ok y
                          /\ In y (dict_keys (Acc.yearly_volume a))).

(** [t'] is [t], or [t] with its counters given as integers. *)
Definition same_but_counts (t t' : json) : Prop :=
  t' = t \/ t' = with_int_counts t.

(** The records of the year [y]. *)
Definition records_of_year (y : string) (tweets : list json) : list json :=
  filter (fun t => match record_year t with
                   | Ok y' => String.eqb y' y
                   | Err _ => false
                   end) tweets.
End Observations.

(** ** The loop body as reading and counting

    The loop body first reads a record, which may raise, and then only
    counts.  [read_record] is the reading part, in the order in which
    [tweet_step] evaluates it; [absorb] is the counting part. *)

Module Reading.
Record t : Type := mk {
  when : datetime;
  year : string;
  month : string;
  date : string;
  text : string;
  is_rt : bool;
  has_media : bool;
  hashtags : list string;
  mentions : list json;
  domains : list string;
  lang : json;
  favorites : Z;
  retweets : Z
}.
End Reading.

(** [d.setdefault(k, init)] followed by an update of the object at [d[k]]. *)
Definition dict_upsert {V} (init : V) (k : string) (g : V -> V)
  (d : list (string * V)) : list (string * V) :=
  dict_modify String.eqb k g (dict_setdefault String.eqb k init d).

Section Reading.
Context {rt : PyRuntime}.

(** The domains one entry of [urls] adds to the counters: none or one. *)
Definition url_counted (u : json) : result (list string) :=
  fallback <- py_get u "url" (JStr "") ;;
  expanded <- py_get u "expanded_url" fallback ;;
  Ok (if py_truthy expanded then
        match url_domain expanded with
        | Some domain => if domain_kept domain then [domain] else []
        | None => []
        end
      else []).

(** Everything the loop body takes from a record. *)
Definition read_record (t : json) : result Reading.t :=
  tw <- py_getitem t "tweet" ;;
  dt <- created_at tw ;;
  text <- full_text tw ;;
  has_media <- has_media_of tw ;;
  hashtags <- hashtags_of tw ;;
  mentions <- mentions_of tw ;;
  if forallb py_hashable mentions then
    urls <- entities_get tw "urls" ;;
    us <- py_iter urls ;;
    counted <- mapM url_counted us ;;
    lang <- py_get tw "lang" (JStr "und") ;;
    if py_hashable lang then
      fav <- int_field tw "favorite_count" ;;
      rtc <- int_field tw "retweet_count" ;;
      Ok (Reading.mk dt (str_of_int (dt_year dt)) (strftime dt "%Y-%m")
            (strftime dt "%Y-%m-%d") (str_take 200 text)
            (str_startswith "RT @" text) has_media hashtags mentions
            (concat counted) lang fav rtc)
    else Err TypeError
  else Err TypeError.

(** The projection kept in [records]. *)
Definition projection (r : Reading.t) : Rec.t :=
  Rec.mk (Reading.date r) (Reading.text r) (Reading.favorites r)
    (Reading.retweets r) (Reading.is_rt r) (Reading.has_media r)
    (Z.of_nat (length (Reading.domains r))).

(** The counting done for a record that was read. *)
Definition absorb (r : Reading.t) (a : Acc.t) : Acc.t :=
  let y := Reading.year r in
  Acc.mk
    (fold_left (fun c h => counter_incr String.eqb h c) (Reading.hashtags r)
       (Acc.all_hashtags a))
    (fold_left (fun c m => counter_incr py_key_eqb m c) (Reading.mentions r)
       (Acc.all_mentions a))
    (fold_left (fun c d => counter_incr String.eqb d c) (Reading.domains r)
       (Acc.all_domains a))
    (counter_incr py_key_eqb (Reading.lang r) (Acc.lang_counts a))
    (dict_upsert (Month.mk 0 0 0) (Reading.month r)
       (month_bump (Reading.is_rt r)) (Acc.monthly_volume a))
    (dict_upsert (Year.mk 0 0 0 0 0 0) y
       (year_bump (Reading.is_rt r) (Reading.has_media r)
          (Reading.favorites r) (Reading.retweets r))
       (Acc.yearly_volume a))
    (fold_left (fun d h => by_year_incr String.eqb y h d) (Reading.hashtags r)
       (Acc.hashtags_by_year a))
    (fold_left (fun d m => by_year_incr py_key_eqb y m d) (Reading.mentions r)
       (Acc.mentions_by_year a))
    (fold_left (fun d x => by_year_incr String.eqb y x d) (Reading.domains r)
       (Acc.domains_by_year a))
    (Acc.records a ++ [projection r]).

(** The readings of all records, when every record can be read. *)
Definition read_all (tweets : list json) : result (list Reading.t) :=
  mapM read_record tweets.
End Reading.

(** ** Vocabulary of the further properties *)

(** The table a loop of upserts builds from [l]: one entry per key, in
    first-seen order, holding [init] updated by the elements of that key in
    their order. *)
Definition keyed {A V} (key : A -> string) (init : V) (upd : A -> V -> V)
  (l : list A) : list (string * V) :=
  map (fun k =>
         (k, fold_left (fun v x => upd x v)
               (filter (fun x => String.eqb (key x) k) l) init))
    (first_seen (map key l)).

Definition sum_by {A} (f : A -> Z) (l : list A) : Z :=
  fold_right (fun x s => f x + s) 0 l.

(** The readings of the year [y], and of the month [m]. *)
Definition of_year (y : string) (rs : list Reading.t) : list Reading.t :=
  filter (fun r => String.eqb (Reading.year r) y) rs.

Definition of_month (m : string) (rs : list Reading.t) : list Reading.t :=
  filter (fun r => String.eqb (Reading.month r) m) rs.

(** The yearly bucket of a list of readings. *)
Definition year_bucket (rs : list Reading.t) : Year.t :=
  Year.mk (Z.of_nat (length rs))
    (count_if (fun r => negb (Reading.is_rt r)) rs)
    (count_if Reading.is_rt rs)
    (count_if Reading.has_media rs)
    (sum_by Reading.favorites rs)
    (sum_by Reading.retweets rs).

(** The monthly bucket of a list of readings. *)
Definition month_bucket (rs : list Reading.t) : Month.t :=
  Month.mk (Z.of_nat (length rs))
    (count_if (fun r => negb (Reading.is_rt r)) rs)
    (count_if Reading.is_rt rs).

(** The items (hashtags, domains) of the records of year [y], in order. *)
Definition items_of_year {K} (items : Reading.t -> list K) (y : string)
  (rs : list Reading.t) : list K :=
  flat_map items (of_year y rs).

(** The year of each item, in the order in which the items are counted. *)
Definition item_years {K} (items : Reading.t -> list K) (rs : list Reading.t)
  : list string :=
  flat_map (fun r => map (fun _ => Reading.year r) (items r)) rs.

(** A per-year breakdown: for each year that has items, in the order in
    which the years first have one, the 20 most frequent items of the
    year. *)
Definition breakdown (items : Reading.t -> list string) (rs : list Reading.t)
  : list (string * list (string * Z)) :=
  map (fun y => (y, top_n_spec 20 (tally (items_of_year items y rs))))
    (first_seen (item_years items rs)).

(** The items of all records, each with the year of its record. *)
Definition tagged {K} (items : Reading.t -> list K) (rs : list Reading.t)
  : list (string * K) :=
  flat_map (fun r => map (pair (Reading.year r)) (items r)) rs.

(** The accumulators after counting the readings [rs]. *)
Definition counted (rs : list Reading.t) : Acc.t :=
  fold_left (fun a r => absorb r a) rs Acc.empty.

(** [top] ranks the records by [score]: it holds 20 entries (all of them
    when there are fewer records), the largest score first; each entry
    shows a record, with at most 200 characters of text; the first entry
    has the highest score of all records. *)
Definition ranks_records {rt : PyRuntime} (score : Reading.t -> Z)
  (shown : Top.t -> Z) (tweets : list json) (top : list Top.t) : Prop :=
  length top = Nat.min 20 (length tweets)
  /\ StronglySorted (fun x y => shown y <= shown x) top
  /\ (forall e, In e top ->
                (String.length (Top.text e) <= 200)%nat
                /\ exists t r, In t tweets /\ read_record t = Ok r
                               /\ e = top_entry (projection r)
                               /\ shown e = score r)
  /\ (exists e rest,
         top = e :: rest
         /\ forall t r, In t tweets -> read_record t = Ok r ->
                        score r <= shown e).

(** Two readings that differ at most in their domains. *)
Definition same_but_domains (r1 r2 : Reading.t) : Prop :=
  Reading.when r1 = Reading.when r2
  /\ Reading.year r1 = Reading.year r2
  /\ Reading.month r1 = Reading.month r2
  /\ Reading.date r1 = Reading.date r2
  /\ Reading.text r1 = Reading.text r2
  /\ Reading.is_rt r1 = Reading.is_rt r2
  /\ Reading.has_media r1 = Reading.has_media r2
  /\ Reading.hashtags r1 = Reading.hashtags r2
  /\ Reading.mentions r1 = Reading.mentions r2
  /\ Reading.lang r1 = Reading.lang r2
  /\ Reading.favorites r1 = Reading.favorites r2
  /\ Reading.retweets r1 = Reading.retweets r2.

(** Two projections that differ at most in their [url_count]. *)
Definition rec_agree (x y : Rec.t) : Prop :=
  top_entry x = top_entry y
  /\ Rec.is_retweet x = Rec.is_retweet y
  /\ Rec.has_media x = Rec.has_media y.

(** Two states of the accumulators that differ at most in what the
    domains feed. *)
Definition acc_agree (a1 a2 : Acc.t) : Prop :=
  Acc.all_hashtags a1 = Acc.all_hashtags a2
  /\ Acc.all_mentions a1 = Acc.all_mentions a2
  /\ Acc.lang_counts a1 = Acc.lang_counts a2
  /\ Acc.monthly_volume a1 = Acc.monthly_volume a2
  /\ Acc.yearly_volume a1 = Acc.yearly_volume a2
  /\ Acc.hashtags_by_year a1 = Acc.hashtags_by_year a2
  /\ Acc.mentions_by_year a1 = Acc.mentions_by_year a2
  /\ Forall2 rec_agree (Acc.records a1) (Acc.records a2).

(** Two reports that differ at most in [with_urls], [top_domains] and
    [domains_by_year]. *)
Definition agree_but_domains (o1 o2 : Out.t) : Prop :=
  Out.total_tweets o1 = Out.total_tweets o2
  /\ Out.original_tweets o1 = Out.original_tweets o2
  /\ Out.retweets o1 = Out.retweets o2
  /\ Out.with_media o1 = Out.with_media o2
  /\ Out.unique_hashtags o1 = Out.unique_hashtags o2
  /\ Out.unique_mentions o1 = Out.unique_mentions o2
  /\ Out.date_range o1 = Out.date_range o2
  /\ Out.top_hashtags o1 = Out.top_hashtags o2
  /\ Out.top_mentions o1 = Out.top_mentions o2
  /\ Out.languages o1 = Out.languages o2
  /\ Out.monthly_volume o1 = Out.monthly_volume o2
  /\ Out.yearly_volume o1 = Out.yearly_volume o2
  /\ Out.hashtags_by_year o1 = Out.hashtags_by_year o2
  /\ Out.mentions_by_year o1 = Out.mentions_by_year o2
  /\ Out.top_tweets_by_favorites o1 = Out.top_tweets_by_favorites o2
  /\ Out.top_tweets_by_retweets o1 = Out.top_tweets_by_retweets o2.

Definition sum_year (f : Year.t -> Z) (d : list (string * Year.t)) : Z :=
  sum_by (fun kv => f (snd kv)) d.

Definition sum_month (f : Month.t -> Z) (d : list (string * Month.t)) : Z :=
  sum_by (fun kv => f (snd kv)) d.

(** ** Records to compute with *)

(** A record with the two mandatory fields and the given optional ones. *)
Definition mk_tweet (created text : string) (fields : list (string * json))
  : json :=
  JObj [("tweet",
         JObj (("created_at", JStr created) :: ("full_text", JStr text)
               :: fields))].

(** A record of 10 October 2018 whose only URL is [url]. *)
Definition tweet_linking (url : string) : json :=
  mk_tweet "Wed Oct 10 20:19:24 +0000 2018" "Worth a read"
    [("entities", JObj [("urls", JArr [JObj [("expanded_url", JStr url)]])])].

(** Three records: an original with two hashtags, a repost, and an
    original with a link; the counters of the first are strings. *)
Definition archive_tweets : list json :=
  [ mk_tweet "Wed Oct 10 20:19:24 +0000 2018" "Maps of the #Thames #thames #docks"
      [("favorite_count", JStr "12"); ("retweet_count", JStr "3");
       ("lang", JStr "en");
       ("entities",
        JObj [("hashtags",
               JArr [JObj [("text", JStr "Thames")];
                     JObj [("text", JStr "thames")];
                     JObj [("text", JStr "docks")]])])];
    mk_tweet "Thu Mar 07 09:05:00 +0100 2019" "RT @archives: a new finding aid"
      [("favorite_count", JInt 0); ("retweet_count", JInt 7);
       ("entities",
        JObj [("user_mentions",
               JArr [JObj [("screen_name", JStr "archives")]])])];
    mk_tweet "Fri Mar 08 18:30:00 +0000 2019" "Our catalogue is online"
      [("favorite_count", JStr "5");
       ("extended_entities", JObj []);
       ("entities",
        JObj [("urls",
               JArr [JObj [("expanded_url",
                            JStr "https://www.example.com/catalogue")];
                     JObj [("url", JStr "https://t.co/abc")]])])] ].

(** A record whose counters are strings of digits. *)
Definition tweet_string_counts : json :=
  mk_tweet "Wed Oct 10 20:19:24 +0000 2018" "Maps of the Thames"
    [("favorite_count", JStr "12"); ("retweet_count", JStr "3")].

(** A string of 4301 digits, one more than [int] converts. *)
Definition long_count : string := str_repeat 4301 "9".

(** A record whose [favorite_count] is [long_count]. *)
Definition tweet_long_count : json :=
  mk_tweet "Wed Oct 10 20:19:24 +0000 2018" "Maps of the Thames"
    [("favorite_count", JStr long_count)].

(** The text of a records file holding two numbers. *)
Definition archive_text : string := "window.YTD.tweets.part0 = [1, 2]".

(** An archive whose records file holds an empty array. *)
Definition empty_archive : filesystem :=
  fun path =>
    if String.eqb path "data/tweets.js"
    then Some "window.YTD.tweets.part0 = [ ]" else None.

(** [s] between double quotes. *)
Definition quoted (s : string) : string :=
  String Sample.quote (s ++ String Sample.quote "").

(** The text of a records file with one record. *)
Definition one_tweet_text : string :=
  "window.YTD.tweets.part0 = [ {" ++ quoted "tweet" ++ " : {"
  ++ quoted "created_at" ++ " : " ++ quoted "Wed Oct 10 20:19:24 +0000 2018"
  ++ ", " ++ quoted "full_text" ++ " : " ++ quoted "Hello #World"
  ++ "} } ]".

(** An extracted archive: the records file is in its [data] directory. *)
Definition archive_tree : dirtree :=
  Dir [("README.txt", "Your archive")]
    [("assets", Dir [] []);
     ("data",
      Dir [("account.js", "window.YTD.account.part0 = [ ]");
           ("tweets.js", one_tweet_text)] [])].

Definition archive_unzip (zip_path extract_dir : string) : option dirtree :=
  if String.eqb zip_path "twitter.zip" then Some archive_tree else None.

(** A file system with the records file of one record under [export]. *)
Definition one_tweet_fs : filesystem :=
  fun path =>
    if String.eqb path "export/tweets.js" then Some one_tweet_text else None.

(** * Properties *)

(** ** The error monad *)

Lemma bind_ok {A B} (r : result A) (k : A -> result B) (b : B) :
  bind r k = Ok b -> exists a, r = Ok a /\ k a = Ok b.
Proof.
  destruct r as [a | e]; simpl; intros H.
  - exists a. split; [reflexivity | exact H].
  - discriminate H.
Qed.

(** Splits a hypothesis [x <- e ;; k = Ok b] into its two runs. *)
Tactic Notation "inv_bind" hyp(H) "as" simple_intropattern(x) ident(E) :=
  apply bind_ok in H; destruct H as (x & E & H).

Lemma foldM_app {A S} (f : A -> S -> result S) (l1 l2 : list A) (s : S) :
  foldM f (l1 ++ l2) s = s' <- foldM f l1 s ;; foldM f l2 s'.
Proof.
  revert s. induction l1 as [| x l1 IH]; intros s; simpl.
  - reflexivity.
  - destruct (f x s) as [s1 | e]; simpl; [apply IH | reflexivity].
Qed.

(** ** The loop body in normal form *)

Section StepFacts.
Context {rt : PyRuntime}.

Lemma fold_count_hashtag (y : string) (hs : list string) (a : Acc.t) :
  fold_left (fun a h => count_hashtag y h a) hs a =
  Acc.mk
    (fold_left (fun c h => counter_incr String.eqb h c) hs
       (Acc.all_hashtags a))
    (Acc.all_mentions a) (Acc.all_domains a) (Acc.lang_counts a)
    (Acc.monthly_volume a) (Acc.yearly_volume a)
    (fold_left (fun d h => by_year_incr String.eqb y h d) hs
       (Acc.hashtags_by_year a))
    (Acc.mentions_by_year a) (Acc.domains_by_year a) (Acc.records a).
Proof.
  revert a. induction hs as [| h hs IH]; intros a; simpl.
  - destruct a; reflexivity.
  - rewrite IH. reflexivity.
Qed.

Lemma foldM_count_mention (y : string) (ms : list json) (a a' : Acc.t) :
  foldM (count_mention y) ms a = Ok a' ->
  a' =
  Acc.mk (Acc.all_hashtags a)
    (fold_left (fun c m => counter_incr py_key_eqb m c) ms
       (Acc.all_mentions a))
    (Acc.all_domains a) (Acc.lang_counts a)
    (Acc.monthly_volume a) (Acc.yearly_volume a)
    (Acc.hashtags_by_year a)
    (fold_left (fun d m => by_year_incr py_key_eqb y m d) ms
       (Acc.mentions_by_year a))
    (Acc.domains_by_year a) (Acc.records a).
Proof.
  revert a. induction ms as [| m ms IH]; intros a; simpl; intros H.
  - injection H as <-. destruct a; reflexivity.
  - inv_bind H as x E. unfold count_mention in E.
    destruct (py_hashable m); [| discriminate E].
    injection E as <-. apply IH in H. subst a'. reflexivity.
Qed.

(** The URLs of a record leave behind the domains that were kept, each
    counted once, and [url_count] grows by their number. *)
Lemma foldM_count_url (y : string) (us : list json) (a a' : Acc.t)
  (n n' : Z) :
  foldM (count_url y) us (a, n) = Ok (a', n') ->
  exists ds : list string,
    n' = n + Z.of_nat (length ds)
    /\ Forall (fun d => domain_kept d = true) ds
    /\ a' =
       Acc.mk (Acc.all_hashtags a) (Acc.all_mentions a)
         (fold_left (fun c d => counter_incr String.eqb d c) ds
            (Acc.all_domains a))
         (Acc.lang_counts a) (Acc.monthly_volume a) (Acc.yearly_volume a)
         (Acc.hashtags_by_year a) (Acc.mentions_by_year a)
         (fold_left (fun t d => by_year_incr String.eqb y d t) ds
            (Acc.domains_by_year a))
         (Acc.records a).
Proof.
  revert a n. induction us as [| u us IH]; intros a n; simpl; intros H.
  - injection H as <- <-. exists []. simpl.
    repeat split; [lia | constructor | destruct a; reflexivity].
  - inv_bind H as [a1 n1] E.
    unfold count_url in E. inv_bind E as fb Efb. inv_bind E as x0 Ex0.
    simpl in E.
    assert (Hskip : forall P : Prop,
               ((a1, n1) = (a, n) -> P) ->
               (forall d, domain_kept d = true ->
                          url_domain x0 = Some d ->
                          (a1, n1) = (count_domain y d a, n + 1) -> P) -> P).
    { intros P Hs Hk. destruct (py_truthy x0).
      - destruct (url_domain x0) as [d |] eqn:Ed.
        + destruct (domain_kept d) eqn:Ek.
          * injection E as <- <-. eapply Hk; eauto.
          * injection E as <- <-. apply Hs. reflexivity.
        + injection E as <- <-. apply Hs. reflexivity.
      - injection E as <- <-. apply Hs. reflexivity. }
    apply Hskip; clear Hskip.
    + intros Heq. injection Heq as -> ->. apply IH. exact H.
    + intros d Hk _ Heq. injection Heq as -> ->.
      apply IH in H. destruct H as (ds & Hn & Hall & Ha).
      exists (d :: ds). simpl length. repeat split.
      * lia.
      * constructor; assumption.
      * subst a'. reflexivity.
Qed.

(** What one turn of the loop does to the accumulators. *)
Lemma tweet_step_inv (t : json) (a a' : Acc.t) :
  tweet_step t a = Ok a' ->
  exists (y ym : string) (is_rt hm : bool) (fav rtc : Z)
         (hs : list string) (ms : list json) (ds : list string)
         (lang : json) (r : Rec.t),
    record_year t = Ok y
    /\ (tw <- py_getitem t "tweet" ;; hashtags_of tw) = Ok hs
    /\ Rec.is_retweet r = is_rt
    /\ a' =
       Acc.mk
         (fold_left (fun c h => counter_incr String.eqb h c) hs
            (Acc.all_hashtags a))
         (fold_left (fun c m => counter_incr py_key_eqb m c) ms
            (Acc.all_mentions a))
         (fold_left (fun c d => counter_incr String.eqb d c) ds
            (Acc.all_domains a))
         (counter_incr py_key_eqb lang (Acc.lang_counts a))
         (dict_modify String.eqb ym (month_bump is_rt)
            (dict_setdefault String.eqb ym (Month.mk 0 0 0)
               (Acc.monthly_volume a)))
         (dict_modify String.eqb y (year_bump is_rt hm fav rtc)
            (dict_setdefault String.eqb y (Year.mk 0 0 0 0 0 0)
               (Acc.yearly_volume a)))
         (fold_left (fun d h => by_year_incr String.eqb y h d) hs
            (Acc.hashtags_by_year a))
         (fold_left (fun d m => by_year_incr py_key_eqb y m d) ms
            (Acc.mentions_by_year a))
         (fold_left (fun t d => by_year_incr String.eqb y d t) ds
            (Acc.domains_by_year a))
         (Acc.records a ++ [r]).
Proof.
  unfold tweet_step. intros H.
  inv_bind H as tw Etw. inv_bind H as dt Edt.
  inv_bind H as text Etext. inv_bind H as hm Ehm.
  inv_bind H as hs Ehs. inv_bind H as ms Ems.
  inv_bind H as a1 Ea1. inv_bind H as urls Eurls.
  inv_bind H as us Eus. inv_bind H as [a2 url_count] Ea2.
  inv_bind H as lang Elang. inv_bind H as a3 Ea3.
  inv_bind H as yfav Eyfav. inv_bind H as yrtc Eyrtc.
  inv_bind H as fav Efav. inv_bind H as rtc Ertc.
  injection H as <-.
  apply foldM_count_mention in Ea1.
  apply foldM_count_url in Ea2. destruct Ea2 as (ds & _ & _ & Ea2).
  unfold count_lang in Ea3.
  destruct (py_hashable lang); [| discriminate Ea3].
  injection Ea3 as <-.
  rewrite fold_count_hashtag in Ea1.
  exists (str_of_int (dt_year dt)), (strftime dt "%Y-%m"),
    (str_startswith "RT @" text), hm, yfav, yrtc, hs, ms, ds, lang.
  exists (Rec.mk (strftime dt "%Y-%m-%d") (str_take 200 text) fav rtc
            (str_startswith "RT @" text) hm url_count).
  split; [| split; [| split]].
  - unfold record_year. rewrite Etw. simpl. rewrite Edt. reflexivity.
  - rewrite Etw. simpl. exact Ehs.
  - reflexivity.
  - subst a2 a1. reflexivity.
Qed.
End StepFacts.

(** ** The loop and the report *)

Section LoopFacts.
Context {rt : PyRuntime}.

(** Induction over the records processed so far. *)
Lemma aggregate_ind (P : list json -> Acc.t -> Prop) :
  P [] Acc.empty ->
  (forall ts t a a',
      aggregate ts = Ok a -> P ts a -> tweet_step t a = Ok a' ->
      P (ts ++ [t])%list a') ->
  forall tweets a, aggregate tweets = Ok a -> P tweets a.
Proof.
  intros Hnil Hstep tweets.
  induction tweets as [| t ts IH] using rev_ind; intros a H.
  - injection H as <-. exact Hnil.
  - unfold aggregate in H. rewrite foldM_app in H.
    inv_bind H as a0 E0. simpl in H.
    inv_bind H as a1 E1. injection H as <-.
    eapply Hstep; eauto.
Qed.

(** A report is built from the accumulators of a completed loop. *)
Lemma process_records_inv (tweets : list json) (out : Out.t) :
  process_records tweets = Ok out ->
  exists (a : Acc.t) (range : string * string),
    aggregate tweets = Ok a
    /\ out =
       let records := Acc.records a in
       let total := Z.of_nat (length records) in
       let originals :=
         count_if (fun r => negb (Rec.is_retweet r)) records in
       Out.mk total originals (total - originals)
         (count_if Rec.has_media records)
         (count_if (fun r => 0 <? Rec.url_count r) records)
         (Z.of_nat (length (Acc.all_hashtags a)))
         (Z.of_nat (length (Acc.all_mentions a)))
         range
         (most_common 50 (Acc.all_hashtags a))
         (most_common 50 (Acc.all_mentions a))
         (most_common 50 (Acc.all_domains a))
         (most_common 20 (Acc.lang_counts a))
         (Acc.monthly_volume a)
         (Acc.yearly_volume a)
         (by_year_top (Acc.hashtags_by_year a))
         (by_year_top (Acc.mentions_by_year a))
         (by_year_top (Acc.domains_by_year a))
         (map top_entry (firstn 20 (sorted_desc Rec.favorites records)))
         (map top_entry (firstn 20 (sorted_desc Rec.retweets records))).
Proof.
  unfold process_records, build_output. intros H.
  inv_bind H as a Ea. inv_bind H as dates Ed. inv_bind H as range Er.
  injection H as <-. exists a, range. split; [exact Ea | reflexivity].
Qed.

(** One projection is kept for each record. *)
Lemma aggregate_records_length (tweets : list json) (a : Acc.t) :
  aggregate tweets = Ok a -> length (Acc.records a) = length tweets.
Proof.
  revert tweets a. apply aggregate_ind.
  - reflexivity.
  - intros ts t a a' _ IH Hs.
    apply tweet_step_inv in Hs.
    destruct Hs as (y & ym & is_rt & hm & fav & rtc & hs & ms & ds & lang
                    & r & _ & _ & _ & ->).
    simpl. rewrite !length_app, IH. reflexivity.
Qed.
End LoopFacts.

(** ** Zero records *)

(** C3.  On an empty list of records the loop does nothing and the report
    builder then reads [dates[0]] of an empty list: the run ends in an
    [IndexError] and produces no report, whatever the runtime; so does the
    whole of [process_tweets] on a records file that holds an empty array. *)
Theorem process_records_empty_raises :
  (forall rt : PyRuntime,
      @aggregate rt [] = Ok Acc.empty
      /\ @process_records rt [] = Err IndexError
      /\ forall out : Out.t, @process_records rt [] <> Ok out)
  /\ @load_twitter_js Sample.runtime empty_archive "data/tweets.js"
     = Ok (JArr [])
  /\ @process_tweets Sample.runtime empty_archive "data" = Err IndexError.
Proof.
  split; [| split; reflexivity].
  intros rt. split; [reflexivity | split].
  - reflexivity.
  - intros out H. discriminate H.
Qed.

(** ** Totals *)

(** C6.  When the aggregation succeeds, originals and retweets add up to
    the total, and the total is the number of input records. *)
Theorem totals_add_up :
  forall (rt : PyRuntime) (tweets : list json) (out : Out.t),
    process_records tweets = Ok out ->
    Out.original_tweets out + Out.retweets out = Out.total_tweets out
    /\ Out.total_tweets out = Z.of_nat (length tweets).
Proof.
  intros rt tweets out H.
  apply process_records_inv in H. destruct H as (a & range & Ha & ->).
  cbv zeta. simpl. split.
  - lia.
  - rewrite (aggregate_records_length _ Ha). reflexivity.
Qed.

(** ** Dictionaries keyed by strings *)

Section DictFacts.
Context {V : Type}.
Implicit Types (d : list (string * V)) (k : string) (v : V).

Lemma assoc_In d k v : assoc String.eqb k d = Some v -> In (k, v) d.
Proof.
  induction d as [| [k' v'] d IH]; simpl; intros H.
  - discriminate H.
  - destruct (String.eqb_spec k' k) as [-> | Hne].
    + injection H as ->. left. reflexivity.
    + right. apply IH. exact H.
Qed.

Lemma assoc_None d k :
  assoc String.eqb k d = None <-> ~ In k (dict_keys d).
Proof.
  induction d as [| [k' v'] d IH]; simpl.
  - split; [intros _ [] | reflexivity].
  - destruct (String.eqb_spec k' k) as [-> | Hne].
    + split; [discriminate | intros H; exfalso; apply H; left; reflexivity].
    + rewrite IH. split.
      * intros H [He | Hin]; [exact (Hne He) | exact (H Hin)].
      * intros H Hin. apply H. right. exact Hin.
Qed.

Lemma dict_set_absent d k v :
  assoc String.eqb k d = None -> dict_set String.eqb k v d = (d ++ [(k, v)])%list.
Proof.
  induction d as [| [k' v'] d IH]; simpl; intros H.
  - reflexivity.
  - destruct (String.eqb k' k); [discriminate H |].
    rewrite IH by exact H. reflexivity.
Qed.

Lemma dict_keys_modify d k (f : V -> V) :
  dict_keys (dict_modify String.eqb k f d) = dict_keys d.
Proof.
  induction d as [| [k' v'] d IH]; simpl.
  - reflexivity.
  - destruct (String.eqb k' k); simpl; [reflexivity | f_equal; exact IH].
Qed.

(** [setdefault] keeps the keys, or adds the new key last. *)
Lemma dict_keys_setdefault d k v :
  dict_keys (dict_setdefault String.eqb k v d) =
  match assoc String.eqb k d with
  | Some _ => dict_keys d
  | None => (dict_keys d ++ [k])%list
  end.
Proof.
  unfold dict_setdefault.
  destruct (assoc String.eqb k d) eqn:E; [reflexivity |].
  rewrite dict_set_absent by exact E.
  unfold dict_keys. rewrite map_app. reflexivity.
Qed.

Lemma setdefault_has_key d k v :
  In k (dict_keys (dict_setdefault String.eqb k v d)).
Proof.
  rewrite dict_keys_setdefault.
  destruct (assoc String.eqb k d) eqn:E.
  - apply assoc_In in E. apply (in_map fst) in E. exact E.
  - apply in_or_app. right. left. reflexivity.
Qed.

Lemma setdefault_keeps_keys d k v k' :
  In k' (dict_keys d) -> In k' (dict_keys (dict_setdefault String.eqb k v d)).
Proof.
  rewrite dict_keys_setdefault.
  destruct (assoc String.eqb k d); [trivial |].
  intros H. apply in_or_app. left. exact H.
Qed.

Lemma setdefault_new_key d k v k' :
  In k' (dict_keys (dict_setdefault String.eqb k v d)) ->
  k' = k \/ In k' (dict_keys d).
Proof.
  rewrite dict_keys_setdefault.
  destruct (assoc String.eqb k d); [auto |].
  intros H. apply in_app_or in H. destruct H as [H | [H | []]]; auto.
Qed.

Lemma setdefault_NoDup d k v :
  NoDup (dict_keys d) -> NoDup (dict_keys (dict_setdefault String.eqb k v d)).
Proof.
  intros Hnd. rewrite dict_keys_setdefault.
  destruct (assoc String.eqb k d) eqn:E; [exact Hnd |].
  apply assoc_None in E.
  apply NoDup_rev in Hnd. rewrite <- (rev_involutive (_ ++ _)).
  apply NoDup_rev. rewrite rev_app_distr. simpl.
  constructor; [| exact Hnd].
  intros Hin. apply E. apply in_rev. exact Hin.
Qed.

Section Values.
Variable P : V -> Prop.

Lemma setdefault_Forall d k v :
  P v -> Forall (fun kv => P (snd kv)) d ->
  Forall (fun kv => P (snd kv)) (dict_setdefault String.eqb k v d).
Proof.
  intros Hv Hd. unfold dict_setdefault.
  destruct (assoc String.eqb k d) eqn:E; [exact Hd |].
  rewrite dict_set_absent by exact E.
  apply Forall_app. split; [exact Hd | constructor; [exact Hv | constructor]].
Qed.

Lemma modify_Forall d k (f : V -> V) :
  (forall v, P v -> P (f v)) -> Forall (fun kv => P (snd kv)) d ->
  Forall (fun kv => P (snd kv)) (dict_modify String.eqb k f d).
Proof.
  intros Hf. induction 1 as [| [k' v'] d Hv Hd IH]; simpl.
  - constructor.
  - simpl in Hv. destruct (String.eqb k' k); constructor; simpl; auto.
Qed.

Lemma Forall_assoc d k v :
  Forall (fun kv => P (snd kv)) d -> assoc String.eqb k d = Some v -> P v.
Proof.
  intros Hd E. apply assoc_In in E.
  rewrite Forall_forall in Hd. exact (Hd _ E).
Qed.
End Values.
End DictFacts.

(** ** Volume tables *)


Lemma year_bump_balanced (is_rt hm : bool) (fav rtc : Z) (v : Year.t) :
  year_balanced v -> year_balanced (year_bump is_rt hm fav rtc v).
Proof.
  unfold year_balanced, year_bump. destruct is_rt; simpl; lia.
Qed.

Lemma month_bump_balanced (is_rt : bool) (v : Month.t) :
  month_balanced v -> month_balanced (month_bump is_rt v).
Proof.
  unfold month_balanced, month_bump. destruct is_rt; simpl; lia.
Qed.

Lemma sum_year_totals_app (d1 d2 : list (string * Year.t)) :
  sum_year_totals (d1 ++ d2) = sum_year_totals d1 + sum_year_totals d2.
Proof.
  induction d1 as [| kv d1 IH]; simpl; [reflexivity | rewrite IH; lia].
Qed.

Lemma sum_year_totals_setdefault (y : string) (d : list (string * Year.t)) :
  sum_year_totals (dict_setdefault String.eqb y (Year.mk 0 0 0 0 0 0) d)
  = sum_year_totals d.
Proof.
  unfold dict_setdefault. destruct (assoc String.eqb y d) eqn:E.
  - reflexivity.
  - rewrite dict_set_absent by exact E.
    rewrite sum_year_totals_app. simpl. lia.
Qed.

(** Counting one more record in the bucket of a year that is present. *)
Lemma sum_year_totals_modify (y : string) (f : Year.t -> Year.t)
  (d : list (string * Year.t)) :
  (forall v, Year.total (f v) = Year.total v + 1) ->
  In y (dict_keys d) ->
  sum_year_totals (dict_modify String.eqb y f d) = sum_year_totals d + 1.
Proof.
  intros Hf. induction d as [| [k v] d IH]; simpl; intros Hin.
  - destruct Hin.
  - destruct (String.eqb_spec k y) as [-> | Hne]; simpl.
    + rewrite Hf. lia.
    + destruct Hin as [He | Hin]; [contradiction |].
      rewrite IH by exact Hin. lia.
Qed.

Section VolumeFacts.
Context {rt : PyRuntime}.


Lemma aggregate_volume_inv (tweets : list json) (a : Acc.t) :
  aggregate tweets = Ok a -> volume_inv a.
Proof.
  revert tweets a. apply aggregate_ind.
  - repeat split; simpl; constructor.
  - intros ts t a a' _ (Hy & Hm & Hny & Hnm & Hsum) Hs.
    apply tweet_step_inv in Hs.
    destruct Hs as (y & ym & is_rt & hm & fav & rtc & hs & ms & ds & lang
                    & r & _ & _ & _ & ->).
    unfold volume_inv. simpl. repeat split.
    + apply modify_Forall; [apply year_bump_balanced |].
      apply setdefault_Forall; [reflexivity | exact Hy].
    + apply modify_Forall; [apply month_bump_balanced |].
      apply setdefault_Forall; [reflexivity | exact Hm].
    + rewrite dict_keys_modify. apply setdefault_NoDup. exact Hny.
    + rewrite dict_keys_modify. apply setdefault_NoDup. exact Hnm.
    + rewrite sum_year_totals_modify.
      * rewrite sum_year_totals_setdefault, Hsum, length_app. simpl. lia.
      * intros v. reflexivity.
      * apply setdefault_has_key.
Qed.
End VolumeFacts.

(** C4.  In the report of a successful run, every year of [yearly_volume]
    and every month of [monthly_volume] has [original + retweet = total];
    each year and each month has one bucket, and the yearly totals sum to
    [total_tweets]. *)
Theorem volume_buckets_add_up :
  forall (rt : PyRuntime) (tweets : list json) (out : Out.t),
    process_records tweets = Ok out ->
    (forall y v, assoc String.eqb y (Out.yearly_volume out) = Some v ->
                 Year.original v + Year.retweet v = Year.total v)
    /\ (forall m v, assoc String.eqb m (Out.monthly_volume out) = Some v ->
                    Month.original v + Month.retweet v = Month.total v)
    /\ NoDup (dict_keys (Out.yearly_volume out))
    /\ NoDup (dict_keys (Out.monthly_volume out))
    /\ sum_year_totals (Out.yearly_volume out) = Out.total_tweets out.
Proof.
  intros rt tweets out H.
  apply process_records_inv in H. destruct H as (a & range & Ha & ->).
  destruct (aggregate_volume_inv _ Ha) as (Hy & Hm & Hny & Hnm & Hsum).
  cbv zeta. simpl. repeat split.
  - intros y v E. exact (Forall_assoc year_balanced y Hy E).
  - intros m v E. exact (Forall_assoc month_balanced m Hm E).
  - exact Hny.
  - exact Hnm.
  - exact Hsum.
Qed.

(** ** Years of the per-year breakdowns *)

Lemma by_year_incr_keys {K} (eqb : K -> K -> bool) (y : string) (x : K)
  (d : list (string * Counter K)) (k : string) :
  In k (dict_keys (by_year_incr eqb y x d)) -> k = y \/ In k (dict_keys d).
Proof.
  unfold by_year_incr. rewrite dict_keys_modify. apply setdefault_new_key.
Qed.

(** Counting the items of one record adds no year but the record's own. *)
Lemma by_year_fold_keys {K} (eqb : K -> K -> bool) (y : string) (xs : list K)
  (d : list (string * Counter K)) (k : string) :
  In k (dict_keys (fold_left (fun d x => by_year_incr eqb y x d) xs d)) ->
  k = y \/ In k (dict_keys d).
Proof.
  revert d. induction xs as [| x xs IH]; simpl; intros d H.
  - right. exact H.
  - apply IH in H. destruct H as [H | H]; [left; exact H |].
    apply by_year_incr_keys in H. exact H.
Qed.

Lemma by_year_top_keys {K} (d : list (string * Counter K)) :
  dict_keys (by_year_top d) = dict_keys d.
Proof.
  unfold by_year_top, dict_keys. rewrite map_map. reflexivity.
Qed.

Section YearFacts.
Context {rt : PyRuntime}.



Lemma aggregate_years_inv (tweets : list json) (a : Acc.t) :
  aggregate tweets = Ok a -> years_inv tweets a.
Proof.
  revert tweets a. apply aggregate_ind.
  - split.
    + intros y [[] | [[] | []]].
    + intros t [].
  - intros ts t a a' _ (Hb & Hy) Hs.
    apply tweet_step_inv in Hs.
    destruct Hs as (y & ym & is_rt & hm & fav & rtc & hs & ms & ds & lang
                    & r & Hyear & _ & _ & ->).
    split.
    + intros k Hk.
      assert (Hcase : k = y \/ in_breakdown k a).
      { unfold in_breakdown in Hk |- *. simpl in Hk.
        destruct Hk as [Hk | [Hk | Hk]];
          apply by_year_fold_keys in Hk; tauto. }
      destruct Hcase as [-> | Hold].
      * exists t. split; [apply in_or_app; right; left; reflexivity | exact Hyear].
      * destruct (Hb k Hold) as (t0 & Hin & Ht0).
        exists t0. split; [apply in_or_app; left; exact Hin | exact Ht0].
    + intros t0 Hin. simpl. rewrite dict_keys_modify.
      apply in_app_or in Hin. destruct Hin as [Hin | [<- | []]].
      * destruct (Hy t0 Hin) as (y0 & Hy0 & Hk).
        exists y0. split; [exact Hy0 | apply setdefault_keeps_keys; exact Hk].
      * exists y. split; [exact Hyear | apply setdefault_has_key].
Qed.
End YearFacts.

(** C10.  In the report of a successful run, a year that is a key of
    [hashtags_by_year], [mentions_by_year] or [domains_by_year] is the year
    of some input record and is a key of [yearly_volume]; and the year of
    every input record is a key of [yearly_volume]. *)
Theorem breakdown_years_in_yearly_volume :
  forall (rt : PyRuntime) (tweets : list json) (out : Out.t),
    process_records tweets = Ok out ->
    (forall y,
        In y (dict_keys (Out.hashtags_by_year out))
        \/ In y (dict_keys (Out.mentions_by_year out))
        \/ In y (dict_keys (Out.domains_by_year out)) ->
        In y (dict_keys (Out.yearly_volume out))
        /\ exists t, In t tweets /\ record_year t = Ok y)
    /\ (forall t, In t tweets ->
                  exists y, record_year t = Ok y
                            /\ In y (dict_keys (Out.yearly_volume out))).
Proof.
  intros rt tweets out H.
  apply process_records_inv in H. destruct H as (a & range & Ha & ->).
  destruct (aggregate_years_inv _ Ha) as (Hb & Hy).
  cbv zeta. simpl. rewrite !by_year_top_keys. split.
  - intros y Hk. destruct (Hb y Hk) as (t & Hin & Ht).
    split; [| exists t; split; assumption].
    destruct (Hy t Hin) as (y' & Ht' & Hk').
    rewrite Ht in Ht'. injection Ht' as <-. exact Hk'.
  - exact Hy.
Qed.

(** ** Rankings *)

Section RankingFacts.
Context {A : Type}.
Variable key : A -> Z.


Lemma insert_desc_In (x y : A) (l : list A) :
  In y (insert_desc key x l) -> y = x \/ In y l.
Proof.
  induction l as [| z l IH]; simpl.
  - intros [<- | []]. left. reflexivity.
  - destruct (key x <? key z).
    + intros [<- | H]; [right; left; reflexivity |].
      apply IH in H. destruct H as [H | H]; [left | right; right]; exact H.
    + intros [<- | H]; [left; reflexivity | right; exact H].
Qed.

Lemma insert_desc_sorted (x : A) (l : list A) :
  StronglySorted (key_ge key) l -> StronglySorted (key_ge key) (insert_desc key x l).
Proof.
  induction 1 as [| z l Hs IH Hz]; simpl.
  - constructor; constructor.
  - destruct (Z.ltb_spec (key x) (key z)) as [Hlt | Hge].
    + constructor; [exact IH |].
      rewrite Forall_forall in Hz |- *. intros y Hy.
      apply insert_desc_In in Hy. destruct Hy as [-> | Hy].
      * unfold key_ge. lia.
      * apply Hz. exact Hy.
    + constructor; [constructor; assumption |].
      constructor; [exact Hge |].
      rewrite Forall_forall in Hz |- *. intros y Hy.
      specialize (Hz y Hy). unfold key_ge in *. lia.
Qed.

Lemma sorted_desc_sorted (l : list A) :
  StronglySorted (key_ge key) (sorted_desc key l).
Proof.
  induction l as [| x l IH]; simpl.
  - constructor.
  - apply insert_desc_sorted. exact IH.
Qed.

Lemma In_firstn (n : nat) (l : list A) (y : A) :
  In y (firstn n l) -> In y l.
Proof.
  intros H. rewrite <- (firstn_skipn n l). apply in_or_app. left. exact H.
Qed.

Lemma firstn_sorted (R : A -> A -> Prop) (n : nat) (l : list A) :
  StronglySorted R l -> StronglySorted R (firstn n l).
Proof.
  intros H. revert n. induction H as [| x l Hs IH Hx]; intros [| n]; simpl;
    try constructor.
  - apply IH.
  - rewrite Forall_forall in Hx |- *. intros y Hy.
    apply Hx. revert Hy. apply In_firstn.
Qed.
End RankingFacts.

Section SelectFacts.
Context {K : Type}.
Implicit Types (c : list (K * Z)).

(** [select_max] picks an entry of highest count with only smaller
    counts before it, and leaves the others in their order. *)
Lemma select_max_first_highest c m rest :
  select_max c = Some (m, rest) ->
  exists before after,
    c = (before ++ m :: after)%list
    /\ rest = (before ++ after)%list
    /\ Forall (fun x => snd x < snd m) before
    /\ Forall (fun x => snd x <= snd m) after.
Proof.
  revert m rest. induction c as [| x c IH]; simpl; intros m rest H.
  - discriminate H.
  - destruct (select_max c) as [[m' rest'] |] eqn:E.
    + destruct (IH _ _ eq_refl) as (b & a & Hc & Hr & Hb & Ha).
      destruct (Z.ltb_spec (snd x) (snd m')) as [Hlt | Hge];
        injection H as <- <-.
      * exists (x :: b), a. subst c rest'. repeat split; try assumption.
        constructor; assumption.
      * exists [], c. repeat split; [constructor |].
        subst c. apply Forall_app. split.
        -- eapply Forall_impl; [| exact Hb]. simpl. intros; lia.
        -- constructor; [lia |].
           eapply Forall_impl; [| exact Ha]. simpl. intros; lia.
    + injection H as <- <-. destruct c as [| y c].
      * exists [], []. repeat split; constructor.
      * simpl in E. destruct (select_max c) as [[? ?] |];
          [destruct (snd y <? snd p) |]; discriminate E.
Qed.

(** The stable sort starts with the entry [select_max] picks. *)
Lemma sorted_desc_select c m rest :
  select_max c = Some (m, rest) ->
  sorted_desc snd c = m :: sorted_desc snd rest.
Proof.
  revert m rest. induction c as [| x c IH]; simpl; intros m rest H.
  - discriminate H.
  - destruct (select_max c) as [[m' rest'] |] eqn:E.
    + rewrite (IH _ _ eq_refl).
      destruct (snd x <? snd m') eqn:Hlt; injection H as <- <-; simpl.
      * rewrite Hlt. reflexivity.
      * rewrite Hlt. rewrite <- (IH _ _ eq_refl). reflexivity.
    + injection H as <- <-. destruct c as [| y c]; [reflexivity |].
      simpl in E. destruct (select_max c) as [[? ?] |];
        [destruct (snd y <? snd p) |]; discriminate E.
Qed.

Lemma select_max_None c : select_max c = None -> c = [].
Proof.
  destruct c as [| x c]; [reflexivity |]. simpl.
  destruct (select_max c) as [[m rest] |];
    [destruct (snd x <? snd m) |]; discriminate.
Qed.

(** [most_common] returns the [n] highest-count entries, ties in
    first-seen order. *)
Lemma most_common_top_n (n : nat) c : most_common n c = top_n_spec n c.
Proof.
  unfold most_common. revert c. induction n as [| n IH]; intros c; simpl.
  - reflexivity.
  - destruct (select_max c) as [[m rest] |] eqn:E.
    + rewrite (sorted_desc_select _ E). simpl. f_equal. apply IH.
    + apply select_max_None in E. subst c. reflexivity.
Qed.
End SelectFacts.

(** ** Counters of strings *)

Lemma first_seen_snoc (l : list string) (x : string) :
  first_seen (l ++ [x]) =
  if in_dec string_dec x l then first_seen l else (first_seen l ++ [x])%list.
Proof.
  unfold first_seen. rewrite rev_app_distr. simpl.
  destruct (in_dec string_dec x (rev l)) as [Hin | Hout];
    destruct (in_dec string_dec x l) as [Hin' | Hout']; try reflexivity.
  - exfalso. apply Hout'. apply in_rev. exact Hin.
  - exfalso. apply Hout. apply in_rev in Hin'. exact Hin'.
Qed.

Lemma first_seen_In (l : list string) (x : string) :
  In x (first_seen l) <-> In x l.
Proof.
  unfold first_seen. rewrite <- in_rev, nodup_In, <- in_rev. reflexivity.
Qed.

Lemma first_seen_NoDup (l : list string) : NoDup (first_seen l).
Proof.
  unfold first_seen. apply NoDup_rev. apply NoDup_nodup.
Qed.

(** As many distinct elements whichever occurrence of each is kept. *)
Lemma first_seen_length (l : list string) :
  length (first_seen l) = length (nodup string_dec l).
Proof.
  apply Permutation_length. apply NoDup_Permutation.
  - apply first_seen_NoDup.
  - apply NoDup_nodup.
  - intros x. rewrite first_seen_In, nodup_In. reflexivity.
Qed.

Lemma occurrences_snoc (h x : string) (l : list string) :
  occurrences h (l ++ [x]) =
  occurrences h l + (if String.eqb x h then 1 else 0).
Proof.
  unfold occurrences. rewrite count_occ_app. simpl.
  destruct (string_dec x h) as [-> | Hne].
  - rewrite String.eqb_refl. lia.
  - destruct (String.eqb_spec x h); [contradiction | lia].
Qed.

Lemma assoc_map_key {V} (f : string -> V) (ks : list string) (x : string) :
  assoc String.eqb x (map (fun h => (h, f h)) ks) =
  if in_dec string_dec x ks then Some (f x) else None.
Proof.
  induction ks as [| k ks IH]; simpl.
  - reflexivity.
  - destruct (String.eqb_spec k x) as [-> | Hne].
    + destruct (string_dec x x); [reflexivity | contradiction].
    + rewrite IH. destruct (string_dec k x); [contradiction |].
      destruct (in_dec string_dec x ks); reflexivity.
Qed.

Lemma dict_set_map_key {V} (f : string -> V) (ks : list string) (x : string)
  (v : V) :
  NoDup ks -> In x ks ->
  dict_set String.eqb x v (map (fun h => (h, f h)) ks) =
  map (fun h => (h, if String.eqb x h then v else f h)) ks.
Proof.
  induction 1 as [| k ks Hk Hnd IH]; simpl; intros Hin.
  - destruct Hin.
  - destruct (String.eqb_spec k x) as [-> | Hne].
    + rewrite String.eqb_refl. f_equal.
      apply map_ext_in. intros h Hh.
      destruct (String.eqb_spec x h) as [-> | _]; [contradiction | reflexivity].
    + destruct Hin as [He | Hin]; [contradiction |].
      destruct (String.eqb_spec x k) as [-> | _]; [contradiction |].
      rewrite IH by exact Hin. reflexivity.
Qed.

(** Counting one more observation is [c[x] += 1] on the tally. *)
Lemma tally_snoc (l : list string) (x : string) :
  tally (l ++ [x]) = counter_incr String.eqb x (tally l).
Proof.
  unfold tally, counter_incr, counter_get.
  rewrite first_seen_snoc, assoc_map_key.
  destruct (in_dec string_dec x l) as [Hin | Hout].
  - destruct (in_dec string_dec x (first_seen l)) as [_ | Hno];
      [| exfalso; apply Hno; apply first_seen_In; exact Hin].
    rewrite dict_set_map_key;
      [| apply first_seen_NoDup | apply first_seen_In; exact Hin].
    apply map_ext. intros h. rewrite occurrences_snoc.
    destruct (String.eqb_spec x h) as [-> | _]; f_equal; lia.
  - destruct (in_dec string_dec x (first_seen l)) as [Hyes | _];
      [exfalso; apply Hout; apply first_seen_In; exact Hyes |].
    rewrite dict_set_absent.
    + rewrite map_app. simpl. f_equal.
      * apply map_ext_in. intros h Hh. rewrite occurrences_snoc.
        destruct (String.eqb_spec x h) as [-> | _].
        -- exfalso. apply Hout. apply first_seen_In. exact Hh.
        -- f_equal. lia.
      * rewrite occurrences_snoc, String.eqb_refl.
        unfold occurrences.
        rewrite (proj1 (count_occ_not_In string_dec l x) Hout). reflexivity.
    + rewrite assoc_map_key.
      destruct (in_dec string_dec x (first_seen l)) as [Hyes | _];
        [exfalso; apply Hout; apply first_seen_In; exact Hyes | reflexivity].
Qed.

(** A counter fed a stream of keys is the tally of the stream. *)
Lemma counter_of_stream (l : list string) :
  fold_left (fun c h => counter_incr String.eqb h c) l [] = tally l.
Proof.
  induction l as [| x l IH] using rev_ind.
  - reflexivity.
  - rewrite fold_left_app. simpl. rewrite IH, tally_snoc. reflexivity.
Qed.

Section HashtagFacts.
Context {rt : PyRuntime}.

(** The global hashtag counter after the loop. *)
Lemma aggregate_all_hashtags (tweets : list json) (a : Acc.t) :
  aggregate tweets = Ok a ->
  Acc.all_hashtags a = tally (observed_hashtags tweets).
Proof.
  rewrite <- counter_of_stream. revert tweets a. apply aggregate_ind.
  - reflexivity.
  - intros ts t a a' _ IH Hs.
    apply tweet_step_inv in Hs.
    destruct Hs as (y & ym & is_rt & hm & fav & rtc & hs & ms & ds & lang
                    & r & _ & Hhs & _ & ->).
    assert (Ht : record_hashtags t = hs)
      by (unfold record_hashtags; rewrite Hhs; reflexivity).
    unfold observed_hashtags in *. rewrite flat_map_app.
    cbn [flat_map Acc.all_hashtags]. rewrite app_nil_r, fold_left_app, Ht.
    rewrite <- IH. reflexivity.
Qed.
End HashtagFacts.

(** C5.  In the report of a successful run, [top_hashtags] has at most 50
    entries, is sorted by count with the largest first, and is the 50
    highest-count entries of the full counter of observed hashtags, entries
    of equal count in first-seen order. *)
Theorem top_hashtags_ranking :
  forall (rt : PyRuntime) (tweets : list json) (out : Out.t),
    process_records tweets = Ok out ->
    (length (Out.top_hashtags out) <= 50)%nat
    /\ StronglySorted (fun x y => snd y <= snd x) (Out.top_hashtags out)
    /\ Out.top_hashtags out = top_n_spec 50 (tally (observed_hashtags tweets)).
Proof.
  intros rt tweets out H.
  apply process_records_inv in H. destruct H as (a & range & Ha & ->).
  cbv zeta. simpl. repeat split.
  - unfold most_common. apply firstn_le_length.
  - unfold most_common. apply firstn_sorted.
    exact (sorted_desc_sorted snd _).
  - rewrite most_common_top_n, (aggregate_all_hashtags _ Ha). reflexivity.
Qed.

(** C8.  In the report of a successful run, [unique_hashtags] is the number
    of distinct strings among the lowercased hashtag texts of all records. *)
Theorem unique_hashtags_counts_distinct :
  forall (rt : PyRuntime) (tweets : list json) (out : Out.t),
    process_records tweets = Ok out ->
    Out.unique_hashtags out
    = Z.of_nat (length (nodup string_dec (observed_hashtags tweets))).
Proof.
  intros rt tweets out H.
  apply process_records_inv in H. destruct H as (a & range & Ha & ->).
  cbv zeta. simpl.
  rewrite (aggregate_all_hashtags _ Ha). unfold tally.
  rewrite length_map, first_seen_length. reflexivity.
Qed.

(** ** The record loader *)

Lemma str_find_char_None (c : ascii) (s : string) :
  str_find_char c s = None <-> ~ In c (list_ascii_of_string s).
Proof.
  induction s as [| d s IH]; simpl.
  - split; [intros _ [] | reflexivity].
  - destruct (Ascii.eqb_spec d c) as [-> | Hne].
    + split; [discriminate | intros H; exfalso; apply H; left; reflexivity].
    + destruct (str_find_char c s); simpl.
      * split; [discriminate |].
        intros H. exfalso. apply H. right.
        destruct (in_dec ascii_dec c (list_ascii_of_string s)) as [Hin | Hout];
          [exact Hin | apply IH in Hout; discriminate Hout].
      * split; [| reflexivity].
        intros _ [He | Hin]; [exact (Hne He) |].
        apply (proj1 IH eq_refl). exact Hin.
Qed.

(** The first occurrence of [c] ends the longest prefix without [c]. *)
Lemma str_find_char_first (c : ascii) (pre rest : string) :
  ~ In c (list_ascii_of_string pre) ->
  str_find_char c (pre ++ String c rest) = Some (String.length pre)
  /\ str_drop (String.length pre) (pre ++ String c rest) = String c rest.
Proof.
  induction pre as [| d pre IH]; simpl; intros H.
  - rewrite Ascii.eqb_refl. split; reflexivity.
  - destruct (Ascii.eqb_spec d c) as [-> | Hne].
    + exfalso. apply H. left. reflexivity.
    + destruct IH as [IH1 IH2]; [intros Hin; apply H; right; exact Hin |].
      rewrite IH1. split; [reflexivity | exact IH2].
Qed.

Lemma str_find_char_split (c : ascii) (s : string) (i : nat) :
  str_find_char c s = Some i ->
  exists pre rest,
    s = pre ++ String c rest /\ ~ In c (list_ascii_of_string pre).
Proof.
  revert i. induction s as [| d s IH]; simpl; intros i H.
  - discriminate H.
  - destruct (Ascii.eqb_spec d c) as [-> | Hne].
    + exists "", s. split; [reflexivity | intros []].
    + destruct (str_find_char c s) as [j |]; [| discriminate H].
      destruct (IH j eq_refl) as (pre & rest & -> & Hpre).
      exists (String d pre), rest. split; [reflexivity |].
      simpl. intros [He | Hin]; [exact (Hne He) | exact (Hpre Hin)].
Qed.

Section LoaderFacts.
Context {rt : PyRuntime}.

Lemma load_after_prefix (pre rest : string) :
  no_bracket pre ->
  load_twitter_js_text (pre ++ String "[" rest) =
  match json_loads (String "[" rest) with
  | Some v => Ok v
  | None => Err ValueError
  end.
Proof.
  intros Hpre. unfold load_twitter_js_text.
  destruct (str_find_char_first "[" pre rest Hpre) as [-> ->].
  reflexivity.
Qed.
End LoaderFacts.

(** C7.  The loader returns what [json.loads] makes of the text from the
    first opening bracket on.  It fails exactly when the text has no
    opening bracket or when that part is not valid JSON, and what stands
    before the first bracket has no influence on the result. *)
Theorem load_twitter_js_from_first_bracket :
  forall (rt : PyRuntime) (content : string),
    ((exists e, load_twitter_js_text content = Err e) <->
     no_bracket content
     \/ exists pre rest,
         content = pre ++ String "[" rest /\ no_bracket pre
         /\ json_loads (String "[" rest) = None)
    /\ (forall pre rest v,
           content = pre ++ String "[" rest -> no_bracket pre ->
           (load_twitter_js_text content = Ok v <->
            json_loads (String "[" rest) = Some v))
    /\ (forall pre pre' rest,
           content = pre ++ String "[" rest -> no_bracket pre ->
           no_bracket pre' ->
           load_twitter_js_text (pre' ++ String "[" rest)
           = load_twitter_js_text content).
Proof.
  intros rt content. split; [| split].
  - split.
    + intros [e He]. unfold load_twitter_js_text in He.
      destruct (str_find_char "[" content) as [i |] eqn:Ei.
      * right. destruct (str_find_char_split _ _ Ei) as (pre & rest & -> & Hpre).
        exists pre, rest. split; [reflexivity | split; [exact Hpre |]].
        destruct (str_find_char_first "[" pre rest Hpre) as [Hi Hd].
        rewrite Hi in Ei. injection Ei as <-. rewrite Hd in He.
        destruct (json_loads (String "[" rest)); [discriminate He | reflexivity].
      * left. apply str_find_char_None. exact Ei.
    + intros [Hno | (pre & rest & -> & Hpre & Hbad)].
      * exists ValueError. unfold load_twitter_js_text.
        apply str_find_char_None in Hno. rewrite Hno. reflexivity.
      * exists ValueError. rewrite load_after_prefix by exact Hpre.
        rewrite Hbad. reflexivity.
  - intros pre rest v -> Hpre. rewrite load_after_prefix by exact Hpre.
    destruct (json_loads (String "[" rest)) as [w |].
    + split; intros H; injection H as ->; reflexivity.
    + split; discriminate.
  - intros pre pre' rest -> Hpre Hpre'.
    rewrite !load_after_prefix by assumption. reflexivity.
Qed.

(** ** Engagement counters written as strings *)

Lemma digit_not_space (c : ascii) : is_digit c = true -> is_int_space c = false.
Proof.
  destruct c as [[] [] [] [] [] [] [] []]; simpl; intros H;
    try reflexivity; discriminate H.
Qed.

Lemma int_signed_digit (c : ascii) (s : string) :
  is_digit c = true ->
  int_signed (String c s) = int_digits 0 false (String c s).
Proof.
  destruct c as [[] [] [] [] [] [] [] []]; intros H;
    try reflexivity; discriminate H.
Qed.

Lemma int_digits_all (s : string) (acc : Z) (after : bool) :
  all_chars is_digit s = true ->
  int_digits acc after s =
  match s with
  | EmptyString => if after then Some acc else None
  | _ => Some (fold_left (fun a c => 10 * a + digit_val c)
                 (list_ascii_of_string s) acc)
  end.
Proof.
  revert acc after. induction s as [| c s IH]; intros acc after H.
  - reflexivity.
  - simpl in H. apply andb_prop in H. destruct H as [Hc Hs].
    cbn [int_digits]. rewrite Hc, (IH _ _ Hs).
    destruct s; reflexivity.
Qed.

(** [int] reads a string of digits as the integer it writes. *)
Lemma int_of_str_digits (s : string) :
  decimal_digits s = true -> int_of_str s = Some (digits_value s).
Proof.
  unfold decimal_digits, digits_value. intros H.
  apply andb_prop in H. destruct H as [Hne Hall].
  destruct s as [| c s]; [discriminate Hne |].
  pose proof Hall as Hc. simpl in Hc. apply andb_prop in Hc.
  destruct Hc as [Hc _].
  cbn [int_of_str]. rewrite (@digit_not_space c Hc), (@int_signed_digit c s Hc).
  rewrite (@int_digits_all _ 0 false Hall). reflexivity.
Qed.

Lemma count_digits_all (s : string) :
  all_chars is_digit s = true -> count_digits s = Z.of_nat (String.length s).
Proof.
  induction s as [| c s IH]; intros H; [reflexivity |].
  simpl in H. apply andb_prop in H. destruct H as [Hc Hs].
  cbn [count_digits String.length]. rewrite Hc, (IH Hs), Nat2Z.inj_succ. lia.
Qed.

(** [int] converts a written count to the integer it writes. *)
Lemma py_int_written (v : json) (n : Z) :
  count_written v = Some n -> py_int v = Ok n.
Proof.
  destruct v; try discriminate; cbn [count_written].
  - intros H. injection H as <-. reflexivity.
  - destruct (digits_within_limit s) eqn:E; [| discriminate].
    intros H. injection H as <-.
    unfold digits_within_limit in E. apply andb_prop in E.
    destruct E as [Hd Hl]. pose proof Hd as Hall.
    unfold decimal_digits in Hall. apply andb_prop in Hall.
    destruct Hall as [_ Hall].
    unfold py_int. rewrite (count_digits_all _ Hall), Hl.
    rewrite (@int_of_str_digits s Hd). reflexivity.
Qed.

Lemma int_field_written (tw : json) (k : string) (n : Z) :
  field_written tw k = Some n -> int_field tw k = Ok n.
Proof.
  unfold field_written, int_field.
  destruct (py_get tw k (JInt 0)) as [v | e]; [| discriminate].
  cbn [bind]. apply py_int_written.
Qed.

(** [int] refuses a string with more digits than the limit. *)
Lemma py_int_over_limit (s : string) :
  int_max_str_digits < count_digits s -> py_int (JStr s) = Err ValueError.
Proof.
  intros H. unfold py_int.
  destruct (count_digits s <=? int_max_str_digits) eqn:E; [| reflexivity].
  apply Z.leb_le in E. lia.
Qed.

Lemma py_int_digits_to_int (v : json) : py_int (digits_to_int v) = py_int v.
Proof.
  destruct v; try reflexivity. cbn [digits_to_int].
  destruct (digits_within_limit s) eqn:E; [| reflexivity].
  symmetry. apply py_int_written. cbn [count_written]. rewrite E. reflexivity.
Qed.

Lemma assoc_map_fields (p : string -> bool) (f : json -> json)
  (d : list (string * json)) (k : string) :
  assoc String.eqb k
    (map (fun kv => if p (fst kv) then (fst kv, f (snd kv)) else kv) d)
  = option_map (fun v => if p k then f v else v) (assoc String.eqb k d).
Proof.
  induction d as [| [k' v] d IH]; simpl.
  - reflexivity.
  - destruct (p k') eqn:Ep; simpl;
      destruct (String.eqb_spec k' k) as [-> | Hne]; simpl;
      try exact IH; rewrite Ep; reflexivity.
Qed.

Lemma existsb_map_fields (p : string -> bool) (f : json -> json)
  (d : list (string * json)) (k : string) :
  existsb (fun kv => String.eqb (fst kv) k)
    (map (fun kv => if p (fst kv) then (fst kv, f (snd kv)) else kv) d)
  = existsb (fun kv => String.eqb (fst kv) k) d.
Proof.
  induction d as [| [k' v] d IH]; simpl.
  - reflexivity.
  - rewrite IH. destruct (p k'); reflexivity.
Qed.

Section CountFieldFacts.
Context {rt : PyRuntime}.

Lemma as_ints_getitem (tw : json) (k : string) :
  is_count_field k = false -> py_getitem (as_ints tw) k = py_getitem tw k.
Proof.
  intros Hk. destruct tw; try reflexivity. simpl.
  rewrite assoc_map_fields, Hk.
  destruct (assoc String.eqb k fields); reflexivity.
Qed.

Lemma as_ints_get (tw : json) (k : string) (d : json) :
  is_count_field k = false -> py_get (as_ints tw) k d = py_get tw k d.
Proof.
  intros Hk. destruct tw; try reflexivity. simpl.
  rewrite assoc_map_fields, Hk.
  destruct (assoc String.eqb k fields); reflexivity.
Qed.

Lemma as_ints_in (tw : json) (k : string) :
  py_in k (as_ints tw) = py_in k tw.
Proof.
  destruct tw; try reflexivity. simpl.
  rewrite existsb_map_fields. reflexivity.
Qed.

(** [int(tw.get(k, 0))] does not tell a string of digits from its integer. *)
Lemma as_ints_int_field (tw : json) (k : string) :
  int_field (as_ints tw) k = int_field tw k.
Proof.
  unfold int_field. destruct tw; try reflexivity. simpl.
  rewrite assoc_map_fields.
  destruct (assoc String.eqb k fields) as [v |]; simpl; [| reflexivity].
  destruct (is_count_field k); [apply py_int_digits_to_int | reflexivity].
Qed.

Lemma as_ints_created_at (tw : json) : created_at (as_ints tw) = created_at tw.
Proof.
  unfold created_at. rewrite as_ints_getitem by reflexivity. reflexivity.
Qed.

Lemma as_ints_entities_get (tw : json) (k : string) :
  entities_get (as_ints tw) k = entities_get tw k.
Proof.
  unfold entities_get. rewrite as_ints_get by reflexivity. reflexivity.
Qed.

Lemma step_as_ints (tw : json) (a : Acc.t) :
  tweet_step (JObj [("tweet", as_ints tw)]) a
  = tweet_step (JObj [("tweet", tw)]) a.
Proof.
  unfold tweet_step. cbn [py_getitem assoc String.eqb Ascii.eqb Bool.eqb bind].
  unfold full_text, has_media_of, hashtags_of, mentions_of.
  rewrite as_ints_created_at, as_ints_in, !as_ints_entities_get,
    !as_ints_int_field.
  rewrite (as_ints_getitem tw "full_text") by reflexivity.
  rewrite (as_ints_get tw "lang") by reflexivity.
  reflexivity.
Qed.

Lemma getitem_with_int_counts (t : json) :
  py_getitem (with_int_counts t) "tweet" =
  match py_getitem t "tweet" with
  | Ok tw => Ok (as_ints tw)
  | Err e => Err e
  end.
Proof.
  destruct t; try reflexivity. simpl.
  rewrite (assoc_map_fields (String.eqb "tweet")).
  destruct (assoc String.eqb "tweet" fields); reflexivity.
Qed.

(** The loop body reads a record through its tweet only. *)
Lemma tweet_step_reads_tweet (t tw : json) (a : Acc.t) :
  py_getitem t "tweet" = Ok tw ->
  tweet_step t a = tweet_step (JObj [("tweet", tw)]) a.
Proof.
  intros H. unfold tweet_step. rewrite H. reflexivity.
Qed.

Lemma step_with_int_counts (t : json) (a : Acc.t) :
  tweet_step (with_int_counts t) a = tweet_step t a.
Proof.
  pose proof (getitem_with_int_counts t) as Hg.
  destruct (py_getitem t "tweet") as [tw | e] eqn:Et.
  - rewrite (tweet_step_reads_tweet _ a Hg), (tweet_step_reads_tweet _ a Et).
    apply step_as_ints.
  - unfold tweet_step. rewrite Hg, Et. reflexivity.
Qed.

Lemma date_with_int_counts (t : json) :
  (tw <- py_getitem (with_int_counts t) "tweet" ;; created_at tw)
  = (tw <- py_getitem t "tweet" ;; created_at tw).
Proof.
  rewrite getitem_with_int_counts.
  destruct (py_getitem t "tweet") as [tw | e]; simpl;
    [apply as_ints_created_at | reflexivity].
Qed.


Lemma aggregate_same_but_counts (ts ts' : list json) :
  Forall2 same_but_counts ts ts' ->
  forall a, foldM tweet_step ts' a = foldM tweet_step ts a.
Proof.
  induction 1 as [| t t' ts ts' Ht _ IH]; intros a; simpl.
  - reflexivity.
  - assert (Hs : tweet_step t' a = tweet_step t a)
      by (destruct Ht as [-> | ->];
          [reflexivity | apply step_with_int_counts]).
    rewrite Hs. destruct (tweet_step t a); simpl; [apply IH | reflexivity].
Qed.

Lemma dates_same_but_counts (ts ts' : list json) :
  Forall2 same_but_counts ts ts' -> sorted_dates ts' = sorted_dates ts.
Proof.
  intros H. unfold sorted_dates. f_equal.
  induction H as [| t t' ts ts' Ht _ IH]; simpl.
  - reflexivity.
  - assert (Hd : (tw <- py_getitem t' "tweet" ;; created_at tw)
                 = (tw <- py_getitem t "tweet" ;; created_at tw))
      by (destruct Ht as [-> | ->];
          [reflexivity | apply date_with_int_counts]).
    rewrite Hd, IH. reflexivity.
Qed.
End CountFieldFacts.

(** ** Domains of links *)

(** A domain is counted when it is not empty and contains neither
    ["twitter.com"] nor ["t.co"] anywhere. *)
Lemma domain_kept_iff (d : string) :
  domain_kept d = true <->
  d <> "" /\ str_contains "twitter.com" d = false
  /\ str_contains "t.co" d = false.
Proof.
  unfold domain_kept. rewrite !andb_true_iff, !negb_true_iff.
  destruct (String.eqb_spec d ""); intuition congruence.
Qed.

(** What one URL does to the counters: its domain is counted when the
    test keeps it, and nothing changes otherwise. *)
Lemma count_url_string (rt : PyRuntime) (y url netloc : string) (a : Acc.t)
  (n : Z) :
  url <> "" ->
  urlparse_netloc url = Some netloc ->
  let domain := str_replace "www." "" netloc in
  count_url y (JObj [("expanded_url", JStr url)]) (a, n) =
  if domain_kept domain then Ok (count_domain y domain a, n + 1)
  else Ok (a, n).
Proof.
  intros Hne Hnet domain. unfold count_url. simpl.
  destruct (String.eqb_spec url "") as [-> | _]; [contradiction |].
  simpl. rewrite Hnet. reflexivity.
Qed.

(** The scenario of a record whose only link is to the platform itself. *)
Example platform_link_not_counted :
  exists out,
    @process_records Sample.runtime
      [tweet_linking "https://twitter.com/i/web/status/1"] = Ok out
    /\ Out.with_urls out = 0 /\ Out.top_domains out = [].
Proof.
  eexists. split; [vm_compute; reflexivity | split; reflexivity].
Qed.

(** C1.  A link to [www.reddit.com] has the domain ["reddit.com"], which is
    neither empty nor the platform's domain nor the link shortener's; it
    contains the letters ["t.co"], so the program discards it: the record
    has no counted URL and no domain enters the counters. *)
Theorem reddit_domain_discarded :
  @url_domain Sample.runtime (JStr "https://www.reddit.com/r/history")
  = Some "reddit.com"
  /\ domain_kept "reddit.com" = false
  /\ exists out,
      @process_records Sample.runtime
        [tweet_linking "https://www.reddit.com/r/history"] = Ok out
      /\ Out.total_tweets out = 1
      /\ Out.with_urls out = 0
      /\ Out.top_domains out = []
      /\ Out.domains_by_year out = [].
Proof.
  split; [reflexivity | split; [reflexivity |]].
  eexists. split; [vm_compute; reflexivity |].
  repeat split; reflexivity.
Qed.

(** C2.  The host [blog.www.example.org] does not start with ["www."];
    [replace] removes the ["www."] inside it, and the domain counted is
    ["blog.example.org"]. *)
Theorem inner_www_removed :
  Sample.urlparse_netloc "https://blog.www.example.org/post"
  = Some "blog.www.example.org"
  /\ @url_domain Sample.runtime (JStr "https://blog.www.example.org/post")
     = Some "blog.example.org"
  /\ exists out,
      @process_records Sample.runtime
        [tweet_linking "https://blog.www.example.org/post"] = Ok out
      /\ Out.top_domains out = [("blog.example.org", 1)]
      /\ Out.domains_by_year out = [("2018", [("blog.example.org", 1)])].
Proof.
  split; [reflexivity | split; [reflexivity |]].
  eexists. split; [vm_compute; reflexivity |].
  split; reflexivity.
Qed.

(** ** The properties at work on three records *)

Lemma totals_add_up_witness :
  exists out,
    @process_records Sample.runtime archive_tweets = Ok out
    /\ Out.original_tweets out + Out.retweets out = Out.total_tweets out
    /\ Out.total_tweets out = 3.
Proof.
  eexists. split; [vm_compute; reflexivity |].
  apply (@totals_add_up Sample.runtime archive_tweets).
  vm_compute. reflexivity.
Defined.

Lemma volume_buckets_add_up_witness :
  exists out,
    @process_records Sample.runtime archive_tweets = Ok out
    /\ (forall y v, assoc String.eqb y (Out.yearly_volume out) = Some v ->
                    Year.original v + Year.retweet v = Year.total v)
    /\ (forall m v, assoc String.eqb m (Out.monthly_volume out) = Some v ->
                    Month.original v + Month.retweet v = Month.total v)
    /\ NoDup (dict_keys (Out.yearly_volume out))
    /\ NoDup (dict_keys (Out.monthly_volume out))
    /\ sum_year_totals (Out.yearly_volume out) = Out.total_tweets out.
Proof.
  eexists. split; [vm_compute; reflexivity |].
  apply (@volume_buckets_add_up Sample.runtime archive_tweets).
  vm_compute. reflexivity.
Defined.

Lemma top_hashtags_ranking_witness :
  exists out,
    @process_records Sample.runtime archive_tweets = Ok out
    /\ (length (Out.top_hashtags out) <= 50)%nat
    /\ StronglySorted (fun x y => snd y <= snd x) (Out.top_hashtags out)
    /\ Out.top_hashtags out = [("thames", 2); ("docks", 1)].
Proof.
  eexists. split; [vm_compute; reflexivity |].
  apply (@top_hashtags_ranking Sample.runtime archive_tweets).
  vm_compute. reflexivity.
Defined.

Lemma unique_hashtags_counts_distinct_witness :
  exists out,
    @process_records Sample.runtime archive_tweets = Ok out
    /\ Out.unique_hashtags out = 2.
Proof.
  eexists. split; [vm_compute; reflexivity |].
  apply (@unique_hashtags_counts_distinct Sample.runtime archive_tweets).
  vm_compute. reflexivity.
Defined.

Lemma breakdown_years_in_yearly_volume_witness :
  exists out,
    @process_records Sample.runtime archive_tweets = Ok out
    /\ (forall y,
           In y (dict_keys (Out.hashtags_by_year out))
           \/ In y (dict_keys (Out.mentions_by_year out))
           \/ In y (dict_keys (Out.domains_by_year out)) ->
           In y (dict_keys (Out.yearly_volume out))
           /\ exists t, In t archive_tweets
                        /\ @record_year Sample.runtime t = Ok y)
    /\ (forall t, In t archive_tweets ->
                  exists y, @record_year Sample.runtime t = Ok y
                            /\ In y (dict_keys (Out.yearly_volume out))).
Proof.
  eexists. split; [vm_compute; reflexivity |].
  apply (@breakdown_years_in_yearly_volume Sample.runtime archive_tweets).
  vm_compute. reflexivity.
Defined.

Lemma load_twitter_js_from_first_bracket_witness :
  @load_twitter_js_text Sample.runtime archive_text = Ok (JArr [JInt 1; JInt 2])
  /\ @load_twitter_js_text Sample.runtime "[1, 2]"
     = @load_twitter_js_text Sample.runtime archive_text.
Proof.
  assert (Hpre : no_bracket "window.YTD.tweets.part0 = ").
  { unfold no_bracket. simpl. intuition discriminate. }
  destruct (@load_twitter_js_from_first_bracket Sample.runtime archive_text)
    as (_ & Hok & Hsame).
  split.
  - apply (Hok "window.YTD.tweets.part0 = " "1, 2]" _ eq_refl Hpre).
    vm_compute. reflexivity.
  - apply (Hsame "window.YTD.tweets.part0 = " "" "1, 2]" eq_refl Hpre).
    unfold no_bracket. simpl. intuition.
Defined.

(** * Further properties of the aggregation *)

(** ** Reading a record, then counting *)

Section ReadingFacts.
Context {rt : PyRuntime}.

Lemma count_mentions_run (y : string) (ms : list json) (a : Acc.t) :
  foldM (count_mention y) ms a =
  if forallb py_hashable ms then
    Ok (Acc.mk (Acc.all_hashtags a)
          (fold_left (fun c m => counter_incr py_key_eqb m c) ms
             (Acc.all_mentions a))
          (Acc.all_domains a) (Acc.lang_counts a)
          (Acc.monthly_volume a) (Acc.yearly_volume a)
          (Acc.hashtags_by_year a)
          (fold_left (fun d m => by_year_incr py_key_eqb y m d) ms
             (Acc.mentions_by_year a))
          (Acc.domains_by_year a) (Acc.records a))
  else Err TypeError.
Proof.
  revert a. induction ms as [| m ms IH]; intros a; simpl.
  - destruct a; reflexivity.
  - unfold count_mention at 1. destruct (py_hashable m); simpl.
    + rewrite IH. reflexivity.
    + reflexivity.
Qed.

Lemma count_url_run (y : string) (u : json) (a : Acc.t) (n : Z) :
  count_url y u (a, n) =
  ds <- url_counted u ;;
  Ok (Acc.mk (Acc.all_hashtags a) (Acc.all_mentions a)
        (fold_left (fun c d => counter_incr String.eqb d c) ds
           (Acc.all_domains a))
        (Acc.lang_counts a) (Acc.monthly_volume a) (Acc.yearly_volume a)
        (Acc.hashtags_by_year a) (Acc.mentions_by_year a)
        (fold_left (fun t d => by_year_incr String.eqb y d t) ds
           (Acc.domains_by_year a))
        (Acc.records a),
      n + Z.of_nat (length ds)).
Proof.
  unfold count_url, url_counted.
  destruct (py_get u "url" (JStr "")) as [fb | e]; simpl; [| reflexivity].
  destruct (py_get u "expanded_url" fb) as [x | e]; simpl; [| reflexivity].
  destruct (py_truthy x); [destruct (url_domain x) as [d |];
                           [destruct (domain_kept d) |] |];
    simpl; destruct a; simpl; rewrite ?Z.add_0_r; reflexivity.
Qed.

Lemma count_urls_run (y : string) (us : list json) (a : Acc.t) (n : Z) :
  foldM (count_url y) us (a, n) =
  counted <- mapM url_counted us ;;
  Ok (Acc.mk (Acc.all_hashtags a) (Acc.all_mentions a)
        (fold_left (fun c d => counter_incr String.eqb d c) (concat counted)
           (Acc.all_domains a))
        (Acc.lang_counts a) (Acc.monthly_volume a) (Acc.yearly_volume a)
        (Acc.hashtags_by_year a) (Acc.mentions_by_year a)
        (fold_left (fun t d => by_year_incr String.eqb y d t) (concat counted)
           (Acc.domains_by_year a))
        (Acc.records a),
      n + Z.of_nat (length (concat counted))).
Proof.
  revert a n. induction us as [| u us IH]; intros a n.
  - simpl. destruct a; simpl. rewrite Z.add_0_r. reflexivity.
  - cbn [foldM mapM]. rewrite count_url_run.
    destruct (url_counted u) as [ds | e]; simpl; [| reflexivity].
    rewrite IH. destruct (mapM url_counted us) as [counted | e]; simpl;
      [| reflexivity].
    rewrite !fold_left_app, length_app, Nat2Z.inj_add, Z.add_assoc.
    reflexivity.
Qed.

(** The loop body reads the record, whatever the accumulators hold, and
    then counts without raising. *)
Lemma tweet_step_read (t : json) (a : Acc.t) :
  tweet_step t a = r <- read_record t ;; Ok (absorb r a).
Proof.
  unfold tweet_step, read_record.
  destruct (py_getitem t "tweet") as [tw | e]; simpl; [| reflexivity].
  destruct (created_at tw) as [dt | e]; simpl; [| reflexivity].
  destruct (full_text tw) as [text | e]; simpl; [| reflexivity].
  destruct (has_media_of tw) as [hm | e]; simpl; [| reflexivity].
  destruct (hashtags_of tw) as [hs | e]; simpl; [| reflexivity].
  destruct (mentions_of tw) as [ms | e]; simpl; [| reflexivity].
  rewrite count_mentions_run, fold_count_hashtag.
  destruct (forallb py_hashable ms); simpl; [| reflexivity].
  destruct (entities_get tw "urls") as [urls | e]; simpl; [| reflexivity].
  destruct (py_iter urls) as [us | e]; simpl; [| reflexivity].
  rewrite count_urls_run.
  destruct (mapM url_counted us) as [counted | e]; simpl; [| reflexivity].
  destruct (py_get tw "lang" (JStr "und")) as [lang | e]; simpl;
    [| reflexivity].
  unfold count_lang. destruct (py_hashable lang); simpl; [| reflexivity].
  destruct (int_field tw "favorite_count") as [fav | e]; simpl;
    [| reflexivity].
  destruct (int_field tw "retweet_count") as [rtc | e]; simpl;
    [| reflexivity].
  reflexivity.
Qed.

Lemma aggregate_from (tweets : list json) (a : Acc.t) :
  foldM tweet_step tweets a =
  rs <- read_all tweets ;; Ok (fold_left (fun a r => absorb r a) rs a).
Proof.
  unfold read_all. revert a. induction tweets as [| t ts IH]; intros a; simpl.
  - reflexivity.
  - rewrite tweet_step_read.
    destruct (read_record t) as [r | e]; simpl; [| reflexivity].
    rewrite IH. destruct (mapM read_record ts); reflexivity.
Qed.
End ReadingFacts.

(** ** Tables built by upserts *)

Section KeyedFacts.
Context {A V : Type}.
Variable key : A -> string.
Variable init : V.
Variable upd : A -> V -> V.

Lemma dict_modify_map_key (f : string -> V) (g : V -> V) (ks : list string)
  (x : string) :
  NoDup ks ->
  dict_modify String.eqb x g (map (fun h => (h, f h)) ks) =
  map (fun h => (h, if String.eqb x h then g (f h) else f h)) ks.
Proof.
  induction 1 as [| k ks Hk Hnd IH]; simpl.
  - reflexivity.
  - destruct (String.eqb_spec k x) as [-> | Hne].
    + rewrite String.eqb_refl. f_equal.
      apply map_ext_in. intros h Hh.
      destruct (String.eqb_spec x h) as [-> | _]; [contradiction | reflexivity].
    + destruct (String.eqb_spec x k) as [-> | _]; [contradiction |].
      rewrite IH. reflexivity.
Qed.

Lemma dict_modify_absent (g : V -> V) (d : list (string * V)) (x : string) :
  ~ In x (dict_keys d) -> dict_modify String.eqb x g d = d.
Proof.
  induction d as [| [k v] d IH]; simpl; intros H.
  - reflexivity.
  - destruct (String.eqb_spec k x) as [-> | _].
    + exfalso. apply H. left. reflexivity.
    + rewrite IH; [reflexivity | intros Hin; apply H; right; exact Hin].
Qed.

(** One more element is one more upsert. *)
Lemma keyed_snoc (l : list A) (x : A) :
  keyed key init upd (l ++ [x]) =
  dict_upsert init (key x) (upd x) (keyed key init upd l).
Proof.
  unfold keyed, dict_upsert, dict_setdefault.
  replace (map key (l ++ [x])) with (map key l ++ [key x])%list
    by (rewrite map_app; reflexivity).
  rewrite first_seen_snoc, assoc_map_key.
  set (val := fun l k =>
                fold_left (fun v y => upd y v)
                  (filter (fun y => String.eqb (key y) k) l) init).
  assert (Hval : forall k,
             val (l ++ [x])%list k =
             if String.eqb (key x) k then upd x (val l k) else val l k).
  { intros k. unfold val. rewrite filter_app. simpl.
    destruct (String.eqb (key x) k).
    - rewrite fold_left_app. reflexivity.
    - rewrite app_nil_r. reflexivity. }
  set (ks := first_seen (map key l)).
  destruct (in_dec string_dec (key x) (map key l)) as [Hin | Hout];
    destruct (in_dec string_dec (key x) ks) as [Hyes | Hno];
    try (exfalso; apply Hno; apply first_seen_In; exact Hin);
    try (exfalso; apply Hout; apply first_seen_In; exact Hyes).
  - change (map (fun k => (k, val (l ++ [x])%list k)) ks
            = dict_modify String.eqb (key x) (upd x)
                (map (fun k => (k, val l k)) ks)).
    rewrite dict_modify_map_key by apply first_seen_NoDup.
    apply map_ext. intros k. rewrite Hval. reflexivity.
  - change (map (fun k => (k, val (l ++ [x])%list k)) (ks ++ [key x])
            = dict_modify String.eqb (key x) (upd x)
                (dict_set String.eqb (key x) init
                   (map (fun k => (k, val l k)) ks))).
    rewrite dict_set_absent
      by (rewrite assoc_map_key;
          destruct (in_dec string_dec (key x) ks);
          [contradiction | reflexivity]).
    rewrite map_app. simpl.
    assert (Hnew : val l (key x) = init).
    { unfold val.
      replace (filter (fun y => String.eqb (key y) (key x)) l) with (@nil A);
        [reflexivity |].
      symmetry. clear Hval Hno. induction l as [| y l' IH]; simpl.
      - reflexivity.
      - destruct (String.eqb_spec (key y) (key x)) as [He | _].
        + exfalso. apply Hout. left. exact He.
        + apply IH. intros Hin. apply Hout. right. exact Hin. }
    rewrite Hval, String.eqb_refl, Hnew.
    assert (Hold : map (fun k => (k, val (l ++ [x])%list k)) ks
                   = map (fun k => (k, val l k)) ks).
    { apply map_ext_in. intros k Hk. rewrite Hval.
      destruct (String.eqb_spec (key x) k) as [<- | _];
        [contradiction | reflexivity]. }
    rewrite Hold. clear Hval Hold Hnew.
    induction ks as [| k ks' IH]; simpl.
    + rewrite String.eqb_refl. reflexivity.
    + destruct (String.eqb_spec k (key x)) as [He | _].
      * exfalso. apply Hno. left. exact He.
      * rewrite IH; [reflexivity |].
        intros Hin. apply Hno. right. exact Hin.
Qed.

(** A loop of upserts from the empty table builds [keyed]. *)
Lemma upserts_keyed (l : list A) :
  fold_left (fun d x => dict_upsert init (key x) (upd x) d) l [] =
  keyed key init upd l.
Proof.
  induction l as [| x l IH] using rev_ind.
  - reflexivity.
  - rewrite fold_left_app. simpl. rewrite IH, keyed_snoc. reflexivity.
Qed.
End KeyedFacts.

(** ** The accumulators in closed form *)

Lemma by_year_as_upserts {K} (eqb : K -> K -> bool) (y : string) (xs : list K)
  (d : list (string * Counter K)) :
  fold_left (fun d x => by_year_incr eqb y x d) xs d =
  fold_left (fun d p => dict_upsert [] (fst p) (counter_incr eqb (snd p)) d)
    (map (pair y) xs) d.
Proof.
  revert d. induction xs as [| x xs IH]; intros d; simpl.
  - reflexivity.
  - rewrite IH. reflexivity.
Qed.

Lemma fold_left_flat_map {A B S} (f : S -> B -> S) (g : A -> list B)
  (l : list A) (s : S) :
  fold_left f (flat_map g l) s =
  fold_left (fun s x => fold_left f (g x) s) l s.
Proof.
  revert s. induction l as [| x l IH]; intros s; simpl.
  - reflexivity.
  - rewrite fold_left_app. apply IH.
Qed.

Section CountedFacts.
Context {rt : PyRuntime}.

Lemma absorb_all (rs : list Reading.t) (a : Acc.t) :
  fold_left (fun a r => absorb r a) rs a =
  Acc.mk
    (fold_left (fun c h => counter_incr String.eqb h c)
       (flat_map Reading.hashtags rs) (Acc.all_hashtags a))
    (fold_left (fun c m => counter_incr py_key_eqb m c)
       (flat_map Reading.mentions rs) (Acc.all_mentions a))
    (fold_left (fun c d => counter_incr String.eqb d c)
       (flat_map Reading.domains rs) (Acc.all_domains a))
    (fold_left (fun c l => counter_incr py_key_eqb l c)
       (map Reading.lang rs) (Acc.lang_counts a))
    (fold_left (fun d r => dict_upsert (Month.mk 0 0 0) (Reading.month r)
                             (month_bump (Reading.is_rt r)) d)
       rs (Acc.monthly_volume a))
    (fold_left (fun d r => dict_upsert (Year.mk 0 0 0 0 0 0) (Reading.year r)
                             (year_bump (Reading.is_rt r) (Reading.has_media r)
                                (Reading.favorites r) (Reading.retweets r)) d)
       rs (Acc.yearly_volume a))
    (fold_left (fun d p => dict_upsert [] (fst p)
                             (counter_incr String.eqb (snd p)) d)
       (tagged Reading.hashtags rs) (Acc.hashtags_by_year a))
    (fold_left (fun d p => dict_upsert [] (fst p)
                             (counter_incr py_key_eqb (snd p)) d)
       (tagged Reading.mentions rs) (Acc.mentions_by_year a))
    (fold_left (fun d p => dict_upsert [] (fst p)
                             (counter_incr String.eqb (snd p)) d)
       (tagged Reading.domains rs) (Acc.domains_by_year a))
    (Acc.records a ++ map projection rs).
Proof.
  revert a. induction rs as [| r rs IH]; intros a.
  - simpl. rewrite app_nil_r. destruct a; reflexivity.
  - cbn [fold_left]. rewrite IH. unfold absorb, tagged.
    cbn [flat_map map Acc.all_hashtags Acc.all_mentions Acc.all_domains
           Acc.lang_counts Acc.monthly_volume Acc.yearly_volume
           Acc.hashtags_by_year Acc.mentions_by_year Acc.domains_by_year
           Acc.records fold_left].
    rewrite !fold_left_app, !by_year_as_upserts, <- app_assoc.
    reflexivity.
Qed.

(** The tables of the accumulators after the readings [rs]. *)
Lemma counted_tables (rs : list Reading.t) :
  Acc.all_hashtags (counted rs) = tally (flat_map Reading.hashtags rs)
  /\ Acc.all_domains (counted rs) = tally (flat_map Reading.domains rs)
  /\ Acc.monthly_volume (counted rs)
     = keyed Reading.month (Month.mk 0 0 0)
         (fun r => month_bump (Reading.is_rt r)) rs
  /\ Acc.yearly_volume (counted rs)
     = keyed Reading.year (Year.mk 0 0 0 0 0 0)
         (fun r => year_bump (Reading.is_rt r) (Reading.has_media r)
                     (Reading.favorites r) (Reading.retweets r)) rs
  /\ Acc.hashtags_by_year (counted rs)
     = keyed fst [] (fun p => counter_incr String.eqb (snd p))
         (tagged Reading.hashtags rs)
  /\ Acc.domains_by_year (counted rs)
     = keyed fst [] (fun p => counter_incr String.eqb (snd p))
         (tagged Reading.domains rs)
  /\ Acc.records (counted rs) = map projection rs
  /\ Acc.lang_counts (counted rs)
     = fold_left (fun c l => counter_incr py_key_eqb l c)
         (map Reading.lang rs) []
  /\ Acc.all_mentions (counted rs)
     = fold_left (fun c m => counter_incr py_key_eqb m c)
         (flat_map Reading.mentions rs) [].
Proof.
  unfold counted. rewrite absorb_all. simpl.
  rewrite !counter_of_stream, !upserts_keyed. repeat split; reflexivity.
Qed.

(** A run that returns a report has read every record. *)
Lemma process_records_readings (tweets : list json) (out : Out.t) :
  process_records tweets = Ok out ->
  exists rs,
    read_all tweets = Ok rs
    /\ length rs = length tweets
    /\ aggregate tweets = Ok (counted rs).
Proof.
  intros H. unfold process_records in H. inv_bind H as a Ea.
  unfold aggregate in Ea. rewrite aggregate_from in Ea.
  inv_bind Ea as rs Ers. injection Ea as <-.
  exists rs. split; [exact Ers | split].
  - unfold read_all in Ers. clear H. revert rs Ers.
    induction tweets as [| t ts IH]; simpl; intros rs Ers.
    + injection Ers as <-. reflexivity.
    + inv_bind Ers as r Er. inv_bind Ers as rs' Ers'.
      injection Ers as <-. simpl. f_equal. apply IH. exact Ers'.
  - unfold aggregate. rewrite aggregate_from, Ers. reflexivity.
Qed.
End CountedFacts.

(** ** When the run succeeds *)

Lemma insert_desc_perm {A} (key : A -> Z) (x : A) (l : list A) :
  Permutation (insert_desc key x l) (x :: l).
Proof.
  induction l as [| y l IH]; simpl.
  - apply Permutation_refl.
  - destruct (key x <? key y).
    + apply Permutation_trans with (y :: x :: l).
      * apply perm_skip. exact IH.
      * apply perm_swap.
    + apply Permutation_refl.
Qed.

(** Sorting rearranges and loses nothing. *)
Lemma sorted_desc_perm {A} (key : A -> Z) (l : list A) :
  Permutation (sorted_desc key l) l.
Proof.
  induction l as [| x l IH]; simpl.
  - apply perm_nil.
  - apply Permutation_trans with (x :: sorted_desc key l).
    + apply insert_desc_perm.
    + apply perm_skip. exact IH.
Qed.

Lemma mapM_Ok {A B} (f : A -> result B) (l : list A) (l' : list B) :
  mapM f l = Ok l' <-> Forall2 (fun x y => f x = Ok y) l l'.
Proof.
  revert l'. induction l as [| x l IH]; intros l'; simpl.
  - split.
    + intros H. injection H as <-. constructor.
    + intros H. inversion H. reflexivity.
  - split.
    + intros H. inv_bind H as y Ey. inv_bind H as ys Eys. injection H as <-.
      constructor; [exact Ey | apply IH; exact Eys].
    + intros H. inversion H as [| x0 y l0 ys Hy Hys]; subst.
      rewrite Hy. simpl. rewrite (proj2 (IH ys) Hys). reflexivity.
Qed.

(** A comprehension raises what its first failing element raises. *)
Lemma mapM_Err {A B} (f : A -> result B) (l : list A) (e : exn) :
  mapM f l = Err e <->
  exists pre x post,
    l = (pre ++ x :: post)%list
    /\ (forall x', In x' pre -> exists y, f x' = Ok y)
    /\ f x = Err e.
Proof.
  induction l as [| x l IH]; simpl.
  - split; [discriminate |].
    intros (pre & x & post & H & _). destruct pre; discriminate H.
  - split.
    + destruct (f x) as [y | e'] eqn:Ex; simpl.
      * destruct (mapM f l) as [ys | e'] eqn:El; simpl; [discriminate |].
        intros H. injection H as ->.
        destruct (proj1 IH eq_refl) as (pre & x0 & post & -> & Hpre & Hx0).
        exists (x :: pre), x0, post. split; [reflexivity | split].
        -- intros x' [<- | Hin]; [exists y; exact Ex | apply Hpre; exact Hin].
        -- exact Hx0.
      * intros H. injection H as ->. exists [], x, l.
        split; [reflexivity | split; [intros x' [] | exact Ex]].
    + intros (pre & x0 & post & Hl & Hpre & Hx0).
      destruct pre as [| p pre]; simpl in Hl; injection Hl as <- ->.
      * rewrite Hx0. reflexivity.
      * destruct (Hpre x (or_introl eq_refl)) as [y Hy]. rewrite Hy. simpl.
        rewrite (proj2 IH); [reflexivity |].
        exists pre, x0, post. split; [reflexivity | split].
        -- intros x' Hin. apply Hpre. right. exact Hin.
        -- exact Hx0.
Qed.

Section OutcomeFacts.
Context {rt : PyRuntime}.

Lemma read_record_when (t : json) (r : Reading.t) :
  read_record t = Ok r ->
  (tw <- py_getitem t "tweet" ;; created_at tw) = Ok (Reading.when r).
Proof.
  unfold read_record. intros H.
  inv_bind H as tw Etw. inv_bind H as dt Edt. rewrite Etw. simpl.
  inv_bind H as text Et. inv_bind H as hm Ehm. inv_bind H as hs Ehs.
  inv_bind H as ms Ems.
  destruct (forallb py_hashable ms); [| discriminate H].
  inv_bind H as urls Eu. inv_bind H as us Eus. inv_bind H as cs Ecs.
  inv_bind H as lang El.
  destruct (py_hashable lang); [| discriminate H].
  inv_bind H as fav Ef. inv_bind H as rtc Er. injection H as <-.
  exact Edt.
Qed.

(** The second pass over the records parses the same dates again. *)
Lemma dates_of_readings (tweets : list json) (rs : list Reading.t) :
  read_all tweets = Ok rs ->
  sorted_dates tweets = Ok (sorted_asc dt_instant (map Reading.when rs)).
Proof.
  unfold read_all, sorted_dates. intros H.
  assert (Hd : mapM (fun t => tw <- py_getitem t "tweet" ;; created_at tw)
                 tweets = Ok (map Reading.when rs)).
  { apply mapM_Ok. apply mapM_Ok in H.
    induction H as [| t r ts rs' Hr _ IH]; simpl; constructor.
    - apply read_record_when. exact Hr.
    - exact IH. }
  rewrite Hd. reflexivity.
Qed.

Lemma date_range_of_nonempty (dates : list datetime) :
  dates <> [] -> exists range, date_range_of dates = Ok range.
Proof.
  destruct dates as [| d ds]; [contradiction |]. intros _.
  eexists. reflexivity.
Qed.

(** The run in terms of the readings. *)
Lemma process_records_read (tweets : list json) :
  process_records tweets =
  rs <- read_all tweets ;; build_output tweets (counted rs).
Proof.
  unfold process_records, aggregate. rewrite aggregate_from.
  destruct (read_all tweets); reflexivity.
Qed.

Lemma read_all_length (tweets : list json) (rs : list Reading.t) :
  read_all tweets = Ok rs -> length rs = length tweets.
Proof.
  intros H. apply mapM_Ok in H. symmetry.
  induction H; simpl; [reflexivity | f_equal; assumption].
Qed.
End OutcomeFacts.

(** X1.  The run returns a report exactly when the list of records is not
    empty and every record can be read.  It raises [IndexError] on the empty
    list, and otherwise what the first unreadable record raises, whatever
    follows that record. *)
Theorem process_records_outcome :
  forall (rt : PyRuntime) (tweets : list json),
    ((exists out, process_records tweets = Ok out) <->
     tweets <> [] /\ forall t, In t tweets -> exists r, read_record t = Ok r)
    /\ (forall e,
           process_records tweets = Err e <->
           (tweets = [] /\ e = IndexError)
           \/ exists pre t post,
               tweets = (pre ++ t :: post)%list
               /\ (forall t', In t' pre -> exists r, read_record t' = Ok r)
               /\ read_record t = Err e).
Proof.
  intros rt tweets. rewrite process_records_read.
  destruct (read_all tweets) as [rs | e0] eqn:Er.
  - pose proof (read_all_length _ Er) as Hlen.
    pose proof (proj1 (mapM_Ok _ _ _) Er) as Hall.
    assert (Hread : forall t, In t tweets -> exists r, read_record t = Ok r).
    { clear Hlen Er. induction Hall as [| t r ts rs' Hr _ IH]; intros t0 [].
      - subst. exists r. exact Hr.
      - apply IH. assumption. }
    simpl. unfold build_output. rewrite (dates_of_readings _ Er). simpl.
    destruct tweets as [| t ts].
    + destruct rs; [| discriminate Hlen]. simpl. split.
      * split; [intros [out H]; discriminate H | intros [H _]; contradiction].
      * intros e. split.
        -- intros H. injection H as <-. left. split; reflexivity.
        -- intros [[_ ->] | (pre & t & post & H & _)]; [reflexivity |].
           destruct pre; discriminate H.
    + destruct rs as [| r rs]; [discriminate Hlen |].
      destruct (date_range_of_nonempty
                  (dates:=sorted_asc dt_instant (map Reading.when (r :: rs))))
        as [range Hrange].
      { intros Hnil. pose proof (sorted_desc_perm (fun x => - dt_instant x)
                                   (map Reading.when (r :: rs))) as Hp.
        unfold sorted_asc in Hnil. rewrite Hnil in Hp.
        apply Permutation_nil in Hp. discriminate Hp. }
      rewrite Hrange. simpl. split.
      * split; [intros _; split; [discriminate | exact Hread] |].
        intros _. eexists. reflexivity.
      * intros e. split; [discriminate |].
        intros [[H _] | (pre & t0 & post & Hsplit & _ & Hbad)];
          [discriminate H |].
        destruct (Hread t0) as [r0 Hr0];
          [rewrite Hsplit; apply in_or_app; right; left; reflexivity |].
        rewrite Hr0 in Hbad. discriminate Hbad.
  - simpl. pose proof (proj1 (mapM_Err _ _ _) Er) as (pre & t & post & Hs & Hp & Hb).
    split.
    + split; [intros [out H]; discriminate H |].
      intros [_ Hread]. destruct (Hread t) as [r Hr];
        [rewrite Hs; apply in_or_app; right; left; reflexivity |].
      rewrite Hr in Hb. discriminate Hb.
    + intros e. split.
      * intros H. injection H as <-. right. exists pre, t, post. auto.
      * intros [[-> _] | Hex]; [destruct pre; discriminate Hs |].
        apply (mapM_Err read_record) in Hex. unfold read_all in Er.
        rewrite Er in Hex. injection Hex as ->. reflexivity.
Qed.

(** ** The volume tables, bucket by bucket *)

Lemma count_if_cons {A} (p : A -> bool) (x : A) (l : list A) :
  count_if p (x :: l) = (if p x then 1 else 0) + count_if p l.
Proof.
  unfold count_if. simpl. destruct (p x); simpl length; lia.
Qed.

Lemma sum_by_cons {A} (f : A -> Z) (x : A) (l : list A) :
  sum_by f (x :: l) = f x + sum_by f l.
Proof. reflexivity. Qed.

Lemma year_bumps (rs : list Reading.t) (v : Year.t) :
  fold_left (fun v r => year_bump (Reading.is_rt r) (Reading.has_media r)
                          (Reading.favorites r) (Reading.retweets r) v) rs v
  = Year.mk (Year.total v + Z.of_nat (length rs))
      (Year.original v + count_if (fun r => negb (Reading.is_rt r)) rs)
      (Year.retweet v + count_if Reading.is_rt rs)
      (Year.with_media v + count_if Reading.has_media rs)
      (Year.favorites v + sum_by Reading.favorites rs)
      (Year.retweet_count v + sum_by Reading.retweets rs).
Proof.
  revert v. induction rs as [| r rs IH]; intros v.
  - destruct v. unfold count_if. simpl. rewrite !Z.add_0_r. reflexivity.
  - cbn [fold_left]. rewrite IH. rewrite !count_if_cons, !sum_by_cons.
    rewrite (Nat2Z.inj_succ (length rs) : Z.of_nat (length (r :: rs)) = _).
    unfold year_bump.
    destruct (Reading.is_rt r), (Reading.has_media r);
      cbn [negb Year.total Year.original Year.retweet Year.with_media
             Year.favorites Year.retweet_count]; f_equal; lia.
Qed.

Lemma month_bumps (rs : list Reading.t) (v : Month.t) :
  fold_left (fun v r => month_bump (Reading.is_rt r) v) rs v
  = Month.mk (Month.total v + Z.of_nat (length rs))
      (Month.original v + count_if (fun r => negb (Reading.is_rt r)) rs)
      (Month.retweet v + count_if Reading.is_rt rs).
Proof.
  revert v. induction rs as [| r rs IH]; intros v.
  - destruct v. unfold count_if. simpl. rewrite !Z.add_0_r. reflexivity.
  - cbn [fold_left]. rewrite IH. rewrite !count_if_cons.
    rewrite (Nat2Z.inj_succ (length rs) : Z.of_nat (length (r :: rs)) = _).
    unfold month_bump.
    destruct (Reading.is_rt r);
      cbn [negb Month.total Month.original Month.retweet]; f_equal; lia.
Qed.

Lemma count_if_map {A B} (f : A -> B) (p : B -> bool) (l : list A) :
  count_if p (map f l) = count_if (fun x => p (f x)) l.
Proof.
  induction l as [| x l IH]; [reflexivity |].
  cbn [map]. rewrite !count_if_cons, IH. reflexivity.
Qed.

Lemma count_if_ext {A} (p q : A -> bool) (l : list A) :
  (forall x, p x = q x) -> count_if p l = count_if q l.
Proof.
  intros H. induction l as [| x l IH]; [reflexivity |].
  rewrite !count_if_cons, IH, H. reflexivity.
Qed.

(** The two volume tables of the accumulators, from the readings. *)
Lemma counted_volume_tables (rs : list Reading.t) :
  Acc.yearly_volume (counted rs)
  = map (fun y => (y, year_bucket (of_year y rs)))
      (first_seen (map Reading.year rs))
  /\ Acc.monthly_volume (counted rs)
     = map (fun m => (m, month_bucket (of_month m rs)))
         (first_seen (map Reading.month rs)).
Proof.
  destruct (counted_tables rs) as (_ & _ & Hm & Hy & _).
  rewrite Hy, Hm. unfold keyed. split; apply map_ext; intros k.
  - rewrite year_bumps. reflexivity.
  - rewrite month_bumps. reflexivity.
Qed.

(** The two volume tables of a report, over the readings of its records. *)
Lemma report_volume_tables (rt : PyRuntime) (tweets : list json)
  (rs : list Reading.t) (out : Out.t) :
  read_all tweets = Ok rs ->
  process_records tweets = Ok out ->
  Out.yearly_volume out
  = map (fun y => (y, year_bucket (of_year y rs)))
      (first_seen (map Reading.year rs))
  /\ Out.monthly_volume out
     = map (fun m => (m, month_bucket (of_month m rs)))
         (first_seen (map Reading.month rs)).
Proof.
  intros Hrs H.
  destruct (process_records_readings _ H) as (rs' & Hrs' & _ & Hagg).
  rewrite Hrs in Hrs'. injection Hrs' as <-.
  apply process_records_inv in H. destruct H as (a & range & Ha & ->).
  rewrite Hagg in Ha. injection Ha as <-.
  cbv zeta. cbn [Out.yearly_volume Out.monthly_volume].
  exact (counted_volume_tables rs).
Qed.

(** X2.  In the report of a successful run, [yearly_volume] has one bucket
    per year of the records, in the order in which the years first occur,
    and the bucket of a year holds the number of its records, of its
    originals, of its retweets and of its records with media, and the sums
    of their favorite and retweet counts; [monthly_volume] likewise, by
    month. *)
Theorem volume_tables_by_bucket :
  forall (rt : PyRuntime) (tweets : list json) (out : Out.t),
    process_records tweets = Ok out ->
    exists rs,
      read_all tweets = Ok rs
      /\ Out.yearly_volume out
         = map (fun y => (y, year_bucket (of_year y rs)))
             (first_seen (map Reading.year rs))
      /\ Out.monthly_volume out
         = map (fun m => (m, month_bucket (of_month m rs)))
             (first_seen (map Reading.month rs)).
Proof.
  intros rt tweets out H.
  destruct (process_records_readings _ H) as (rs & Hrs & _ & _).
  exists rs. split; [exact Hrs |].
  exact (@report_volume_tables rt tweets rs out Hrs H).
Qed.

Lemma count_if_split {A} (p : A -> bool) (l : list A) :
  count_if (fun x => negb (p x)) l + count_if p l = Z.of_nat (length l).
Proof.
  induction l as [| x l IH]; [reflexivity |].
  rewrite !count_if_cons.
  rewrite (Nat2Z.inj_succ (length l) : Z.of_nat (length (x :: l)) = _).
  destruct (p x); cbn [negb]; lia.
Qed.

(** The totals of a report, over the readings of its records. *)
Lemma report_totals (rt : PyRuntime) (tweets : list json)
  (rs : list Reading.t) (out : Out.t) :
  read_all tweets = Ok rs ->
  process_records tweets = Ok out ->
  Out.total_tweets out = Z.of_nat (length rs)
  /\ Out.original_tweets out = count_if (fun r => negb (Reading.is_rt r)) rs
  /\ Out.retweets out = count_if Reading.is_rt rs
  /\ Out.with_media out = count_if Reading.has_media rs
  /\ Out.with_urls out
     = count_if (fun r => match Reading.domains r with
                          | [] => false
                          | _ => true
                          end) rs.
Proof.
  intros Hrs H.
  destruct (process_records_readings _ H) as (rs' & Hrs' & _ & Hagg).
  rewrite Hrs in Hrs'. injection Hrs' as <-.
  apply process_records_inv in H. destruct H as (a & range & Ha & ->).
  rewrite Hagg in Ha. injection Ha as <-.
  destruct (counted_tables rs) as (_ & _ & _ & _ & _ & _ & Hrec & _).
  cbv zeta. simpl. rewrite Hrec.
  rewrite length_map, !count_if_map. simpl.
  repeat split.
  - pose proof (count_if_split Reading.is_rt rs). lia.
  - apply count_if_ext. intros r.
    destruct (Reading.domains r); reflexivity.
Qed.

(** X3.  In the report of a successful run, [original_tweets] is the number
    of records whose text does not start with ["RT @"], [retweets] the
    number of those whose text does, [with_media] the number of records
    with media and [with_urls] the number of records with at least one
    counted domain. *)
Theorem totals_count_records :
  forall (rt : PyRuntime) (tweets : list json) (out : Out.t),
    process_records tweets = Ok out ->
    exists rs,
      read_all tweets = Ok rs
      /\ Out.total_tweets out = Z.of_nat (length rs)
      /\ Out.original_tweets out
         = count_if (fun r => negb (Reading.is_rt r)) rs
      /\ Out.retweets out = count_if Reading.is_rt rs
      /\ Out.with_media out = count_if Reading.has_media rs
      /\ Out.with_urls out
         = count_if (fun r => match Reading.domains r with
                              | [] => false
                              | _ => true
                              end) rs.
Proof.
  intros rt tweets out H.
  destruct (process_records_readings _ H) as (rs & Hrs & _ & _).
  exists rs. split; [exact Hrs |].
  exact (@report_totals rt tweets rs out Hrs H).
Qed.

(** ** Columns of the volume tables *)

Section ColumnFacts.
Context {V : Type}.
Variable f : V -> Z.

Lemma column_setdefault (k : string) (init : V) (d : list (string * V)) :
  f init = 0 ->
  sum_by (fun kv => f (snd kv)) (dict_setdefault String.eqb k init d)
  = sum_by (fun kv => f (snd kv)) d.
Proof.
  intros H0. unfold dict_setdefault.
  destruct (assoc String.eqb k d) eqn:E; [reflexivity |].
  rewrite dict_set_absent by exact E.
  induction d as [| kv d IH]; simpl.
  - rewrite H0. reflexivity.
  - simpl in E. destruct kv as [k' v'].
    destruct (String.eqb k' k); [discriminate E |].
    rewrite IH by exact E. reflexivity.
Qed.

Lemma column_modify (k : string) (g : V -> V) (delta : Z)
  (d : list (string * V)) :
  (forall v, f (g v) = f v + delta) ->
  In k (dict_keys d) ->
  sum_by (fun kv => f (snd kv)) (dict_modify String.eqb k g d)
  = sum_by (fun kv => f (snd kv)) d + delta.
Proof.
  intros Hg. induction d as [| [k' v] d IH]; simpl; intros Hin.
  - destruct Hin.
  - destruct (String.eqb_spec k' k) as [-> | Hne]; simpl.
    + rewrite Hg. lia.
    + destruct Hin as [He | Hin]; [contradiction |].
      rewrite IH by exact Hin. lia.
Qed.

(** A column of a table built by upserts sums what each element adds. *)
Lemma column_upserts {A} (key : A -> string) (init : V) (upd : A -> V -> V)
  (w : A -> Z) (l : list A) (d : list (string * V)) :
  f init = 0 ->
  (forall x v, f (upd x v) = f v + w x) ->
  sum_by (fun kv => f (snd kv))
    (fold_left (fun d x => dict_upsert init (key x) (upd x) d) l d)
  = sum_by (fun kv => f (snd kv)) d + sum_by w l.
Proof.
  intros H0 Hupd. revert d. induction l as [| x l IH]; intros d.
  - simpl. lia.
  - cbn [fold_left]. rewrite IH, sum_by_cons. unfold dict_upsert.
    rewrite (column_modify _ _ (w x)).
    + rewrite column_setdefault by exact H0. lia.
    + intros v. apply Hupd.
    + apply setdefault_has_key.
Qed.
End ColumnFacts.

Lemma count_if_sum {A} (p : A -> bool) (l : list A) :
  count_if p l = sum_by (fun x => if p x then 1 else 0) l.
Proof.
  induction l as [| x l IH]; [reflexivity |].
  rewrite count_if_cons, sum_by_cons, IH. reflexivity.
Qed.

(** X4.  In the report of a successful run, the yearly and the monthly
    buckets add up to the totals of the report: their [original] columns
    to [original_tweets], their [retweet] columns to [retweets], the yearly
    [with_media] column to [with_media] and the monthly [total] column to
    [total_tweets]. *)
Theorem volume_columns_sum_to_totals :
  forall (rt : PyRuntime) (tweets : list json) (out : Out.t),
    process_records tweets = Ok out ->
    sum_year Year.original (Out.yearly_volume out) = Out.original_tweets out
    /\ sum_year Year.retweet (Out.yearly_volume out) = Out.retweets out
    /\ sum_year Year.with_media (Out.yearly_volume out) = Out.with_media out
    /\ sum_month Month.total (Out.monthly_volume out) = Out.total_tweets out
    /\ sum_month Month.original (Out.monthly_volume out)
       = Out.original_tweets out
    /\ sum_month Month.retweet (Out.monthly_volume out) = Out.retweets out.
Proof.
  intros rt tweets out H.
  destruct (process_records_readings _ H) as (rs & Hrs & _ & Hagg).
  destruct (@report_totals rt tweets rs out Hrs H) as (Htot & Horig & Hrt & Hmedia & _).
  assert (Hy : Out.yearly_volume out = Acc.yearly_volume (counted rs)
               /\ Out.monthly_volume out = Acc.monthly_volume (counted rs)).
  { apply process_records_inv in H. destruct H as (a & range & Ha & ->).
    rewrite Hagg in Ha. injection Ha as <-. split; reflexivity. }
  destruct Hy as [Hy Hm]. rewrite Htot, Horig, Hrt, Hmedia, Hy, Hm.
  destruct (counted_tables rs) as (_ & _ & -> & -> & _).
  rewrite <- !upserts_keyed. unfold sum_year, sum_month.
  assert (Hlen : Z.of_nat (length rs) = sum_by (fun _ => 1) rs).
  { clear. induction rs as [| r rs IH]; [reflexivity |].
    rewrite sum_by_cons, <- IH. cbn [length]. lia. }
  rewrite Hlen, !count_if_sum.
  repeat split;
    (erewrite column_upserts; [reflexivity | reflexivity |]);
    intros r v; unfold year_bump, month_bump;
    destruct (Reading.is_rt r), (Reading.has_media r); simpl; lia.
Qed.

(** ** Per-year breakdowns *)

Lemma tagged_years {K} (items : Reading.t -> list K) (rs : list Reading.t) :
  map fst (tagged items rs) = item_years items rs.
Proof.
  unfold tagged, item_years. induction rs as [| r rs IH]; simpl.
  - reflexivity.
  - rewrite map_app, IH, map_map. reflexivity.
Qed.

Lemma tagged_of_year {K} (items : Reading.t -> list K) (y : string)
  (rs : list Reading.t) :
  map snd (filter (fun p => String.eqb (fst p) y) (tagged items rs))
  = items_of_year items y rs.
Proof.
  unfold tagged, items_of_year, of_year.
  induction rs as [| r rs IH]; simpl.
  - reflexivity.
  - rewrite filter_app, map_app, IH.
    destruct (String.eqb (Reading.year r) y) eqn:E; simpl; f_equal.
    + induction (items r) as [| x xs IHx]; simpl; [reflexivity |].
      rewrite E. simpl. f_equal. exact IHx.
    + induction (items r) as [| x xs IHx]; simpl; [reflexivity |].
      rewrite E. exact IHx.
Qed.

Lemma counter_of_pairs (ps : list (string * string)) :
  fold_left (fun c p => counter_incr String.eqb (snd p) c) ps []
  = tally (map snd ps).
Proof.
  rewrite <- counter_of_stream.
  generalize (@nil (string * Z)). induction ps as [| p ps IH]; intros c; simpl.
  - reflexivity.
  - apply IH.
Qed.

(** The table of per-year counters, ranked, is the breakdown. *)
Lemma by_year_top_keyed (items : Reading.t -> list string)
  (rs : list Reading.t) :
  by_year_top
    (keyed fst [] (fun p => counter_incr String.eqb (snd p)) (tagged items rs))
  = breakdown items rs.
Proof.
  unfold by_year_top, keyed, breakdown. rewrite map_map, tagged_years.
  apply map_ext. intros y. simpl.
  rewrite most_common_top_n, counter_of_pairs, tagged_of_year. reflexivity.
Qed.

(** X5.  In the report of a successful run, [hashtags_by_year] lists, for
    each year in which a hashtag was observed and in the order in which the
    years first had one, the 20 most frequent hashtags of the records of
    that year with their counts within the year, ties in first-seen order;
    [domains_by_year] does the same for the counted domains. *)
Theorem breakdowns_rank_within_year :
  forall (rt : PyRuntime) (tweets : list json) (out : Out.t),
    process_records tweets = Ok out ->
    exists rs,
      read_all tweets = Ok rs
      /\ Out.hashtags_by_year out = breakdown Reading.hashtags rs
      /\ Out.domains_by_year out = breakdown Reading.domains rs.
Proof.
  intros rt tweets out H.
  destruct (process_records_readings _ H) as (rs & Hrs & _ & Hagg).
  apply process_records_inv in H. destruct H as (a & range & Ha & ->).
  rewrite Hagg in Ha. injection Ha as <-.
  destruct (counted_tables rs) as (_ & _ & _ & _ & Hh & Hd & _).
  exists rs. split; [exact Hrs |]. cbv zeta. simpl.
  rewrite Hh, Hd, !by_year_top_keyed. split; reflexivity.
Qed.

(** ** Entries of the global rankings *)

Lemma tally_entry (l : list string) (h : string) (c : Z) :
  In (h, c) (tally l) -> In h l /\ c = occurrences h l /\ 1 <= c.
Proof.
  unfold tally. intros H. apply in_map_iff in H.
  destruct H as (k & Hk & Hin). injection Hk as Hk Hc. subst k c.
  apply (proj1 (first_seen_In l h)) in Hin.
  split; [exact Hin | split; [reflexivity |]].
  unfold occurrences.
  pose proof (proj1 (count_occ_In string_dec l h) Hin). lia.
Qed.

Lemma tally_keys (l : list string) : map fst (tally l) = first_seen l.
Proof.
  unfold tally. rewrite map_map. simpl. apply map_id.
Qed.

(** In a sorted list, what comes first is related to what comes later. *)
Lemma sorted_app_order {A} (R : A -> A -> Prop) (l1 l2 : list A) :
  StronglySorted R (l1 ++ l2) ->
  forall x y, In x l1 -> In y l2 -> R x y.
Proof.
  induction l1 as [| a l1 IH]; simpl; intros Hs x y Hx Hy.
  - destruct Hx.
  - inversion Hs as [| a' l' Hs' Ha]; subst.
    destruct Hx as [<- | Hx].
    + rewrite Forall_forall in Ha. apply Ha. apply in_or_app. right. exact Hy.
    + apply IH; assumption.
Qed.

Section TopFacts.
Context {K : Type}.
Implicit Types (c : list (K * Z)).

Lemma most_common_In (n : nat) c (x : K * Z) :
  In x (most_common n c) -> In x c.
Proof.
  unfold most_common. intros H. apply In_firstn in H.
  eapply Permutation_in; [apply sorted_desc_perm | exact H].
Qed.

Lemma most_common_keys_NoDup (n : nat) c :
  NoDup (map fst c) -> NoDup (map fst (most_common n c)).
Proof.
  intros Hnd. unfold most_common.
  assert (Hs : NoDup (map fst (sorted_desc snd c))).
  { eapply Permutation_NoDup; [| exact Hnd].
    apply Permutation_map. apply Permutation_sym. apply sorted_desc_perm. }
  rewrite <- (firstn_skipn n (sorted_desc snd c)), map_app in Hs.
  apply NoDup_app_remove_r in Hs. exact Hs.
Qed.

(** An entry that [most_common] leaves out was crowded out: the list is
    full and none of its entries has a smaller count. *)
Lemma most_common_left_out (n : nat) c (y : K * Z) :
  In y c -> ~ In y (most_common n c) ->
  length (most_common n c) = n
  /\ forall x, In x (most_common n c) -> snd y <= snd x.
Proof.
  unfold most_common. intros Hin Hout.
  set (s := sorted_desc snd c) in *.
  assert (Hys : In y s)
    by (eapply Permutation_in; [apply Permutation_sym, sorted_desc_perm | exact Hin]).
  rewrite <- (firstn_skipn n s) in Hys. apply in_app_or in Hys.
  destruct Hys as [Hys | Hys]; [contradiction |].
  split.
  - rewrite length_firstn. apply Nat.min_l.
    destruct (Nat.le_gt_cases n (length s)) as [Hle | Hgt]; [exact Hle |].
    rewrite skipn_all2 in Hys by lia. destruct Hys.
  - intros x Hx.
    pose proof (sorted_desc_sorted snd c) as Hs. fold s in Hs.
    rewrite <- (firstn_skipn n s) in Hs.
    exact (@sorted_app_order _ (key_ge snd) _ _ Hs x y Hx Hys).
Qed.
End TopFacts.

Section DomainFacts.
Context {rt : PyRuntime}.

Lemma url_counted_kept (u : json) (ds : list string) :
  url_counted u = Ok ds -> Forall (fun d => domain_kept d = true) ds.
Proof.
  unfold url_counted. intros H.
  inv_bind H as fb Efb. inv_bind H as x Ex. injection H as <-.
  destruct (py_truthy x); [| constructor].
  destruct (url_domain x) as [d |]; [| constructor].
  destruct (domain_kept d) eqn:E; constructor; [exact E | constructor].
Qed.

(** Every domain a reading holds passed the filter. *)
Lemma read_record_domains_kept (t : json) (r : Reading.t) :
  read_record t = Ok r ->
  Forall (fun d => domain_kept d = true) (Reading.domains r).
Proof.
  unfold read_record. intros H.
  inv_bind H as tw Etw. inv_bind H as dt Edt.
  inv_bind H as text Et. inv_bind H as hm Ehm. inv_bind H as hs Ehs.
  inv_bind H as ms Ems.
  destruct (forallb py_hashable ms); [| discriminate H].
  inv_bind H as urls Eu. inv_bind H as us Eus. inv_bind H as cs Ecs.
  inv_bind H as lang El.
  destruct (py_hashable lang); [| discriminate H].
  inv_bind H as fav Ef. inv_bind H as rtc Er. injection H as <-. simpl.
  apply mapM_Ok in Ecs. clear - Ecs.
  induction Ecs as [| u ds us cs Hu _ IH]; simpl.
  - constructor.
  - apply Forall_app. split; [eapply url_counted_kept; exact Hu | exact IH].
Qed.

Lemma read_all_domains_kept (tweets : list json) (rs : list Reading.t) :
  read_all tweets = Ok rs ->
  Forall (fun d => domain_kept d = true) (flat_map Reading.domains rs).
Proof.
  intros H. apply mapM_Ok in H.
  induction H as [| t r ts rs' Hr _ IH]; simpl.
  - constructor.
  - apply Forall_app. split; [eapply read_record_domains_kept; exact Hr | exact IH].
Qed.
End DomainFacts.

(** X6.  In the report of a successful run, [top_domains] is the 50
    highest-count entries of the counter of counted domains, ties in
    first-seen order; every domain it lists is non-empty, contains neither
    ["twitter.com"] nor ["t.co"], and is listed with the number of times it
    was counted. *)
Theorem top_domains_ranking :
  forall (rt : PyRuntime) (tweets : list json) (out : Out.t),
    process_records tweets = Ok out ->
    exists rs,
      read_all tweets = Ok rs
      /\ Out.top_domains out
         = top_n_spec 50 (tally (flat_map Reading.domains rs))
      /\ forall d c,
          In (d, c) (Out.top_domains out) ->
          d <> "" /\ str_contains "twitter.com" d = false
          /\ str_contains "t.co" d = false
          /\ c = occurrences d (flat_map Reading.domains rs) /\ 1 <= c.
Proof.
  intros rt tweets out H.
  destruct (process_records_readings _ H) as (rs & Hrs & _ & Hagg).
  apply process_records_inv in H. destruct H as (a & range & Ha & ->).
  rewrite Hagg in Ha. injection Ha as <-.
  destruct (counted_tables rs) as (_ & Hd & _).
  exists rs. split; [exact Hrs |]. cbv zeta. cbn [Out.top_domains].
  rewrite Hd. split.
  - apply most_common_top_n.
  - intros d c Hin. apply most_common_In in Hin.
    apply tally_entry in Hin. destruct Hin as (Hobs & Hc & Hpos).
    pose proof (read_all_domains_kept _ Hrs) as Hkept.
    rewrite Forall_forall in Hkept. specialize (Hkept d Hobs).
    apply domain_kept_iff in Hkept. tauto.
Qed.

(** X7.  In the report of a successful run, every entry of [top_hashtags]
    is an observed hashtag with the exact number of its occurrences, no
    hashtag is listed twice, and an observed hashtag is left out only when
    the list holds 50 entries none of which has a smaller count. *)
Theorem top_hashtags_entries :
  forall (rt : PyRuntime) (tweets : list json) (out : Out.t),
    process_records tweets = Ok out ->
    let obs := observed_hashtags tweets in
    (forall h c, In (h, c) (Out.top_hashtags out) ->
                 In h obs /\ c = occurrences h obs /\ 1 <= c)
    /\ NoDup (map fst (Out.top_hashtags out))
    /\ (forall h, In h obs -> ~ In h (map fst (Out.top_hashtags out)) ->
                  length (Out.top_hashtags out) = 50%nat
                  /\ forall h' c', In (h', c') (Out.top_hashtags out) ->
                                   occurrences h obs <= c').
Proof.
  intros rt tweets out H obs.
  apply process_records_inv in H. destruct H as (a & range & Ha & ->).
  cbv zeta. simpl. rewrite (aggregate_all_hashtags _ Ha). fold obs.
  split; [| split].
  - intros h c Hin. apply most_common_In in Hin. apply tally_entry. exact Hin.
  - apply most_common_keys_NoDup. rewrite tally_keys. apply first_seen_NoDup.
  - intros h Hobs Hout.
    assert (Hin : In (h, occurrences h obs) (tally obs)).
    { unfold tally. apply in_map_iff. exists h.
      split; [reflexivity | apply first_seen_In; exact Hobs]. }
    destruct (most_common_left_out 50 _ _ Hin) as [Hlen Hle].
    + intros Hc. apply Hout. apply (in_map fst) in Hc. exact Hc.
    + split; [exact Hlen |]. intros h' c' Hc'. exact (Hle _ Hc').
Qed.

(** ** The top tweets and the date range *)

Lemma str_take_length (n : nat) (s : string) :
  (String.length (str_take n s) <= n)%nat.
Proof.
  revert s. induction n as [| n IH]; intros s; simpl.
  - apply Nat.le_refl.
  - destruct s as [| c s]; simpl; [apply Nat.le_0_l |].
    apply le_n_S. apply IH.
Qed.

Lemma sorted_map {A B} (f : A -> B) (R : A -> A -> Prop)
  (R' : B -> B -> Prop) (l : list A) :
  (forall x y, R x y -> R' (f x) (f y)) ->
  StronglySorted R l -> StronglySorted R' (map f l).
Proof.
  intros HR. induction 1 as [| x l Hs IH Hx]; simpl; constructor.
  - exact IH.
  - rewrite Forall_forall in Hx |- *. intros y Hy.
    apply in_map_iff in Hy. destruct Hy as (z & <- & Hz).
    apply HR. apply Hx. exact Hz.
Qed.

Lemma sorted_desc_head {A} (key : A -> Z) (l : list A) (x : A) (s : list A) :
  sorted_desc key l = x :: s -> forall y, In y l -> key y <= key x.
Proof.
  intros Hs y Hy.
  pose proof (sorted_desc_sorted key l) as Hsorted. rewrite Hs in Hsorted.
  assert (Hin : In y (x :: s)).
  { rewrite <- Hs. eapply Permutation_in;
      [apply Permutation_sym, sorted_desc_perm | exact Hy]. }
  destruct Hin as [<- | Hin]; [apply Z.le_refl |].
  inversion Hsorted as [| x' s' _ Hx]; subst.
  rewrite Forall_forall in Hx. exact (Hx y Hin).
Qed.

Section RecordFacts.
Context {rt : PyRuntime}.

(** The date, the month and the year of a reading are those of its
    creation time, and its text is cut at 200 characters. *)
Lemma read_record_fields (t : json) (r : Reading.t) :
  read_record t = Ok r ->
  Reading.date r = strftime (Reading.when r) "%Y-%m-%d"
  /\ Reading.month r = strftime (Reading.when r) "%Y-%m"
  /\ Reading.year r = str_of_int (dt_year (Reading.when r))
  /\ (String.length (Reading.text r) <= 200)%nat.
Proof.
  unfold read_record. set (cut := str_take 200). intros H.
  inv_bind H as tw Etw. inv_bind H as dt Edt.
  inv_bind H as text Et. inv_bind H as hm Ehm. inv_bind H as hs Ehs.
  inv_bind H as ms Ems.
  destruct (forallb py_hashable ms); [| discriminate H].
  inv_bind H as urls Eu. inv_bind H as us Eus. inv_bind H as cs Ecs.
  inv_bind H as lang El.
  destruct (py_hashable lang); [| discriminate H].
  inv_bind H as fav Ef. inv_bind H as rtc Er. injection H as <-.
  cbn [Reading.date Reading.month Reading.year Reading.when Reading.text].
  repeat split. subst cut. apply str_take_length.
Qed.

Lemma read_all_In (tweets : list json) (rs : list Reading.t) (r : Reading.t) :
  read_all tweets = Ok rs -> In r rs ->
  exists t, In t tweets /\ read_record t = Ok r.
Proof.
  intros H. apply mapM_Ok in H.
  induction H as [| t r' ts rs' Hr _ IH]; intros Hin.
  - destruct Hin.
  - destruct Hin as [<- | Hin].
    + exists t. split; [left; reflexivity | exact Hr].
    + destruct (IH Hin) as (t0 & Ht0 & Hr0).
      exists t0. split; [right; exact Ht0 | exact Hr0].
Qed.

Lemma read_all_of (tweets : list json) (rs : list Reading.t) (t : json)
  (r : Reading.t) :
  read_all tweets = Ok rs -> In t tweets -> read_record t = Ok r -> In r rs.
Proof.
  intros H. apply mapM_Ok in H.
  induction H as [| t' r' ts rs' Hr _ IH]; intros Hin Ht.
  - destruct Hin.
  - destruct Hin as [<- | Hin].
    + rewrite Hr in Ht. injection Ht as <-. left. reflexivity.
    + right. apply IH; assumption.
Qed.

Lemma top_ranks (score : Reading.t -> Z) (krec : Rec.t -> Z)
  (shown : Top.t -> Z) (tweets : list json) (rs : list Reading.t) :
  read_all tweets = Ok rs -> rs <> [] ->
  (forall r, krec (projection r) = score r) ->
  (forall x, shown (top_entry x) = krec x) ->
  ranks_records score shown tweets
    (map top_entry (firstn 20 (sorted_desc krec (map projection rs)))).
Proof.
  intros Hrs Hne Hscore Hshown.
  set (s := sorted_desc krec (map projection rs)).
  assert (Hperm : Permutation s (map projection rs))
    by apply sorted_desc_perm.
  split; [| split; [| split]].
  - rewrite length_map, length_firstn, (Permutation_length Hperm), length_map.
    rewrite (@read_all_length _ tweets rs Hrs). reflexivity.
  - apply (sorted_map top_entry (R:=key_ge krec)).
    + intros x y Hxy. rewrite !Hshown. exact Hxy.
    + apply firstn_sorted. apply sorted_desc_sorted.
  - intros e He. apply in_map_iff in He. destruct He as (x & <- & Hx).
    apply In_firstn in Hx. apply (Permutation_in _ Hperm) in Hx.
    apply in_map_iff in Hx. destruct Hx as (r & <- & Hr).
    destruct (@read_all_In tweets rs r Hrs Hr) as (t & Ht & Hread).
    split.
    + simpl. apply (@read_record_fields t r Hread).
    + exists t, r. repeat split; try assumption.
      rewrite Hshown. apply Hscore.
  - destruct s as [| x s'] eqn:Es.
    + apply Permutation_nil in Hperm. destruct rs; [contradiction |].
      discriminate Hperm.
    + exists (top_entry x), (map top_entry (firstn 19 s')).
      split; [reflexivity |].
      intros t r Ht Hread. rewrite Hshown, <- Hscore.
      apply (@sorted_desc_head _ krec (map projection rs) x s' Es).
      apply in_map. eapply read_all_of; eassumption.
Qed.
End RecordFacts.

(** X8.  In the report of a successful run, [top_tweets_by_favorites] holds
    20 entries (as many as there are records when there are fewer), sorted
    by favorite count, the highest first; each entry shows the date, the
    first 200 characters of the text and the two counts of one input
    record, and the first entry has the highest favorite count of all
    records.  [top_tweets_by_retweets] is the same ranking by retweet
    count. *)
Theorem top_tweets_rank_records :
  forall (rt : PyRuntime) (tweets : list json) (out : Out.t),
    process_records tweets = Ok out ->
    ranks_records Reading.favorites Top.favorites tweets
      (Out.top_tweets_by_favorites out)
    /\ ranks_records Reading.retweets Top.retweets tweets
         (Out.top_tweets_by_retweets out).
Proof.
  intros rt tweets out H.
  destruct (process_records_readings _ H) as (rs & Hrs & Hlen & Hagg).
  assert (Hne : rs <> []).
  { intros ->. destruct tweets; [discriminate H | discriminate Hlen]. }
  apply process_records_inv in H. destruct H as (a & range & Ha & ->).
  rewrite Hagg in Ha. injection Ha as <-.
  destruct (counted_tables rs) as (_ & _ & _ & _ & _ & _ & Hrec & _).
  cbv zeta. cbn [Out.top_tweets_by_favorites Out.top_tweets_by_retweets].
  rewrite Hrec. split; apply top_ranks; auto.
Qed.

Section DateFacts.
Context {rt : PyRuntime}.

(** The ends of the sorted dates are an earliest and a latest date. *)
Lemma date_range_ends (dates : list datetime) (range : string * string) :
  date_range_of (sorted_asc dt_instant dates) = Ok range ->
  exists first last,
    In first dates /\ In last dates
    /\ range = (strftime first "%Y-%m-%d", strftime last "%Y-%m-%d")
    /\ forall d, In d dates ->
                 dt_instant first <= dt_instant d <= dt_instant last.
Proof.
  unfold sorted_asc. set (key := fun x => - dt_instant x).
  intros H.
  pose proof (sorted_desc_perm key dates) as Hperm.
  pose proof (sorted_desc_sorted key dates) as Hsorted.
  destruct (sorted_desc key dates) as [| d0 ds] eqn:Es; [discriminate H |].
  simpl in H. injection H as <-.
  set (dl := last (d0 :: ds) d0).
  assert (Hsplit : d0 :: ds = (removelast (d0 :: ds) ++ [dl])%list)
    by (apply app_removelast_last; discriminate).
  assert (Hin : forall d, In d (d0 :: ds) <-> In d dates).
  { intros d. split; intros Hd.
    - eapply Permutation_in; [exact Hperm | exact Hd].
    - eapply Permutation_in; [apply Permutation_sym; exact Hperm | exact Hd]. }
  exists d0, dl. split; [apply Hin; left; reflexivity |].
  split; [apply Hin; rewrite Hsplit; apply in_or_app; right; left; reflexivity |].
  split; [reflexivity |].
  intros d Hd. apply Hin in Hd. split.
  - assert (Hle : key d <= key d0)
      by (apply (@sorted_desc_head _ key dates d0 ds Es); apply Hin; exact Hd).
    unfold key in Hle. lia.
  - rewrite Hsplit in Hd, Hsorted. apply in_app_or in Hd.
    destruct Hd as [Hd | [<- | []]]; [| apply Z.le_refl].
    assert (Hle : key_ge key d dl).
    { apply (@sorted_app_order _ (key_ge key) _ _ Hsorted);
        [exact Hd | left; reflexivity]. }
    unfold key_ge, key in Hle. lia.
Qed.
End DateFacts.

(** X9.  In the report of a successful run, the start of [date_range] is
    the date of a record created no later than any other, and its end the
    date of a record created no earlier than any other, creation times
    being compared as instants. *)
Theorem date_range_spans_records :
  forall (rt : PyRuntime) (tweets : list json) (out : Out.t),
    process_records tweets = Ok out ->
    exists rs first last,
      read_all tweets = Ok rs
      /\ In first rs /\ In last rs
      /\ Out.date_range out = (Reading.date first, Reading.date last)
      /\ forall r, In r rs ->
                   dt_instant (Reading.when first)
                   <= dt_instant (Reading.when r)
                   <= dt_instant (Reading.when last).
Proof.
  intros rt tweets out H.
  destruct (process_records_readings _ H) as (rs & Hrs & _ & _).
  exists rs. unfold process_records, build_output in H.
  inv_bind H as a Ea. inv_bind H as dates Ed. inv_bind H as range Er.
  injection H as <-. cbn [Out.date_range].
  rewrite (dates_of_readings _ Hrs) in Ed. injection Ed as <-.
  apply date_range_ends in Er.
  destruct Er as (d1 & d2 & H1 & H2 & -> & Hall).
  apply in_map_iff in H1. destruct H1 as (r1 & <- & Hr1).
  apply in_map_iff in H2. destruct H2 as (r2 & <- & Hr2).
  exists r1, r2. split; [exact Hrs | split; [exact Hr1 | split; [exact Hr2 |]]].
  split.
  - destruct (@read_all_In rt tweets rs r1 Hrs Hr1) as (t1 & _ & Ht1).
    destruct (@read_all_In rt tweets rs r2 Hrs Hr2) as (t2 & _ & Ht2).
    rewrite (proj1 (@read_record_fields rt t1 r1 Ht1)).
    rewrite (proj1 (@read_record_fields rt t2 r2 Ht2)). reflexivity.
  - intros r Hr. apply Hall. apply in_map. exact Hr.
Qed.

(** ** Counters of any hashable key *)

Section CounterFacts.
Context {K : Type}.
Variable eqb : K -> K -> bool.
Implicit Types (c : Counter K).

Lemma dict_set_sum (k : K) (v : Z) c :
  sum_by snd (dict_set eqb k v c) = sum_by snd c - counter_get eqb k c + v.
Proof.
  unfold counter_get. induction c as [| [k' v'] c IH]; simpl.
  - lia.
  - destruct (eqb k' k); simpl.
    + lia.
    + rewrite IH. lia.
Qed.

(** [c[k] += 1] adds one to the sum of the counts. *)
Lemma counter_incr_sum (k : K) c :
  sum_by snd (counter_incr eqb k c) = sum_by snd c + 1.
Proof.
  unfold counter_incr. rewrite dict_set_sum. lia.
Qed.

Lemma counter_incr_positive (k : K) c :
  Forall (fun e => 1 <= snd e) c ->
  Forall (fun e => 1 <= snd e) (counter_incr eqb k c).
Proof.
  unfold counter_incr, counter_get. intros H.
  assert (Hget : 0 <= match assoc eqb k c with Some n => n | None => 0 end).
  { clear - H. induction H as [| [k' v'] c Hv _ IH]; simpl; [lia |].
    destruct (eqb k' k); [simpl in Hv; lia | exact IH]. }
  revert Hget. generalize (match assoc eqb k c with Some n => n | None => 0 end).
  intros g Hg. induction H as [| [k' v'] c Hv Hc IH]; simpl.
  - constructor; [simpl; lia | constructor].
  - destruct (eqb k' k); constructor; simpl; try lia; assumption.
Qed.

Lemma counter_fold (l : list K) c :
  Forall (fun e => 1 <= snd e) c ->
  let c' := fold_left (fun c k => counter_incr eqb k c) l c in
  sum_by snd c' = sum_by snd c + Z.of_nat (length l)
  /\ Forall (fun e => 1 <= snd e) c'.
Proof.
  revert c. induction l as [| k l IH]; intros c Hc; cbn [fold_left].
  - simpl. split; [lia | exact Hc].
  - destruct (IH (counter_incr eqb k c) (counter_incr_positive k Hc))
      as [Hs Hp].
    split; [| exact Hp]. cbv zeta in Hs. rewrite Hs, counter_incr_sum.
    cbn [length]. lia.
Qed.
End CounterFacts.

Lemma sum_by_perm {A} (f : A -> Z) (l l' : list A) :
  Permutation l l' -> sum_by f l = sum_by f l'.
Proof.
  induction 1; simpl; lia.
Qed.

Lemma sum_by_nonneg {A} (f : A -> Z) (l : list A) :
  Forall (fun x => 0 <= f x) l -> 0 <= sum_by f l.
Proof.
  induction 1 as [| x l Hx _ IH]; [apply Z.le_refl |].
  rewrite sum_by_cons. lia.
Qed.

Lemma sum_by_firstn {A} (f : A -> Z) (n : nat) (l : list A) :
  Forall (fun x => 0 <= f x) l -> sum_by f (firstn n l) <= sum_by f l.
Proof.
  intros H. revert n. induction H as [| x l Hx Hl IH]; intros [| n];
    cbn [firstn]; rewrite ?sum_by_cons.
  - apply Z.le_refl.
  - apply Z.le_refl.
  - pose proof (@sum_by_nonneg _ f l Hl). change (sum_by f []) with 0. lia.
  - specialize (IH n). lia.
Qed.

(** X10.  In the report of a successful run, every record is counted under
    one language: [languages] has at most 20 entries, each with a count of
    at least 1; the counts sum to [total_tweets] when fewer than 20
    languages are listed, and to no more than [total_tweets] otherwise. *)
Theorem languages_count_every_record :
  forall (rt : PyRuntime) (tweets : list json) (out : Out.t),
    process_records tweets = Ok out ->
    (length (Out.languages out) <= 20)%nat
    /\ Forall (fun e => 1 <= snd e) (Out.languages out)
    /\ sum_by snd (Out.languages out) <= Out.total_tweets out
    /\ ((length (Out.languages out) < 20)%nat ->
        sum_by snd (Out.languages out) = Out.total_tweets out).
Proof.
  intros rt tweets out H.
  destruct (process_records_readings _ H) as (rs & Hrs & _ & Hagg).
  apply process_records_inv in H. destruct H as (a & range & Ha & ->).
  rewrite Hagg in Ha. injection Ha as <-.
  destruct (counted_tables rs) as (_ & _ & _ & _ & _ & _ & Hrec & Hl & _).
  cbv zeta. cbn [Out.languages Out.total_tweets]. rewrite Hrec, Hl, length_map.
  destruct (counter_fold py_key_eqb (map Reading.lang rs) (c:=[]))
    as [Hsum Hpos]; [constructor |].
  cbv zeta in Hsum, Hpos. rewrite length_map in Hsum. simpl in Hsum.
  set (c := fold_left (fun c k => counter_incr py_key_eqb k c)
              (map Reading.lang rs) []) in *.
  assert (Hperm : Permutation (sorted_desc snd c) c) by apply sorted_desc_perm.
  assert (Hpos' : Forall (fun e : json * Z => 1 <= snd e) (sorted_desc snd c)).
  { rewrite Forall_forall in Hpos |- *. intros e He. apply Hpos.
    eapply Permutation_in; [exact Hperm | exact He]. }
  unfold most_common. split; [apply firstn_le_length | split; [| split]].
  - rewrite Forall_forall in Hpos' |- *. intros e He. apply Hpos'.
    apply In_firstn in He. exact He.
  - rewrite <- Hsum, <- (sum_by_perm snd Hperm). apply sum_by_firstn.
    eapply Forall_impl; [| exact Hpos']. simpl. intros; lia.
  - intros Hlt. rewrite length_firstn in Hlt.
    rewrite firstn_all2 by lia.
    rewrite (sum_by_perm snd Hperm). exact Hsum.
Qed.

(** ** What URL parsing can change *)

Lemma insert_desc_agree {A} (R : A -> A -> Prop) (key : A -> Z)
  (x y : A) (l1 l2 : list A) :
  (forall a b, R a b -> key a = key b) ->
  R x y -> Forall2 R l1 l2 ->
  Forall2 R (insert_desc key x l1) (insert_desc key y l2).
Proof.
  intros Hkey Hxy H. induction H as [| a b l1 l2 Hab Hl IH]; simpl.
  - constructor; [exact Hxy | constructor].
  - rewrite (Hkey _ _ Hxy), (Hkey _ _ Hab).
    destruct (key y <? key b); constructor; auto.
Qed.

(** Lists that agree element by element, keys included, sort alike. *)
Lemma sorted_desc_agree {A} (R : A -> A -> Prop) (key : A -> Z)
  (l1 l2 : list A) :
  (forall a b, R a b -> key a = key b) ->
  Forall2 R l1 l2 -> Forall2 R (sorted_desc key l1) (sorted_desc key l2).
Proof.
  intros Hkey. induction 1 as [| a b l1 l2 Hab Hl IH]; simpl.
  - constructor.
  - apply insert_desc_agree; assumption.
Qed.

Lemma firstn_agree {A} (R : A -> A -> Prop) (n : nat) (l1 l2 : list A) :
  Forall2 R l1 l2 -> Forall2 R (firstn n l1) (firstn n l2).
Proof.
  intros H. revert n. induction H as [| a b l1 l2 Hab Hl IH]; intros [| n];
    simpl; constructor; auto.
Qed.

Lemma map_agree {A B} (R : A -> A -> Prop) (f : A -> B) (l1 l2 : list A) :
  (forall a b, R a b -> f a = f b) ->
  Forall2 R l1 l2 -> map f l1 = map f l2.
Proof.
  intros Hf. induction 1 as [| a b l1 l2 Hab Hl IH]; simpl.
  - reflexivity.
  - rewrite (Hf _ _ Hab), IH. reflexivity.
Qed.

Lemma count_if_agree {A} (R : A -> A -> Prop) (p : A -> bool)
  (l1 l2 : list A) :
  (forall a b, R a b -> p a = p b) ->
  Forall2 R l1 l2 -> count_if p l1 = count_if p l2.
Proof.
  intros Hp. induction 1 as [| a b l1 l2 Hab Hl IH].
  - reflexivity.
  - rewrite !count_if_cons, (Hp _ _ Hab), IH. reflexivity.
Qed.

Lemma absorb_agree (r1 r2 : Reading.t) (a1 a2 : Acc.t) :
  same_but_domains r1 r2 -> acc_agree a1 a2 ->
  acc_agree (absorb r1 a1) (absorb r2 a2).
Proof.
  intros (Hw & Hy & Hm & Hd & Ht & Hrt & Hmed & Hh & Hme & Hl & Hf & Hr)
         (A1 & A2 & A3 & A4 & A5 & A6 & A7 & A8).
  unfold acc_agree, absorb. simpl.
  rewrite Hy, Hm, Hrt, Hmed, Hh, Hme, Hl, Hf, Hr, A1, A2, A3, A4, A5, A6, A7.
  repeat split.
  apply Forall2_app; [exact A8 |].
  constructor; [| constructor].
  unfold rec_agree, top_entry, projection. simpl.
  rewrite Hd, Ht, Hf, Hr, Hrt, Hmed. repeat split.
Qed.

Lemma counted_agree (rs1 rs2 : list Reading.t) :
  Forall2 same_but_domains rs1 rs2 -> acc_agree (counted rs1) (counted rs2).
Proof.
  unfold counted. intros H.
  assert (Hstart : acc_agree Acc.empty Acc.empty)
    by (repeat split; constructor).
  revert Hstart. generalize Acc.empty at 1 3. generalize Acc.empty.
  induction H as [| r1 r2 rs1 rs2 Hr _ IH]; intros a2 a1 Ha; simpl.
  - exact Ha.
  - apply IH. apply absorb_agree; assumption.
Qed.

Section TwoParsers.
Variable sp : string -> string -> option datetime.
Variable sf : datetime -> string -> string.
Variable lo : string -> string.
Variable jl : string -> option json.
Variables u1 u2 : string -> option string.

Local Abbreviation rt1 := (Build_PyRuntime sp sf lo u1 jl).
Local Abbreviation rt2 := (Build_PyRuntime sp sf lo u2 jl).

Lemma url_counted_shape (u : json) :
  match @url_counted rt1 u, @url_counted rt2 u with
  | Ok _, Ok _ => True
  | Err e1, Err e2 => e1 = e2
  | _, _ => False
  end.
Proof.
  unfold url_counted.
  destruct (py_get u "url" (JStr "")) as [fb | e]; simpl; [| reflexivity].
  destruct (py_get u "expanded_url" fb) as [x | e]; simpl; [| reflexivity].
  exact I.
Qed.

Lemma urls_counted_shape (us : list json) :
  match mapM (@url_counted rt1) us, mapM (@url_counted rt2) us with
  | Ok _, Ok _ => True
  | Err e1, Err e2 => e1 = e2
  | _, _ => False
  end.
Proof.
  induction us as [| u us IH]; simpl; [exact I |].
  pose proof (url_counted_shape u) as Hu.
  destruct (@url_counted rt1 u), (@url_counted rt2 u); simpl;
    try contradiction; try exact Hu.
  destruct (mapM (@url_counted rt1) us), (mapM (@url_counted rt2) us); simpl;
    try contradiction; try exact IH.
Qed.

(** With another URL parser a record is read or refused alike, and read
    with the same content but for its domains. *)
Lemma read_record_shape (t : json) :
  match @read_record rt1 t, @read_record rt2 t with
  | Ok r1, Ok r2 => same_but_domains r1 r2
  | Err e1, Err e2 => e1 = e2
  | _, _ => False
  end.
Proof.
  unfold read_record.
  destruct (py_getitem t "tweet") as [tw | e]; simpl; [| reflexivity].
  change (@created_at rt2 tw) with (@created_at rt1 tw).
  destruct (@created_at rt1 tw) as [dt | e]; simpl; [| reflexivity].
  destruct (full_text tw) as [text | e]; simpl; [| reflexivity].
  destruct (has_media_of tw) as [hm | e]; simpl; [| reflexivity].
  change (@hashtags_of rt2 tw) with (@hashtags_of rt1 tw).
  destruct (@hashtags_of rt1 tw) as [hs | e]; simpl; [| reflexivity].
  destruct (mentions_of tw) as [ms | e]; simpl; [| reflexivity].
  destruct (forallb py_hashable ms); [| reflexivity].
  destruct (entities_get tw "urls") as [urls | e]; simpl; [| reflexivity].
  destruct (py_iter urls) as [us | e]; simpl; [| reflexivity].
  pose proof (urls_counted_shape us) as Hus.
  destruct (mapM (@url_counted rt1) us), (mapM (@url_counted rt2) us); simpl;
    try contradiction; try exact Hus.
  destruct (py_get tw "lang" (JStr "und")) as [lang | e]; simpl;
    [| reflexivity].
  destruct (py_hashable lang); [| reflexivity].
  destruct (int_field tw "favorite_count") as [fav | e]; simpl;
    [| reflexivity].
  destruct (int_field tw "retweet_count") as [rtc | e]; simpl;
    [| reflexivity].
  repeat split.
Qed.

Lemma read_all_shape (tweets : list json) :
  match @read_all rt1 tweets, @read_all rt2 tweets with
  | Ok rs1, Ok rs2 => Forall2 same_but_domains rs1 rs2
  | Err e1, Err e2 => e1 = e2
  | _, _ => False
  end.
Proof.
  unfold read_all. induction tweets as [| t ts IH]; simpl; [constructor |].
  pose proof (read_record_shape t) as Ht.
  destruct (@read_record rt1 t), (@read_record rt2 t); simpl;
    try contradiction; try exact Ht.
  destruct (mapM (@read_record rt1) ts), (mapM (@read_record rt2) ts); simpl;
    try contradiction; try exact IH.
  constructor; assumption.
Qed.

Lemma reports_agree (tweets : list json) (a1 a2 : Acc.t) :
  acc_agree a1 a2 ->
  match @build_output rt1 tweets a1, @build_output rt2 tweets a2 with
  | Ok o1, Ok o2 => agree_but_domains o1 o2
  | Err e1, Err e2 => e1 = e2
  | _, _ => False
  end.
Proof.
  intros (A1 & A2 & A3 & A4 & A5 & A6 & A7 & A8).
  unfold build_output.
  change (@sorted_dates rt2 tweets) with (@sorted_dates rt1 tweets).
  destruct (@sorted_dates rt1 tweets) as [dates | e]; cbn [bind]; [| reflexivity].
  change (@date_range_of rt2 dates) with (@date_range_of rt1 dates).
  destruct (@date_range_of rt1 dates) as [range | e]; cbn [bind]; [| reflexivity].
  assert (Hentry : forall x y, rec_agree x y -> top_entry x = top_entry y)
    by (intros x y H; apply H).
  assert (Hfav : forall x y, rec_agree x y -> Rec.favorites x = Rec.favorites y)
    by (intros x y [H _]; exact (f_equal Top.favorites H)).
  assert (Hrtc : forall x y, rec_agree x y -> Rec.retweets x = Rec.retweets y)
    by (intros x y [H _]; exact (f_equal Top.retweets H)).
  assert (Horig : count_if (fun r => negb (Rec.is_retweet r)) (Acc.records a1)
                  = count_if (fun r => negb (Rec.is_retweet r)) (Acc.records a2)).
  { apply (count_if_agree (R:=rec_agree)); [| exact A8].
    intros x y (_ & H & _). rewrite H. reflexivity. }
  unfold agree_but_domains.
  cbn [Out.total_tweets Out.original_tweets Out.retweets Out.with_media
         Out.unique_hashtags Out.unique_mentions Out.date_range
         Out.top_hashtags Out.top_mentions Out.languages Out.monthly_volume
         Out.yearly_volume Out.hashtags_by_year Out.mentions_by_year
         Out.top_tweets_by_favorites Out.top_tweets_by_retweets].
  rewrite A1, A2, A3, A4, A5, A6, A7, Horig, (Forall2_length A8).
  repeat split.
  - apply (count_if_agree (R:=rec_agree)); [| exact A8].
    intros x y (_ & _ & H). exact H.
  - apply (map_agree (R:=rec_agree)); [exact Hentry |].
    apply firstn_agree. apply sorted_desc_agree; assumption.
  - apply (map_agree (R:=rec_agree)); [exact Hentry |].
    apply firstn_agree. apply sorted_desc_agree; assumption.
Qed.

(** The run with one URL parser and with another. *)
Lemma process_records_shape (tweets : list json) :
  match @process_records rt1 tweets, @process_records rt2 tweets with
  | Ok o1, Ok o2 => agree_but_domains o1 o2
  | Err e1, Err e2 => e1 = e2
  | _, _ => False
  end.
Proof.
  rewrite !process_records_read.
  pose proof (read_all_shape tweets) as Hr.
  destruct (@read_all rt1 tweets) as [rs1 | e1],
           (@read_all rt2 tweets) as [rs2 | e2]; simpl;
    try contradiction; try exact Hr.
  apply reports_agree. apply counted_agree. exact Hr.
Qed.
End TwoParsers.

(** X11.  What [urlparse] does, raising included, never makes the run fail
    or succeed and never changes the error: two runtimes that differ only
    in [urlparse] fail alike, and when they succeed their reports differ at
    most in [with_urls], [top_domains] and [domains_by_year]. *)
Theorem urlparse_only_feeds_domains :
  forall (sp : string -> string -> option datetime)
         (sf : datetime -> string -> string) (lo : string -> string)
         (jl : string -> option json) (u1 u2 : string -> option string)
         (tweets : list json),
    (forall e,
        @process_records (Build_PyRuntime sp sf lo u1 jl) tweets = Err e <->
        @process_records (Build_PyRuntime sp sf lo u2 jl) tweets = Err e)
    /\ (forall o1,
           @process_records (Build_PyRuntime sp sf lo u1 jl) tweets = Ok o1 ->
           exists o2,
             @process_records (Build_PyRuntime sp sf lo u2 jl) tweets = Ok o2
             /\ agree_but_domains o1 o2).
Proof.
  intros sp sf lo jl u1 u2 tweets.
  pose proof (process_records_shape sp sf lo jl u1 u2 tweets) as H.
  destruct (@process_records (Build_PyRuntime sp sf lo u1 jl) tweets)
    as [o1 | e1],
    (@process_records (Build_PyRuntime sp sf lo u2 jl) tweets) as [o2 | e2];
    try contradiction.
  - split; [intros e; split; discriminate |].
    intros o Ho. injection Ho as <-. exists o2. split; [reflexivity | exact H].
  - subst e2. split; [reflexivity | discriminate].
Qed.

(** * Properties of the archive locator *)

(** Induction on directories: a property holds of a directory when it
    holds of its subdirectories. *)
Lemma dirtree_induction (P : dirtree -> Prop) :
  (forall files subdirs,
      Forall (fun nd => P (snd nd)) subdirs -> P (Dir files subdirs)) ->
  forall t, P t.
Proof.
  intros H.
  exact (fix F (t : dirtree) : P t :=
           match t with
           | Dir files subdirs =>
               H files subdirs
                 ((fix G (ds : list (string * dirtree))
                     : Forall (fun nd => P (snd nd)) ds :=
                     match ds with
                     | [] => Forall_nil _
                     | nd :: ds' => Forall_cons nd (F (snd nd)) (G ds')
                     end) subdirs)
           end).
Qed.

(** [find] returns the first element that passes the test. *)
Lemma find_first {A} (p : A -> bool) (l : list A) (x : A) :
  find p l = Some x <->
  exists pre post,
    l = (pre ++ x :: post)%list /\ p x = true
    /\ forall y, In y pre -> p y = false.
Proof.
  induction l as [| a l IH]; simpl.
  - split; [discriminate |].
    intros (pre & post & H & _). destruct pre; discriminate H.
  - destruct (p a) eqn:Ea.
    + split.
      * intros H. injection H as <-. exists [], l.
        split; [reflexivity | split; [exact Ea | intros y []]].
      * intros (pre & post & H & Hx & Hpre).
        destruct pre as [| b pre]; simpl in H; injection H as <- ->.
        -- reflexivity.
        -- rewrite (Hpre a (or_introl eq_refl)) in Ea. discriminate Ea.
    + rewrite IH. split.
      * intros (pre & post & -> & Hx & Hpre). exists (a :: pre), post.
        split; [reflexivity | split; [exact Hx |]].
        intros y [<- | Hy]; [exact Ea | apply Hpre; exact Hy].
      * intros (pre & post & H & Hx & Hpre).
        destruct pre as [| b pre]; simpl in H; injection H as <- ->.
        -- rewrite Hx in Ea. discriminate Ea.
        -- exists pre, post. split; [reflexivity | split; [exact Hx |]].
           intros y Hy. apply Hpre. right. exact Hy.
Qed.

Lemma has_tweets_js_In (e : string * list string * list string) :
  has_tweets_js e = true <-> In "tweets.js" (snd e).
Proof.
  unfold has_tweets_js. rewrite existsb_exists. split.
  - intros (n & Hn & He). apply String.eqb_eq in He. subst n. exact Hn.
  - intros H. exists "tweets.js". split; [exact H | apply String.eqb_refl].
Qed.

Lemma has_tweets_js_not_In (e : string * list string * list string) :
  has_tweets_js e = false <-> ~ In "tweets.js" (snd e).
Proof.
  rewrite <- has_tweets_js_In. destruct (has_tweets_js e); split.
  - discriminate.
  - intros H. exfalso. apply H. reflexivity.
  - intros _. discriminate.
  - reflexivity.
Qed.

(** X12.  [extract_archive] returns the first directory, in the top-down
    order of [os.walk], whose files include [tweets.js]; it raises its
    [FileNotFoundError] exactly when no directory of the extracted tree
    has that file; and when the file lies directly in the extraction
    directory it returns that directory, whatever else the archive holds. *)
Theorem extract_archive_first_match :
  forall (unzip : string -> string -> option dirtree) (z d : string),
    (forall root,
        extract_archive unzip z d = Located root <->
        exists tree pre dirs files post,
          unzip z d = Some tree
          /\ walk d tree = (pre ++ (root, dirs, files) :: post)%list
          /\ In "tweets.js" files
          /\ forall e, In e pre -> ~ In "tweets.js" (snd e))
    /\ (extract_archive unzip z d = NoTweetsJs <->
        exists tree,
          unzip z d = Some tree
          /\ forall e, In e (walk d tree) -> ~ In "tweets.js" (snd e))
    /\ (forall files subdirs,
           unzip z d = Some (Dir files subdirs) ->
           In "tweets.js" (map fst files) ->
           extract_archive unzip z d = Located d).
Proof.
  intros unzip z d. unfold extract_archive. split; [| split].
  - intros root. destruct (unzip z d) as [tree |].
    + destruct (find has_tweets_js (walk d tree)) as [[[r ds] fs] |] eqn:Ef.
      * apply find_first in Ef. destruct Ef as (pre & post & Hw & Hp & Hpre).
        split.
        -- intros H. injection H as <-. exists tree, pre, ds, fs, post.
           split; [reflexivity | split; [exact Hw | split]].
           ++ apply (proj1 (has_tweets_js_In _) Hp).
           ++ intros e He. apply has_tweets_js_not_In. apply Hpre. exact He.
        -- intros (tree' & pre' & ds' & fs' & post' & Ht & Hw' & Hin & Hpre').
           injection Ht as <-.
           assert (Hf : find has_tweets_js (walk d tree)
                        = Some (root, ds', fs')).
           { apply find_first. exists pre', post'.
             split; [exact Hw' | split].
             - apply has_tweets_js_In. exact Hin.
             - intros y Hy. apply has_tweets_js_not_In. apply Hpre'. exact Hy. }
           assert (Hf' : find has_tweets_js (walk d tree) = Some (r, ds, fs)).
           { apply find_first. exists pre, post. auto. }
           rewrite Hf in Hf'. injection Hf' as -> _ _. reflexivity.
      * split; [discriminate |].
        intros (tree' & pre' & ds' & fs' & post' & Ht & Hw' & Hin & _).
        injection Ht as <-.
        pose proof (find_none _ _ Ef (root, ds', fs')) as Hn.
        rewrite Hw' in Hn. specialize (Hn (in_elt _ _ _)).
        apply has_tweets_js_not_In in Hn. contradiction.
    + split; [discriminate |]. intros (tree & _ & _ & _ & _ & H & _).
      discriminate H.
  - destruct (unzip z d) as [tree |].
    + destruct (find has_tweets_js (walk d tree)) as [[[r ds] fs] |] eqn:Ef.
      * split; [discriminate |]. intros (tree' & Ht & Hall).
        injection Ht as <-. apply find_some in Ef. destruct Ef as [Hin Hp].
        apply has_tweets_js_In in Hp. exfalso. exact (Hall _ Hin Hp).
      * split; [| reflexivity]. intros _. exists tree.
        split; [reflexivity |]. intros e He.
        apply has_tweets_js_not_In. exact (find_none _ _ Ef e He).
    + split; [discriminate |]. intros (tree & H & _). discriminate H.
  - intros files subdirs Ht Hin. rewrite Ht. cbn [walk find].
    rewrite (proj2 (has_tweets_js_In (d, map fst subdirs, map fst files)) Hin).
    reflexivity.
Qed.

Lemma prefix_refl (s : string) : String.prefix s s = true.
Proof.
  induction s as [| c s IH]; simpl; [reflexivity |].
  destruct (ascii_dec c c); [exact IH | contradiction].
Qed.

Lemma prefix_app (a b : string) : String.prefix a (a ++ b) = true.
Proof.
  induction a as [| c a IH]; simpl.
  - destruct b; reflexivity.
  - destruct (ascii_dec c c); [exact IH | contradiction].
Qed.

Lemma prefix_trans (a b c : string) :
  String.prefix a b = true -> String.prefix b c = true ->
  String.prefix a c = true.
Proof.
  revert b c. induction a as [| x a IH]; intros b c Hab Hbc.
  - destruct c; reflexivity.
  - destruct b as [| y b]; [discriminate Hab |].
    destruct c as [| z c]; [discriminate Hbc |].
    simpl in *.
    destruct (ascii_dec x y) as [-> |]; [| discriminate Hab].
    destruct (ascii_dec y z) as [-> |]; [| discriminate Hbc].
    eapply IH; eassumption.
Qed.

(** Joining a name that is not absolute keeps the directory in front. *)
Lemma os_path_join_prefix (a b : string) :
  str_startswith "/" b = false ->
  str_startswith a (os_path_join a b) = true.
Proof.
  unfold os_path_join, str_startswith. intros ->.
  destruct (String.eqb_spec a "") as [-> | _].
  - destruct b; reflexivity.
  - destruct (String.eqb (str_drop (pred (String.length a)) a) "/");
      apply prefix_app.
Qed.

Lemma walk_under_top (t : dirtree) :
  plain_names t ->
  forall top e, In e (walk top t) -> str_startswith top (fst (fst e)) = true.
Proof.
  induction t as [files subdirs IH] using dirtree_induction.
  intros Hplain top e He. cbn [walk] in He. destruct He as [<- | He].
  - apply prefix_refl.
  - cbn [plain_names] in Hplain.
    induction IH as [| [name d] ds Hd _ IHds]; [destruct He |].
    destruct Hplain as (Hname & Hpd & Hrest).
    apply in_app_or in He. destruct He as [He | He].
    + apply prefix_trans with (os_path_join top name).
      * apply os_path_join_prefix. exact Hname.
      * apply (Hd Hpd). exact He.
    + apply IHds; assumption.
Qed.

(** X13.  When no directory of the extracted archive has a name starting
    with a slash, the directory [extract_archive] returns lies under the
    extraction directory: its path starts with that directory's path. *)
Theorem extract_archive_stays_inside :
  forall (unzip : string -> string -> option dirtree) (z d : string)
         (tree : dirtree) (root : string),
    unzip z d = Some tree -> plain_names tree ->
    extract_archive unzip z d = Located root ->
    str_startswith d root = true.
Proof.
  intros unzip z d tree root Ht Hplain H. unfold extract_archive in H.
  rewrite Ht in H.
  destruct (find has_tweets_js (walk d tree)) as [[[r ds] fs] |] eqn:Ef;
    [| discriminate H].
  injection H as <-. apply find_some in Ef. destruct Ef as [Hin _].
  exact (walk_under_top tree Hplain d _ Hin).
Qed.

Lemma walked_file_extracted (t : dirtree) :
  forall top root dirs names n,
    In (root, dirs, names) (walk top t) -> In n names ->
    In (os_path_join root n) (dict_keys (extracted_files top t)).
Proof.
  induction t as [files subdirs IH] using dirtree_induction.
  intros top root dirs names n Hw Hn. cbn [walk] in Hw.
  cbn [extracted_files]. unfold dict_keys. rewrite map_app.
  apply in_or_app. destruct Hw as [Hw | Hw].
  - left. injection Hw as <- _ <-. rewrite map_map. simpl.
    apply in_map_iff in Hn. destruct Hn as (f & <- & Hf).
    apply in_map_iff. exists f. split; [reflexivity | exact Hf].
  - right. induction IH as [| [name d] ds Hd _ IHds]; [destruct Hw |].
    rewrite map_app. apply in_or_app.
    apply in_app_or in Hw. destruct Hw as [Hw | Hw].
    + left. exact (Hd _ _ _ _ _ Hw Hn).
    + right. apply IHds. exact Hw.
Qed.

(** X14.  The directory [extract_archive] returns is one the aggregation
    can open: on the extracted files, [load_twitter_js] finds
    [tweets.js] in it, so that [process_tweets] is the aggregation of the
    text of an extracted file and never fails for a missing file. *)
Theorem extract_archive_then_process :
  forall (rt : PyRuntime) (unzip : string -> string -> option dirtree)
         (z d : string) (tree : dirtree) (root : string),
    unzip z d = Some tree ->
    extract_archive unzip z d = Located root ->
    exists content,
      In (os_path_join root "tweets.js", content) (extracted_files d tree)
      /\ load_twitter_js (extracted_fs d tree) (os_path_join root "tweets.js")
         = load_twitter_js_text content
      /\ process_tweets (extracted_fs d tree) root
         = (loaded <- load_twitter_js_text content ;;
            tweets <- py_iter loaded ;;
            process_records tweets).
Proof.
  intros rt unzip z d tree root Ht H. unfold extract_archive in H.
  rewrite Ht in H.
  destruct (find has_tweets_js (walk d tree)) as [[[r ds] fs] |] eqn:Ef;
    [| discriminate H].
  injection H as <-. apply find_some in Ef. destruct Ef as [Hin Hp].
  apply has_tweets_js_In in Hp.
  pose proof (walked_file_extracted tree d r ds fs "tweets.js" Hin Hp) as Hkey.
  destruct (assoc String.eqb (os_path_join r "tweets.js")
              (extracted_files d tree)) as [content |] eqn:Ea.
  - exists content. split; [apply assoc_In; exact Ea |].
    unfold process_tweets, load_twitter_js, extracted_fs. rewrite Ea.
    split; reflexivity.
  - apply assoc_None in Ea. contradiction.
Qed.

(** * Further properties of the whole run *)

(** X15.  When [process_tweets] returns a report, the records file was
    read, its text has an opening bracket, the text from the first bracket
    on parsed as JSON, the parsed value could be iterated, and the report
    is that of the records it yields; the report counts at least one
    record. *)
Theorem process_tweets_success :
  forall (rt : PyRuntime) (fs : filesystem) (data_dir : string) (out : Out.t),
    process_tweets fs data_dir = Ok out ->
    exists content pre rest loaded tweets,
      fs (os_path_join data_dir "tweets.js") = Some content
      /\ content = pre ++ String "[" rest
      /\ no_bracket pre
      /\ json_loads (String "[" rest) = Some loaded
      /\ py_iter loaded = Ok tweets
      /\ process_records tweets = Ok out
      /\ Out.total_tweets out = Z.of_nat (length tweets)
      /\ 1 <= Out.total_tweets out.
Proof.
  intros rt fs data_dir out H. unfold process_tweets in H.
  inv_bind H as loaded El. inv_bind H as tweets Et.
  unfold load_twitter_js in El.
  destruct (fs (os_path_join data_dir "tweets.js")) as [content |];
    [| discriminate El].
  unfold load_twitter_js_text in El.
  destruct (str_find_char "[" content) as [i |] eqn:Ei; [| discriminate El].
  destruct (str_find_char_split _ _ Ei) as (pre & rest & -> & Hpre).
  destruct (str_find_char_first "[" pre rest Hpre) as [Hi Hd].
  rewrite Hi in Ei. injection Ei as <-. rewrite Hd in El.
  destruct (json_loads (String "[" rest)) as [v |] eqn:Ej; [| discriminate El].
  injection El as ->.
  exists (pre ++ String "[" rest), pre, rest, loaded, tweets.
  repeat (split; [first [reflexivity | assumption] |]).
  destruct (process_records_readings _ H) as (rs & Hrs & Hlen & _).
  destruct (@report_totals rt tweets rs out Hrs H) as (Htot & _). rewrite Htot, Hlen.
  split; [reflexivity |].
  destruct tweets as [| t ts]; [discriminate H |]. cbn [length]. lia.
Qed.

(** ** Bounds on the counts *)

Lemma count_if_bounds {A} (p : A -> bool) (l : list A) :
  0 <= count_if p l <= Z.of_nat (length l).
Proof.
  unfold count_if. pose proof (filter_length_le p l). lia.
Qed.

Lemma of_year_nonempty (y : string) (rs : list Reading.t) :
  In y (map Reading.year rs) -> (1 <= length (of_year y rs))%nat.
Proof.
  intros H. apply in_map_iff in H. destruct H as (r & <- & Hr).
  assert (Hin : In r (of_year (Reading.year r) rs)).
  { unfold of_year. apply filter_In. split; [exact Hr | apply String.eqb_refl]. }
  destruct (of_year (Reading.year r) rs); [destruct Hin | simpl; lia].
Qed.

Lemma of_month_nonempty (m : string) (rs : list Reading.t) :
  In m (map Reading.month rs) -> (1 <= length (of_month m rs))%nat.
Proof.
  intros H. apply in_map_iff in H. destruct H as (r & <- & Hr).
  assert (Hin : In r (of_month (Reading.month r) rs)).
  { unfold of_month. apply filter_In. split; [exact Hr | apply String.eqb_refl]. }
  destruct (of_month (Reading.month r) rs); [destruct Hin | simpl; lia].
Qed.

(** X16.  In the report of a successful run, the counts are within
    bounds: the four derived totals lie between 0 and [total_tweets]; every
    yearly and every monthly bucket counts at least one record, and its
    originals, retweets and records with media are between 0 and its
    total. *)
Theorem counts_within_bounds :
  forall (rt : PyRuntime) (tweets : list json) (out : Out.t),
    process_records tweets = Ok out ->
    (0 <= Out.original_tweets out <= Out.total_tweets out
     /\ 0 <= Out.retweets out <= Out.total_tweets out
     /\ 0 <= Out.with_media out <= Out.total_tweets out
     /\ 0 <= Out.with_urls out <= Out.total_tweets out)
    /\ (forall y v, In (y, v) (Out.yearly_volume out) ->
                    1 <= Year.total v
                    /\ 0 <= Year.original v <= Year.total v
                    /\ 0 <= Year.retweet v <= Year.total v
                    /\ 0 <= Year.with_media v <= Year.total v)
    /\ (forall m v, In (m, v) (Out.monthly_volume out) ->
                    1 <= Month.total v
                    /\ 0 <= Month.original v <= Month.total v
                    /\ 0 <= Month.retweet v <= Month.total v).
Proof.
  intros rt tweets out H.
  destruct (process_records_readings _ H) as (rs & Hrs & _ & _).
  destruct (@report_totals rt tweets rs out Hrs H) as (Htot & Horig & Hrt & Hmedia & Hurls).
  destruct (@report_volume_tables rt tweets rs out Hrs H) as (Hy & Hm).
  split; [| split].
  - rewrite Htot, Horig, Hrt, Hmedia, Hurls.
    repeat split; apply count_if_bounds.
  - intros y v Hin. rewrite Hy in Hin. apply in_map_iff in Hin.
    destruct Hin as (k & Hk & Hkin). injection Hk as <- <-.
    apply (proj1 (first_seen_In _ _)) in Hkin.
    pose proof (of_year_nonempty _ _ Hkin) as Hne.
    unfold year_bucket. simpl.
    pose proof (count_if_bounds (fun r => negb (Reading.is_rt r))
                  (of_year k rs)).
    pose proof (count_if_bounds Reading.is_rt (of_year k rs)).
    pose proof (count_if_bounds Reading.has_media (of_year k rs)).
    lia.
  - intros m v Hin. rewrite Hm in Hin. apply in_map_iff in Hin.
    destruct Hin as (k & Hk & Hkin). injection Hk as <- <-.
    apply (proj1 (first_seen_In _ _)) in Hkin.
    pose proof (of_month_nonempty _ _ Hkin) as Hne.
    unfold month_bucket. simpl.
    pose proof (count_if_bounds (fun r => negb (Reading.is_rt r))
                  (of_month k rs)).
    pose proof (count_if_bounds Reading.is_rt (of_month k rs)).
    lia.
Qed.

(** ** Engagement counters in the sums and in the projections *)

Section UpsertFacts.
Context {V : Type}.
Implicit Types (d : list (string * V)) (k : string) (g : V -> V).

Lemma assoc_modify_same k g d :
  assoc String.eqb k (dict_modify String.eqb k g d)
  = option_map g (assoc String.eqb k d).
Proof.
  induction d as [| [k' v] d IH]; simpl; [reflexivity |].
  destruct (String.eqb k' k) eqn:E; simpl; rewrite E; [reflexivity | exact IH].
Qed.

Lemma assoc_modify_other k k' g d :
  k' <> k ->
  assoc String.eqb k' (dict_modify String.eqb k g d) = assoc String.eqb k' d.
Proof.
  intros Hne. induction d as [| [k0 v] d IH]; simpl; [reflexivity |].
  destruct (String.eqb_spec k0 k) as [-> | H0]; simpl.
  - destruct (String.eqb_spec k k') as [E | _]; [congruence | reflexivity].
  - rewrite IH. reflexivity.
Qed.

Lemma assoc_set_same k (v : V) d :
  assoc String.eqb k (dict_set String.eqb k v d) = Some v.
Proof.
  induction d as [| [k' v'] d IH]; simpl.
  - rewrite String.eqb_refl. reflexivity.
  - destruct (String.eqb k' k) eqn:E; simpl; rewrite E; [reflexivity | exact IH].
Qed.

Lemma assoc_set_other k k' (v : V) d :
  k' <> k ->
  assoc String.eqb k' (dict_set String.eqb k v d) = assoc String.eqb k' d.
Proof.
  intros Hne. induction d as [| [k0 v0] d IH]; simpl.
  - destruct (String.eqb_spec k k') as [E | _]; [congruence | reflexivity].
  - destruct (String.eqb_spec k0 k) as [-> | H0]; simpl.
    + destruct (String.eqb_spec k k') as [E | _]; [congruence | reflexivity].
    + rewrite IH. reflexivity.
Qed.

(** After an upsert at [k], the entry of [k] is the updated one. *)
Lemma assoc_upsert_same (init : V) k g d :
  assoc String.eqb k (dict_upsert init k g d)
  = Some (g (match assoc String.eqb k d with
             | Some v => v
             | None => init
             end)).
Proof.
  unfold dict_upsert. rewrite assoc_modify_same. unfold dict_setdefault.
  destruct (assoc String.eqb k d) eqn:E.
  - rewrite E. reflexivity.
  - rewrite assoc_set_same. reflexivity.
Qed.

(** An upsert at [k] leaves the entries of the other keys alone. *)
Lemma assoc_upsert_other (init : V) k k' g d :
  k' <> k ->
  assoc String.eqb k' (dict_upsert init k g d) = assoc String.eqb k' d.
Proof.
  intros Hne. unfold dict_upsert.
  rewrite assoc_modify_other by exact Hne. unfold dict_setdefault.
  destruct (assoc String.eqb k d); [reflexivity |].
  apply assoc_set_other. exact Hne.
Qed.
End UpsertFacts.

Section CounterUse.
Context {rt : PyRuntime}.

(** The year and the two counters of a reading are those of its record. *)
Lemma read_record_counts (t : json) (r : Reading.t) :
  read_record t = Ok r ->
  exists tw,
    py_getitem t "tweet" = Ok tw
    /\ record_year t = Ok (Reading.year r)
    /\ int_field tw "favorite_count" = Ok (Reading.favorites r)
    /\ int_field tw "retweet_count" = Ok (Reading.retweets r).
Proof.
  unfold read_record. set (cut := str_take 200). intros H.
  inv_bind H as tw Etw. inv_bind H as dt Edt.
  inv_bind H as text Et. inv_bind H as hm Ehm. inv_bind H as hs Ehs.
  inv_bind H as ms Ems.
  destruct (forallb py_hashable ms); [| discriminate H].
  inv_bind H as urls Eu. inv_bind H as us Eus. inv_bind H as cs Ecs.
  inv_bind H as lang El.
  destruct (py_hashable lang); [| discriminate H].
  inv_bind H as fav Ef. inv_bind H as rtc Er. injection H as <-.
  exists tw. cbn [Reading.year Reading.favorites Reading.retweets].
  split; [exact Etw |]. split; [| split; assumption].
  unfold record_year. rewrite Etw. cbn [bind]. rewrite Edt. reflexivity.
Qed.

(** A reading holds the counts its record writes. *)
Lemma reading_written (t : json) (r : Reading.t) :
  read_record t = Ok r -> counts_written t = true ->
  Reading.favorites r = written_count "favorite_count" t
  /\ Reading.retweets r = written_count "retweet_count" t.
Proof.
  intros Hr Hw.
  destruct (@read_record_counts t r Hr) as (tw & Htw & _ & Hf & Hn).
  unfold counts_written in Hw. unfold written_count. rewrite Htw in *.
  destruct (field_written tw "favorite_count") as [f |] eqn:Ef;
    [| discriminate Hw].
  destruct (field_written tw "retweet_count") as [n |] eqn:En;
    [| discriminate Hw].
  apply int_field_written in Ef, En. rewrite Hf in Ef. rewrite Hn in En.
  injection Ef as ->. injection En as ->. split; reflexivity.
Qed.

(** The sums over the readings of a year are the sums of the counts the
    records of that year write. *)
Lemma sum_written_of_year (y : string) (tweets : list json)
  (rs : list Reading.t) :
  Forall2 (fun t r => read_record t = Ok r) tweets rs ->
  forallb counts_written tweets = true ->
  sum_by Reading.favorites (of_year y rs)
  = sum_by (written_count "favorite_count") (records_of_year y tweets)
  /\ sum_by Reading.retweets (of_year y rs)
     = sum_by (written_count "retweet_count") (records_of_year y tweets).
Proof.
  induction 1 as [| t r ts rs' Hr _ IH]; intros Hall.
  - split; reflexivity.
  - cbn [forallb] in Hall. apply andb_prop in Hall. destruct Hall as [Hw Hall].
    destruct (IH Hall) as [IHf IHn].
    destruct (@reading_written t r Hr Hw) as [Hf Hn].
    destruct (@read_record_counts t r Hr) as (tw & _ & Hy & _).
    unfold of_year, records_of_year in *. cbn [filter]. rewrite Hy.
    destruct (String.eqb (Reading.year r) y).
    + rewrite !sum_by_cons, IHf, IHn, Hf, Hn. split; reflexivity.
    + split; assumption.
Qed.

Lemma projections_written (tweets : list json) (rs : list Reading.t) :
  Forall2 (fun t r => read_record t = Ok r) tweets rs ->
  forallb counts_written tweets = true ->
  Forall2 (fun t r => Rec.favorites r = written_count "favorite_count" t
                      /\ Rec.retweets r = written_count "retweet_count" t)
    tweets (map projection rs).
Proof.
  induction 1 as [| t r ts rs' Hr _ IH]; intros Hall.
  - constructor.
  - cbn [forallb] in Hall. apply andb_prop in Hall. destruct Hall as [Hw Hall].
    cbn [map]. constructor; [| apply IH; exact Hall].
    exact (@reading_written t r Hr Hw).
Qed.
End CounterUse.

(** C9.  A [favorite_count] or [retweet_count] that is a string of at most
    4300 decimal digits is converted to the integer it writes.  In its turn
    of the loop the record gets a projection that holds that integer, and
    the integer is added to the favorites, or to the retweet count, of the
    bucket of the record's year, the other buckets staying as they were.
    A record with its counters given as integers instead gives the same
    turn of the loop and the same report.  In the report of a run whose
    records all write their counters as integers or as such strings, the
    favorites and the retweet count of each yearly bucket are the sums of
    the counts written by the records of that year, and the two lists of
    top tweets are ranked from projections that hold the counts written. *)
Theorem digit_string_counts_as_int :
  forall rt : PyRuntime,
    (forall tw k s,
        py_get tw k (JInt 0) = Ok (JStr s) -> digits_within_limit s = true ->
        int_field tw k = Ok (digits_value s))
    /\ (forall t tw a a',
           py_getitem t "tweet" = Ok tw ->
           tweet_step t a = Ok a' ->
           exists y r,
             record_year t = Ok y
             /\ Acc.records a' = (Acc.records a ++ [r])%list
             /\ In y (dict_keys (Acc.yearly_volume a'))
             /\ (forall y', y' <> y ->
                            assoc String.eqb y' (Acc.yearly_volume a')
                            = assoc String.eqb y' (Acc.yearly_volume a))
             /\ (forall f,
                    field_written tw "favorite_count" = Some f ->
                    Rec.favorites r = f
                    /\ Year.favorites
                         (bucket_of_year y (Acc.yearly_volume a'))
                       = Year.favorites
                           (bucket_of_year y (Acc.yearly_volume a)) + f)
             /\ (forall n,
                    field_written tw "retweet_count" = Some n ->
                    Rec.retweets r = n
                    /\ Year.retweet_count
                         (bucket_of_year y (Acc.yearly_volume a'))
                       = Year.retweet_count
                           (bucket_of_year y (Acc.yearly_volume a)) + n))
    /\ (forall t a, tweet_step (with_int_counts t) a = tweet_step t a)
    /\ (forall tweets tweets',
           Forall2 same_but_counts tweets tweets' ->
           process_records tweets' = process_records tweets)
    /\ (forall tweets out,
           process_records tweets = Ok out ->
           forallb counts_written tweets = true ->
           (forall y v,
               In (y, v) (Out.yearly_volume out) ->
               Year.favorites v
               = sum_by (written_count "favorite_count")
                   (records_of_year y tweets)
               /\ Year.retweet_count v
                  = sum_by (written_count "retweet_count")
                      (records_of_year y tweets))
           /\ exists records,
               Forall2
                 (fun t r =>
                    Rec.favorites r = written_count "favorite_count" t
                    /\ Rec.retweets r = written_count "retweet_count" t)
                 tweets records
               /\ Out.top_tweets_by_favorites out
                  = map top_entry
                      (firstn 20 (sorted_desc Rec.favorites records))
               /\ Out.top_tweets_by_retweets out
                  = map top_entry
                      (firstn 20 (sorted_desc Rec.retweets records))).
Proof.
  intros rt. split; [| split; [| split; [| split]]].
  - intros tw k s Hget Hs. apply int_field_written.
    unfold field_written. rewrite Hget. cbn [count_written]. rewrite Hs.
    reflexivity.
  - intros t tw a a' Htw Hstep. rewrite tweet_step_read in Hstep.
    destruct (read_record t) as [r | e] eqn:Er; [| discriminate Hstep].
    cbn [bind] in Hstep. injection Hstep as <-.
    destruct (@read_record_counts rt t r Er) as (tw' & Htw' & Hy & Hf & Hn).
    rewrite Htw in Htw'. injection Htw' as <-.
    exists (Reading.year r), (projection r).
    unfold absorb. cbn [Acc.records Acc.yearly_volume].
    split; [exact Hy |]. split; [reflexivity |]. split; [| split; [| split]].
    + unfold dict_upsert. rewrite dict_keys_modify. apply setdefault_has_key.
    + intros y' Hne. apply assoc_upsert_other. exact Hne.
    + intros f Hw. apply int_field_written in Hw. rewrite Hf in Hw.
      injection Hw as <-. split; [reflexivity |].
      unfold bucket_of_year. rewrite assoc_upsert_same.
      destruct (assoc String.eqb (Reading.year r) (Acc.yearly_volume a));
        reflexivity.
    + intros n Hw. apply int_field_written in Hw. rewrite Hn in Hw.
      injection Hw as <-. split; [reflexivity |].
      unfold bucket_of_year. rewrite assoc_upsert_same.
      destruct (assoc String.eqb (Reading.year r) (Acc.yearly_volume a));
        reflexivity.
  - apply step_with_int_counts.
  - intros tweets tweets' H. unfold process_records, aggregate, build_output.
    rewrite (aggregate_same_but_counts H), (dates_same_but_counts H).
    reflexivity.
  - intros tweets out H Hall.
    destruct (process_records_readings _ H) as (rs & Hrs & _ & Hagg).
    destruct (@report_volume_tables rt tweets rs out Hrs H) as [Hy _].
    pose proof (proj1 (mapM_Ok _ _ _) Hrs) as Hread. split.
    + intros y v Hin. rewrite Hy in Hin. apply in_map_iff in Hin.
      destruct Hin as (k & Hk & _). injection Hk as <- <-.
      unfold year_bucket. cbn [Year.favorites Year.retweet_count].
      apply sum_written_of_year; assumption.
    + exists (map projection rs). split.
      * apply projections_written; assumption.
      * apply process_records_inv in H. destruct H as (a & range & Ha & ->).
        rewrite Hagg in Ha. injection Ha as <-.
        destruct (counted_tables rs) as (_ & _ & _ & _ & _ & _ & Hrec & _).
        cbv zeta. cbn [Out.top_tweets_by_favorites Out.top_tweets_by_retweets].
        rewrite Hrec. split; reflexivity.
Qed.

(** A [favorite_count] of 4301 digits is a string of decimal digits, and
    [int] refuses it: the turn of the loop raises [ValueError], and so does
    the run. *)
Lemma digit_string_over_limit_refused :
  decimal_digits long_count = true
  /\ int_field (JObj [("favorite_count", JStr long_count)]) "favorite_count"
     = Err ValueError
  /\ @tweet_step Sample.runtime tweet_long_count Acc.empty = Err ValueError
  /\ @process_records Sample.runtime [tweet_long_count] = Err ValueError.
Proof.
  repeat split; vm_compute; reflexivity.
Qed.

(** * The further properties at work *)

Lemma digit_string_counts_as_int_witness :
  int_field (JObj [("favorite_count", JStr "12")]) "favorite_count" = Ok 12
  /\ (exists a' y r,
         @tweet_step Sample.runtime tweet_string_counts Acc.empty = Ok a'
         /\ @record_year Sample.runtime tweet_string_counts = Ok y
         /\ Acc.records a' = [r]
         /\ Rec.favorites r = 12
         /\ Rec.retweets r = 3
         /\ Year.favorites (bucket_of_year y (Acc.yearly_volume a')) = 12
         /\ Year.retweet_count (bucket_of_year y (Acc.yearly_volume a')) = 3)
  /\ @process_records Sample.runtime (map with_int_counts archive_tweets)
     = @process_records Sample.runtime archive_tweets
  /\ exists out,
      @process_records Sample.runtime archive_tweets = Ok out
      /\ (forall y v,
             In (y, v) (Out.yearly_volume out) ->
             Year.favorites v
             = sum_by (written_count "favorite_count")
                 (@records_of_year Sample.runtime y archive_tweets)
             /\ Year.retweet_count v
                = sum_by (written_count "retweet_count")
                    (@records_of_year Sample.runtime y archive_tweets))
      /\ exists records,
          Forall2
            (fun t r =>
               Rec.favorites r = written_count "favorite_count" t
               /\ Rec.retweets r = written_count "retweet_count" t)
            archive_tweets records
          /\ Out.top_tweets_by_favorites out
             = map top_entry (firstn 20 (sorted_desc Rec.favorites records))
          /\ Out.top_tweets_by_retweets out
             = map top_entry (firstn 20 (sorted_desc Rec.retweets records)).
Proof.
  destruct (@digit_string_counts_as_int Sample.runtime)
    as (Hint & Hstep & _ & Hsame & Hreport).
  split; [| split; [| split]].
  - apply (Hint (JObj [("favorite_count", JStr "12")]) "favorite_count" "12");
      reflexivity.
  - destruct (py_getitem tweet_string_counts "tweet") as [tw | e] eqn:Etw;
      [| discriminate Etw].
    destruct (@tweet_step Sample.runtime tweet_string_counts Acc.empty)
      as [a' | e] eqn:Ea; [| vm_compute in Ea; discriminate Ea].
    destruct (Hstep tweet_string_counts tw Acc.empty a' Etw Ea)
      as (y & r & Hy & Hrec & _ & _ & Hf & Hn).
    injection Etw as <-.
    destruct (Hf 12 eq_refl) as [Hf1 Hf2].
    destruct (Hn 3 eq_refl) as [Hn1 Hn2].
    exists a', y, r. repeat split; assumption.
  - apply Hsame. unfold archive_tweets. simpl map.
    repeat (constructor; [right; reflexivity |]). constructor.
  - eexists. split; [vm_compute; reflexivity |].
    apply (Hreport archive_tweets); vm_compute; reflexivity.
Defined.



Lemma volume_tables_by_bucket_witness :
  exists out,
    @process_records Sample.runtime archive_tweets = Ok out
    /\ exists rs,
        @read_all Sample.runtime archive_tweets = Ok rs
        /\ Out.yearly_volume out
           = map (fun y => (y, year_bucket (of_year y rs)))
               (first_seen (map Reading.year rs))
        /\ Out.monthly_volume out
           = map (fun m => (m, month_bucket (of_month m rs)))
               (first_seen (map Reading.month rs)).
Proof.
  eexists. split; [vm_compute; reflexivity |].
  apply (@volume_tables_by_bucket Sample.runtime archive_tweets).
  vm_compute. reflexivity.
Defined.

Lemma totals_count_records_witness :
  exists out,
    @process_records Sample.runtime archive_tweets = Ok out
    /\ exists rs,
        @read_all Sample.runtime archive_tweets = Ok rs
        /\ Out.total_tweets out = Z.of_nat (length rs)
        /\ Out.original_tweets out
           = count_if (fun r => negb (Reading.is_rt r)) rs
        /\ Out.retweets out = count_if Reading.is_rt rs
        /\ Out.with_media out = count_if Reading.has_media rs
        /\ Out.with_urls out
           = count_if (fun r => match Reading.domains r with
                                | [] => false
                                | _ => true
                                end) rs.
Proof.
  eexists. split; [vm_compute; reflexivity |].
  apply (@totals_count_records Sample.runtime archive_tweets).
  vm_compute. reflexivity.
Defined.

Lemma volume_columns_sum_to_totals_witness :
  exists out,
    @process_records Sample.runtime archive_tweets = Ok out
    /\ sum_year Year.original (Out.yearly_volume out) = Out.original_tweets out
    /\ sum_year Year.retweet (Out.yearly_volume out) = Out.retweets out
    /\ sum_year Year.with_media (Out.yearly_volume out) = Out.with_media out
    /\ sum_month Month.total (Out.monthly_volume out) = Out.total_tweets out
    /\ sum_month Month.original (Out.monthly_volume out)
       = Out.original_tweets out
    /\ sum_month Month.retweet (Out.monthly_volume out) = Out.retweets out.
Proof.
  eexists. split; [vm_compute; reflexivity |].
  apply (@volume_columns_sum_to_totals Sample.runtime archive_tweets).
  vm_compute. reflexivity.
Defined.

Lemma breakdowns_rank_within_year_witness :
  exists out,
    @process_records Sample.runtime archive_tweets = Ok out
    /\ exists rs,
        @read_all Sample.runtime archive_tweets = Ok rs
        /\ Out.hashtags_by_year out = breakdown Reading.hashtags rs
        /\ Out.domains_by_year out = breakdown Reading.domains rs.
Proof.
  eexists. split; [vm_compute; reflexivity |].
  apply (@breakdowns_rank_within_year Sample.runtime archive_tweets).
  vm_compute. reflexivity.
Defined.

Lemma top_domains_ranking_witness :
  exists out,
    @process_records Sample.runtime archive_tweets = Ok out
    /\ exists rs,
        @read_all Sample.runtime archive_tweets = Ok rs
        /\ Out.top_domains out
           = top_n_spec 50 (tally (flat_map Reading.domains rs))
        /\ forall d c,
            In (d, c) (Out.top_domains out) ->
            d <> "" /\ str_contains "twitter.com" d = false
            /\ str_contains "t.co" d = false
            /\ c = occurrences d (flat_map Reading.domains rs) /\ 1 <= c.
Proof.
  eexists. split; [vm_compute; reflexivity |].
  apply (@top_domains_ranking Sample.runtime archive_tweets).
  vm_compute. reflexivity.
Defined.

Lemma top_hashtags_entries_witness :
  exists out,
    @process_records Sample.runtime archive_tweets = Ok out
    /\ (forall h c,
           In (h, c) (Out.top_hashtags out) ->
           In h (@observed_hashtags Sample.runtime archive_tweets)
           /\ c = occurrences h (@observed_hashtags Sample.runtime archive_tweets)
           /\ 1 <= c)
    /\ NoDup (map fst (Out.top_hashtags out))
    /\ (forall h,
           In h (@observed_hashtags Sample.runtime archive_tweets) ->
           ~ In h (map fst (Out.top_hashtags out)) ->
           length (Out.top_hashtags out) = 50%nat
           /\ forall h' c',
               In (h', c') (Out.top_hashtags out) ->
               occurrences h (@observed_hashtags Sample.runtime archive_tweets)
               <= c').
Proof.
  eexists. split; [vm_compute; reflexivity |].
  apply (@top_hashtags_entries Sample.runtime archive_tweets).
  vm_compute. reflexivity.
Defined.

Lemma top_tweets_rank_records_witness :
  exists out,
    @process_records Sample.runtime archive_tweets = Ok out
    /\ @ranks_records Sample.runtime Reading.favorites Top.favorites
         archive_tweets (Out.top_tweets_by_favorites out)
    /\ @ranks_records Sample.runtime Reading.retweets Top.retweets
         archive_tweets (Out.top_tweets_by_retweets out).
Proof.
  eexists. split; [vm_compute; reflexivity |].
  apply (@top_tweets_rank_records Sample.runtime archive_tweets).
  vm_compute. reflexivity.
Defined.

Lemma date_range_spans_records_witness :
  exists out,
    @process_records Sample.runtime archive_tweets = Ok out
    /\ Out.date_range out = ("2018-10-10", "2019-03-08")
    /\ exists rs first last,
        @read_all Sample.runtime archive_tweets = Ok rs
        /\ In first rs /\ In last rs
        /\ Out.date_range out = (Reading.date first, Reading.date last)
        /\ forall r, In r rs ->
                     dt_instant (Reading.when first)
                     <= dt_instant (Reading.when r)
                     <= dt_instant (Reading.when last).
Proof.
  eexists. split; [vm_compute; reflexivity |].
  split; [reflexivity |].
  apply (@date_range_spans_records Sample.runtime archive_tweets).
  vm_compute. reflexivity.
Defined.

Lemma languages_count_every_record_witness :
  exists out,
    @process_records Sample.runtime archive_tweets = Ok out
    /\ (length (Out.languages out) <= 20)%nat
    /\ Forall (fun e => 1 <= snd e) (Out.languages out)
    /\ sum_by snd (Out.languages out) <= Out.total_tweets out
    /\ ((length (Out.languages out) < 20)%nat ->
        sum_by snd (Out.languages out) = Out.total_tweets out).
Proof.
  eexists. split; [vm_compute; reflexivity |].
  apply (@languages_count_every_record Sample.runtime archive_tweets).
  vm_compute. reflexivity.
Defined.

Lemma counts_within_bounds_witness :
  exists out,
    @process_records Sample.runtime archive_tweets = Ok out
    /\ (0 <= Out.original_tweets out <= Out.total_tweets out
        /\ 0 <= Out.retweets out <= Out.total_tweets out
        /\ 0 <= Out.with_media out <= Out.total_tweets out
        /\ 0 <= Out.with_urls out <= Out.total_tweets out)
    /\ (forall y v, In (y, v) (Out.yearly_volume out) ->
                    1 <= Year.total v
                    /\ 0 <= Year.original v <= Year.total v
                    /\ 0 <= Year.retweet v <= Year.total v
                    /\ 0 <= Year.with_media v <= Year.total v)
    /\ (forall m v, In (m, v) (Out.monthly_volume out) ->
                    1 <= Month.total v
                    /\ 0 <= Month.original v <= Month.total v
                    /\ 0 <= Month.retweet v <= Month.total v).
Proof.
  eexists. split; [vm_compute; reflexivity |].
  apply (@counts_within_bounds Sample.runtime archive_tweets).
  vm_compute. reflexivity.
Defined.

Lemma extract_archive_stays_inside_witness :
  extract_archive archive_unzip "twitter.zip" "/tmp/archive"
  = Located "/tmp/archive/data"
  /\ str_startswith "/tmp/archive" "/tmp/archive/data" = true.
Proof.
  split; [reflexivity |].
  apply (@extract_archive_stays_inside archive_unzip "twitter.zip"
           "/tmp/archive" archive_tree "/tmp/archive/data").
  - reflexivity.
  - simpl. repeat split.
  - reflexivity.
Defined.

Lemma extract_archive_then_process_witness :
  exists content,
    In (os_path_join "/tmp/archive/data" "tweets.js", content)
      (extracted_files "/tmp/archive" archive_tree)
    /\ @load_twitter_js Sample.runtime
         (extracted_fs "/tmp/archive" archive_tree)
         (os_path_join "/tmp/archive/data" "tweets.js")
       = @load_twitter_js_text Sample.runtime content
    /\ @process_tweets Sample.runtime
         (extracted_fs "/tmp/archive" archive_tree) "/tmp/archive/data"
       = (loaded <- @load_twitter_js_text Sample.runtime content ;;
          tweets <- py_iter loaded ;;
          @process_records Sample.runtime tweets).
Proof.
  apply (@extract_archive_then_process Sample.runtime archive_unzip
           "twitter.zip" "/tmp/archive" archive_tree "/tmp/archive/data");
    reflexivity.
Defined.

Lemma process_tweets_success_witness :
  exists out,
    @process_tweets Sample.runtime one_tweet_fs "export" = Ok out
    /\ exists content pre rest loaded tweets,
        one_tweet_fs (os_path_join "export" "tweets.js") = Some content
        /\ content = pre ++ String "[" rest
        /\ no_bracket pre
        /\ Sample.json_loads (String "[" rest) = Some loaded
        /\ py_iter loaded = Ok tweets
        /\ @process_records Sample.runtime tweets = Ok out
        /\ Out.total_tweets out = Z.of_nat (length tweets)
        /\ 1 <= Out.total_tweets out.
Proof.
  eexists. split; [vm_compute; reflexivity |].
  apply (@process_tweets_success Sample.runtime one_tweet_fs "export").
  vm_compute. reflexivity.
Defined.

(** ** Lengths and order of the global rankings *)

Lemma most_common_length {K} (n : nat) (c : Counter K) :
  length (most_common n c) = Nat.min n (length c).
Proof.
  unfold most_common.
  rewrite length_firstn, (Permutation_length (sorted_desc_perm snd c)).
  reflexivity.
Qed.

Lemma most_common_sorted {K} (n : nat) (c : Counter K) :
  StronglySorted (fun x y => snd y <= snd x) (most_common n c).
Proof.
  unfold most_common. apply firstn_sorted. exact (sorted_desc_sorted snd c).
Qed.

(** X17.  In the report of a successful run, [top_hashtags] lists all the
    distinct hashtags when there are at most 50 of them and 50 otherwise,
    [top_mentions] likewise for the distinct mentions; [top_mentions],
    [top_domains] and [languages] are sorted by count, the largest first. *)
Theorem rankings_lengths_and_order :
  forall (rt : PyRuntime) (tweets : list json) (out : Out.t),
    process_records tweets = Ok out ->
    Z.of_nat (length (Out.top_hashtags out))
    = Z.min 50 (Out.unique_hashtags out)
    /\ Z.of_nat (length (Out.top_mentions out))
       = Z.min 50 (Out.unique_mentions out)
    /\ StronglySorted (fun x y => snd y <= snd x) (Out.top_mentions out)
    /\ StronglySorted (fun x y => snd y <= snd x) (Out.top_domains out)
    /\ StronglySorted (fun x y => snd y <= snd x) (Out.languages out).
Proof.
  intros rt tweets out H.
  apply process_records_inv in H. destruct H as (a & range & Ha & ->).
  cbv zeta.
  cbn [Out.top_hashtags Out.top_mentions Out.top_domains Out.languages
         Out.unique_hashtags Out.unique_mentions].
  rewrite !most_common_length.
  repeat split; try apply most_common_sorted; lia.
Qed.

Lemma rankings_lengths_and_order_witness :
  exists out,
    @process_records Sample.runtime archive_tweets = Ok out
    /\ Z.of_nat (length (Out.top_hashtags out))
       = Z.min 50 (Out.unique_hashtags out)
    /\ Z.of_nat (length (Out.top_mentions out))
       = Z.min 50 (Out.unique_mentions out)
    /\ StronglySorted (fun x y => snd y <= snd x) (Out.top_mentions out)
    /\ StronglySorted (fun x y => snd y <= snd x) (Out.top_domains out)
    /\ StronglySorted (fun x y => snd y <= snd x) (Out.languages out).
Proof.
  eexists. split; [vm_compute; reflexivity |].
  apply (@rankings_lengths_and_order Sample.runtime archive_tweets).
  vm_compute. reflexivity.
Defined.
